(** * Brand studio: campaign data-flow and video job polling

    A shallow embedding of the application code of the marketing console:
    the service layer that talks to the remote generation gateway
    ([services/geminiService]), the strategy screen that feeds the campaign
    store ([components/StrategyAgent], [App]) and the consumer screens
    ([components/ImageStudio], [components/VideoLab]).

    Asynchronous functions are embedded in a state-and-exception monad over
    an explicit browser/gateway world; the only loop of the program, the
    video poll loop, carries a fuel argument that bounds the number of
    re-queries.

    What lies outside the repository is modelled as follows.  The gateway
    is scripted: each call consumes the next reply of a stream of replies,
    which may be a failure.  [getAiClient] builds the SDK client and is
    taken to succeed without an observable effect; the host calls awaited by
    [ensurePaidApiKey] are taken to resolve; a file read is taken to
    succeed.  [JSON.parse], [String.prototype.split], [substring] and
    [FileReader.readAsDataURL] follow the ECMAScript and File API
    definitions. *)

From Stdlib Require Import String Ascii List NArith Arith Bool Lia.
From Stdlib Require DecimalString.
Import ListNotations.

Set Implicit Arguments.
Set Warnings "-register-all".

(* ================================================================== *)
(** ** JavaScript strings *)
(* ================================================================== *)

(** A JavaScript string is a sequence of UTF-16 code units. *)
Definition code_unit := N.
Definition jsstring := list code_unit.

(** The ASCII literals of the source are written [js "..."]. *)
Definition js (s : string) : jsstring :=
  map N_of_ascii (list_ascii_of_string s).

(** The double quote and the line feed, spliced into template texts. *)
Definition dq : jsstring := [34%N].
Definition nl : jsstring := [10%N].

Fixpoint str_eqb (a b : jsstring) : bool :=
  match a, b with
  | [], [] => true
  | x :: a', y :: b' => N.eqb x y && str_eqb a' b'
  | _, _ => false
  end.

(** [ToBoolean] on a string: only the empty string is falsy. *)
Definition truthy (s : jsstring) : bool :=
  match s with [] => false | _ :: _ => true end.

(** [ToBoolean] on [string | undefined]. *)
Definition truthy_opt (s : option jsstring) : bool :=
  match s with Some t => truthy t | None => false end.

(** [${x}] inside a template literal, for [x : string | undefined]. *)
Definition tpl (x : option jsstring) : jsstring :=
  match x with Some s => s | None => js "undefined" end.

(** [a || b] on strings. *)
Definition or_else (a : option jsstring) (b : jsstring) : jsstring :=
  match a with
  | Some s => if truthy s then s else b
  | None => b
  end.

(** [s.substring(0, n)]. *)
Definition substring0 (n : nat) (s : jsstring) : jsstring := firstn n s.

(** [s.split(sep)] for a one-unit separator: the segments between
    successive occurrences of [sep]. *)
Fixpoint split (sep : code_unit) (s : jsstring) : list jsstring :=
  match s with
  | [] => [[]]
  | c :: r =>
      if N.eqb c sep then [] :: split sep r
      else match split sep r with
           | seg :: segs => (c :: seg) :: segs
           | [] => [[c]]
           end
  end.

(** [starts_with lit s]: [s] begins with [lit]. *)
Fixpoint starts_with (lit s : jsstring) : bool :=
  match lit, s with
  | [], _ => true
  | x :: lit', c :: r => N.eqb x c && starts_with lit' r
  | _ :: _, [] => false
  end.

(** [s.split(sep)[0]] for a non-empty separator: the part of [s] before the
    first occurrence of [sep], all of [s] when there is none. *)
Fixpoint first_segment (sep s : jsstring) : jsstring :=
  if starts_with sep s then []
  else match s with
       | [] => []
       | c :: r => c :: first_segment sep r
       end.

(** [xs[i]] on an array: [undefined] out of range. *)
Definition at_index {A} (xs : list A) (i : nat) : option A := nth_error xs i.

(* ================================================================== *)
(** ** Thrown values *)
(* ================================================================== *)

Inductive Exn :=
| Error (msg : jsstring)        (* [new Error(msg)] of the application *)
| TypeError                     (* property access on [undefined] *)
| SyntaxError                   (* raised by [JSON.parse] *)
| GatewayError (msg : jsstring) (* whatever a gateway call rejects with *).

(** [e.message]; the texts of the built-in errors are engine-defined and
    stand here as the error's name. *)
Definition message (e : Exn) : jsstring :=
  match e with
  | Error m => m
  | GatewayError m => m
  | TypeError => js "TypeError"
  | SyntaxError => js "SyntaxError"
  end.

(* ================================================================== *)
(** ** Gateway data: video operations *)
(* ================================================================== *)

Record Video := { uri : option jsstring }.
Record GeneratedVideo := { video : option Video }.
Record GenerateVideosResponse :=
  { generatedVideos : option (list GeneratedVideo) }.
Record Operation :=
  { done : bool; response : option GenerateVideosResponse }.

Definition opt_bind {A B} (o : option A) (f : A -> option B) : option B :=
  match o with Some a => f a | None => None end.

(** [operation.response?.generatedVideos?.[0]?.video?.uri] *)
Definition downloadLink (operation : Operation) : option jsstring :=
  opt_bind (response operation) (fun r =>
  opt_bind (generatedVideos r) (fun vs =>
  opt_bind (at_index vs 0) (fun g =>
  opt_bind (video g) (fun v => uri v)))).

Inductive VideoAspect := Ratio16_9 | Ratio9_16.

Record VideoImage :=
  { imageBytes : option jsstring; imageMimeType : jsstring }.

Record VideoConfig :=
  { numberOfVideos : N; resolution : jsstring; videoAspectRatio : VideoAspect }.

Record VideoRequest :=
  { videoModel : jsstring;
    videoPrompt : jsstring;
    image : option VideoImage;
    videoConfig : VideoConfig }.

Inductive VideoReply :=
| VideoOp (operation : Operation)
| VideoFail (msg : jsstring).

(* ================================================================== *)
(** ** Gateway data: content generation *)
(* ================================================================== *)

Inductive AspectRatio :=
| SQUARE | PORTRAIT_3_4 | LANDSCAPE_4_3 | LANDSCAPE_16_9
| PORTRAIT_9_16 | LANDSCAPE_21_9 | PORTRAIT_2_3 | LANDSCAPE_3_2.

Inductive ImageSize := K1 | K2 | K4.

Record Blob := { mimeType : option jsstring; data : option jsstring }.
Record Part := { text : option jsstring; inlineData : option Blob }.
Record Content := { parts : option (list Part) }.

Record WebChunk := { title : option jsstring; webUri : option jsstring }.
Record GroundingChunk := { web : option WebChunk }.
Record GroundingMetadata := { groundingChunks : option (list GroundingChunk) }.

Record Candidate :=
  { content : option Content; groundingMetadata : option GroundingMetadata }.

Record GenerateContentResponse :=
  { responseText : option jsstring; candidates : option (list Candidate) }.

(** The response schema language, as far as the program uses it. *)
Inductive Schema :=
| TypeSTRING
| TypeARRAY (items : Schema)
| TypeOBJECT (properties : list (jsstring * Schema)).

Inductive Contents :=
| ContentsText (t : jsstring)
| ContentsParts (ps : list Part).

Record ContentConfig :=
  { thinkingBudget : option N;
    responseMimeType : option jsstring;
    responseSchema : option Schema;
    googleSearch : bool;
    systemInstruction : option jsstring;
    imageConfig : option (AspectRatio * ImageSize) }.

Definition noConfig : ContentConfig :=
  {| thinkingBudget := None; responseMimeType := None; responseSchema := None;
     googleSearch := false; systemInstruction := None; imageConfig := None |}.

Record ContentRequest :=
  { contentModel : jsstring; contents : Contents; config : ContentConfig }.

Inductive ContentReply :=
| ContentOk (r : GenerateContentResponse)
| ContentFail (msg : jsstring).

(* ================================================================== *)
(** ** The world: browser environment and scripted gateway *)
(* ================================================================== *)

Inductive Event :=
| EvHasSelectedApiKey
| EvOpenSelectKey
| EvGenerateContent (req : ContentRequest)
| EvGenerateVideos (req : VideoRequest)
| EvSetTimeout (ms : N)
| EvGetVideosOperation (operation : Operation)
| EvConsoleError (label : option jsstring) (e : Exn)
| EvAlert (msg : jsstring).

(** [aistudio] is [Some b] when [window.aistudio] offers both methods and
    [hasSelectedApiKey()] resolves to [b].  The gateway is scripted: the
    [k]-th call of a family of endpoints receives the [k]-th reply.  [trace]
    records the observable actions in the order they happen. *)
Record World :=
  { aistudio : option bool;
    API_KEY : option jsstring;
    content_replies : nat -> ContentReply;
    content_calls : nat;
    video_replies : nat -> VideoReply;
    video_calls : nat;
    trace : list Event }.

Definition log (ev : Event) (w : World) : World :=
  {| aistudio := aistudio w; API_KEY := API_KEY w;
     content_replies := content_replies w; content_calls := content_calls w;
     video_replies := video_replies w; video_calls := video_calls w;
     trace := trace w ++ [ev] |}.

Definition next_content (w : World) : World :=
  {| aistudio := aistudio w; API_KEY := API_KEY w;
     content_replies := content_replies w;
     content_calls := S (content_calls w);
     video_replies := video_replies w; video_calls := video_calls w;
     trace := trace w |}.

Definition next_video (w : World) : World :=
  {| aistudio := aistudio w; API_KEY := API_KEY w;
     content_replies := content_replies w; content_calls := content_calls w;
     video_replies := video_replies w;
     video_calls := S (video_calls w);
     trace := trace w |}.

(* ================================================================== *)
(** ** Asynchronous computations *)
(* ================================================================== *)

(** The settlement of a promise: fulfilled, rejected, or still pending when
    the fuel of the poll loop ran out. *)
Inductive Outcome (A : Type) :=
| Returned (a : A)
| Thrown (e : Exn)
| Pending.

Arguments Returned {A} a.
Arguments Thrown {A} e.
Arguments Pending {A}.

Definition Async (S A : Type) := S -> Outcome A * S.

Definition ret {S A} (a : A) : Async S A := fun s => (Returned a, s).

Definition throw {S A} (e : Exn) : Async S A := fun s => (Thrown e, s).

Definition bind {S A B} (m : Async S A) (k : A -> Async S B) : Async S B :=
  fun s =>
    match m s with
    | (Returned a, s') => k a s'
    | (Thrown e, s') => (Thrown e, s')
    | (Pending, s') => (Pending, s')
    end.

(** [try { m } catch (e) { h e }] *)
Definition try_catch {S A} (m : Async S A) (h : Exn -> Async S A) : Async S A :=
  fun s =>
    match m s with
    | (Thrown e, s') => h e s'
    | r => r
    end.

(** [try { m } finally { f }], for a [finally] block that cannot throw. *)
Definition finally {S A} (m : Async S A) (f : S -> S) : Async S A :=
  fun s =>
    match m s with
    | (Pending, s') => (Pending, s')
    | (r, s') => (r, f s')
    end.

Definition modify {S} (f : S -> S) : Async S unit := fun s => (Returned tt, f s).

Declare Scope async_scope.
Delimit Scope async_scope with async.
Notation "x <- m ;; k" := (bind m (fun x => k))
  (at level 100, m at next level, right associativity) : async_scope.
Notation "m ;;; k" := (bind m (fun _ => k))
  (at level 100, right associativity) : async_scope.
Open Scope async_scope.

Definition emit (ev : Event) : Async World unit := modify (log ev).

(* ================================================================== *)
(** ** Service layer: gateway calls *)
(* ================================================================== *)

(** [ensurePaidApiKey]: asks the host for a key selection when none was
    made; resolves to [true] on every path. *)
Definition ensurePaidApiKey : Async World bool :=
  fun w =>
    match aistudio w with
    | Some hasKey =>
        let w1 := log EvHasSelectedApiKey w in
        if negb hasKey then (Returned true, log EvOpenSelectKey w1)
        else (Returned true, w1)
    | None => (Returned true, w)
    end.

(** [ai.models.generateContent(req)] *)
Definition generateContent (req : ContentRequest)
  : Async World GenerateContentResponse :=
  fun w =>
    let w1 := next_content (log (EvGenerateContent req) w) in
    match content_replies w (content_calls w) with
    | ContentOk r => (Returned r, w1)
    | ContentFail m => (Thrown (GatewayError m), w1)
    end.

(** [ai.models.generateVideos(req)] *)
Definition generateVideos (req : VideoRequest) : Async World Operation :=
  fun w =>
    let w1 := next_video (log (EvGenerateVideos req) w) in
    match video_replies w (video_calls w) with
    | VideoOp op => (Returned op, w1)
    | VideoFail m => (Thrown (GatewayError m), w1)
    end.

(** [ai.operations.getVideosOperation({ operation })] *)
Definition getVideosOperation (operation : Operation) : Async World Operation :=
  fun w =>
    let w1 := next_video (log (EvGetVideosOperation operation) w) in
    match video_replies w (video_calls w) with
    | VideoOp op => (Returned op, w1)
    | VideoFail m => (Thrown (GatewayError m), w1)
    end.

(** [await new Promise(resolve => setTimeout(resolve, ms))] *)
Definition sleep (ms : N) : Async World unit := emit (EvSetTimeout ms).

(* ================================================================== *)
(** ** Video Lab service functions *)
(* ================================================================== *)

(** The poll loop shared, verbatim, by both video functions:
    [while (!operation.done) { await sleep(5000);
       operation = await getVideosOperation({operation}) }].
    [fuel] bounds the number of iterations; the loop is [Pending] when the
    bound is reached with the operation still not done. *)
Fixpoint poll (fuel : nat) (operation : Operation) : Async World Operation :=
  if done operation then ret operation
  else
    match fuel with
    | O => fun w => (Pending, w)
    | S fuel' =>
        sleep 5000 ;;;
        operation' <- getVideosOperation operation ;;
        poll fuel' operation'
    end.

(** The tail of both functions: extract the link or throw [failure]. *)
Definition deliver (failure : jsstring) (operation : Operation)
  : Async World jsstring :=
  let downloadLink := downloadLink operation in
  if negb (truthy_opt downloadLink) then throw (Error failure)
  else fun w => (Returned (tpl downloadLink ++ js "&key=" ++ tpl (API_KEY w)), w).

Definition veoConfig (aspectRatio : VideoAspect) : VideoConfig :=
  {| numberOfVideos := 1; resolution := js "1080p";
     videoAspectRatio := aspectRatio |}.

Definition textToVideoRequest (prompt : jsstring) (aspectRatio : VideoAspect)
  : VideoRequest :=
  {| videoModel := js "veo-3.1-fast-generate-preview";
     videoPrompt := prompt;
     image := None;
     videoConfig := veoConfig aspectRatio |}.

Definition generateVideoFromPrompt (fuel : nat)
    (prompt : jsstring) (aspectRatio : VideoAspect) : Async World jsstring :=
  ensurePaidApiKey ;;;
  operation <- generateVideos (textToVideoRequest prompt aspectRatio) ;;
  operation <- poll fuel operation ;;
  deliver (js "Video generation failed") operation.

Definition imageToVideoRequest (base64Image : option jsstring)
    (prompt : option jsstring) (aspectRatio : VideoAspect) : VideoRequest :=
  {| videoModel := js "veo-3.1-fast-generate-preview";
     videoPrompt := or_else prompt (js "Animate this image cinematically");
     image := Some {| imageBytes := base64Image;
                      imageMimeType := js "image/png" |};
     videoConfig := veoConfig aspectRatio |}.

Definition animateImageWithVeo (fuel : nat) (base64Image : option jsstring)
    (prompt : option jsstring) (aspectRatio : VideoAspect)
  : Async World jsstring :=
  ensurePaidApiKey ;;;
  operation <- generateVideos (imageToVideoRequest base64Image prompt aspectRatio) ;;
  operation <- poll fuel operation ;;
  deliver (js "Video animation failed") operation.

(* ================================================================== *)
(** ** JSON values and [JSON.parse] *)
(* ================================================================== *)

(** The values [JSON.parse] can produce.  A number keeps its lexeme; an
    object keeps its members in source order, a later member overriding an
    earlier one with the same key (see [lookup]). *)
Inductive JSValue :=
| JNull
| JBool (b : bool)
| JNumber (lexeme : jsstring)
| JString (s : jsstring)
| JArray (elements : list JSValue)
| JObject (members : list (jsstring * JSValue)).

(** Result of a parsing function: a value and the unread input, a syntax
    error, or recursion budget exhausted. *)
Inductive Parse (A : Type) :=
| Parsed (a : A) (rest : jsstring)
| Malformed
| Exhausted.

Arguments Parsed {A} a rest.
Arguments Malformed {A}.
Arguments Exhausted {A}.

Definition cu (a : ascii) : code_unit := N_of_ascii a.

Arguments cu : simpl never.

Definition is_ws (c : code_unit) : bool :=
  N.eqb c 32 || N.eqb c 9 || N.eqb c 10 || N.eqb c 13.

Definition is_digit (c : code_unit) : bool := N.leb 48 c && N.leb c 57.

Fixpoint skip_ws (s : jsstring) : jsstring :=
  match s with
  | c :: r => if is_ws c then skip_ws r else s
  | [] => []
  end.

Definition hex_val (c : code_unit) : option N :=
  if N.leb 48 c && N.leb c 57 then Some (c - 48)%N
  else if N.leb 97 c && N.leb c 102 then Some (c - 87)%N
  else if N.leb 65 c && N.leb c 70 then Some (c - 55)%N
  else None.

Definition hex4 (a b c d : code_unit) : option code_unit :=
  match hex_val a, hex_val b, hex_val c, hex_val d with
  | Some x, Some y, Some z, Some t => Some (((x * 16 + y) * 16 + z) * 16 + t)%N
  | _, _, _, _ => None
  end.

(** The single-character escapes: quote, backslash, slash, b f n r t. *)
Definition unescape (c : code_unit) : option code_unit :=
  if N.eqb c 34 then Some 34%N
  else if N.eqb c 92 then Some 92%N
  else if N.eqb c 47 then Some 47%N
  else if N.eqb c (cu "b") then Some 8%N
  else if N.eqb c (cu "f") then Some 12%N
  else if N.eqb c (cu "n") then Some 10%N
  else if N.eqb c (cu "r") then Some 13%N
  else if N.eqb c (cu "t") then Some 9%N
  else None.

(** The characters of a string literal, after its opening quote. *)
Fixpoint parse_chars (s : jsstring) (acc : jsstring) : Parse jsstring :=
  match s with
  | [] => Malformed
  | c :: r =>
      if N.eqb c 34 then Parsed (rev acc) r
      else if N.eqb c 92 then
        match r with
        | e :: r1 =>
            if N.eqb e (cu "u") then
              match r1 with
              | h1 :: h2 :: h3 :: h4 :: r2 =>
                  match hex4 h1 h2 h3 h4 with
                  | Some u => parse_chars r2 (u :: acc)
                  | None => Malformed
                  end
              | _ => Malformed
              end
            else
              match unescape e with
              | Some u => parse_chars r1 (u :: acc)
              | None => Malformed
              end
        | [] => Malformed
        end
      else if N.ltb c 32 then Malformed
      else parse_chars r (c :: acc)
  end.

Fixpoint span_digits (s : jsstring) : jsstring :=
  match s with
  | c :: r => if is_digit c then span_digits r else s
  | [] => []
  end.

Definition after_int (s : jsstring) : option jsstring :=
  match s with
  | c :: r =>
      if N.eqb c 48 then Some r
      else if is_digit c then Some (span_digits r)
      else None
  | [] => None
  end.

Definition digits1 (s : jsstring) : option jsstring :=
  match s with
  | d :: r => if is_digit d then Some (span_digits r) else None
  | [] => None
  end.

Definition after_frac (s : jsstring) : option jsstring :=
  match s with
  | c :: r => if N.eqb c (cu ".") then digits1 r else Some s
  | [] => Some s
  end.

Definition after_sign (s : jsstring) : jsstring :=
  match s with
  | c :: r => if N.eqb c (cu "+") || N.eqb c (cu "-") then r else s
  | [] => s
  end.

Definition after_exp (s : jsstring) : option jsstring :=
  match s with
  | c :: r =>
      if N.eqb c (cu "e") || N.eqb c (cu "E") then digits1 (after_sign r)
      else Some s
  | [] => Some s
  end.

Definition after_minus (s : jsstring) : jsstring :=
  match s with
  | c :: r => if N.eqb c (cu "-") then r else s
  | [] => s
  end.

Definition parse_number (s : jsstring) : Parse JSValue :=
  match opt_bind (opt_bind (after_int (after_minus s)) after_frac) after_exp with
  | Some rest => Parsed (JNumber (firstn (length s - length rest) s)) rest
  | None => Malformed
  end.

(** [strip lit s]: the input after the literal [lit], if [s] starts with it. *)
Fixpoint strip (lit s : jsstring) : option jsstring :=
  match lit, s with
  | [], _ => Some s
  | x :: lit', c :: r => if N.eqb x c then strip lit' r else None
  | _ :: _, [] => None
  end.

Definition parse_literal (lit : jsstring) (v : JSValue) (s : jsstring)
  : Parse JSValue :=
  match strip lit s with
  | Some rest => Parsed v rest
  | None => Malformed
  end.

(** Recursive descent on the JSON grammar.  [parse_elements] reads the
    elements of an array after its opening bracket, [parse_members] the
    members of an object after its opening brace. *)
Fixpoint parse_value (fuel : nat) (s : jsstring) : Parse JSValue :=
  match fuel with
  | O => Exhausted
  | S f =>
      match skip_ws s with
      | [] => Malformed
      | c :: r =>
          if N.eqb c (cu "{") then
            match skip_ws r with
            | c' :: r' =>
                if N.eqb c' (cu "}") then Parsed (JObject []) r'
                else
                  match parse_members f r [] with
                  | Parsed ms rest => Parsed (JObject ms) rest
                  | Malformed => Malformed
                  | Exhausted => Exhausted
                  end
            | [] => Malformed
            end
          else if N.eqb c (cu "[") then
            match skip_ws r with
            | c' :: r' =>
                if N.eqb c' (cu "]") then Parsed (JArray []) r'
                else
                  match parse_elements f r [] with
                  | Parsed vs rest => Parsed (JArray vs) rest
                  | Malformed => Malformed
                  | Exhausted => Exhausted
                  end
            | [] => Malformed
            end
          else if N.eqb c 34 then
            match parse_chars r [] with
            | Parsed str rest => Parsed (JString str) rest
            | Malformed => Malformed
            | Exhausted => Exhausted
            end
          else if N.eqb c (cu "t") then parse_literal (js "true") (JBool true) (c :: r)
          else if N.eqb c (cu "f") then parse_literal (js "false") (JBool false) (c :: r)
          else if N.eqb c (cu "n") then parse_literal (js "null") JNull (c :: r)
          else parse_number (c :: r)
      end
  end

with parse_elements (fuel : nat) (s : jsstring) (acc : list JSValue)
  : Parse (list JSValue) :=
  match fuel with
  | O => Exhausted
  | S f =>
      match parse_value f s with
      | Parsed v rest =>
          match skip_ws rest with
          | c :: r =>
              if N.eqb c (cu ",") then parse_elements f r (v :: acc)
              else if N.eqb c (cu "]") then Parsed (rev (v :: acc)) r
              else Malformed
          | [] => Malformed
          end
      | Malformed => Malformed
      | Exhausted => Exhausted
      end
  end

with parse_members (fuel : nat) (s : jsstring) (acc : list (jsstring * JSValue))
  : Parse (list (jsstring * JSValue)) :=
  match fuel with
  | O => Exhausted
  | S f =>
      match skip_ws s with
      | q :: r0 =>
          if N.eqb q 34 then
            match parse_chars r0 [] with
            | Parsed key r1 =>
                match skip_ws r1 with
                | colon :: r2 =>
                    if N.eqb colon (cu ":") then
                      match parse_value f r2 with
                      | Parsed v rest =>
                          match skip_ws rest with
                          | c :: r =>
                              if N.eqb c (cu ",")
                              then parse_members f r ((key, v) :: acc)
                              else if N.eqb c (cu "}")
                              then Parsed (rev ((key, v) :: acc)) r
                              else Malformed
                          | [] => Malformed
                          end
                      | Malformed => Malformed
                      | Exhausted => Exhausted
                      end
                    else Malformed
                | [] => Malformed
                end
            | Malformed => Malformed
            | Exhausted => Exhausted
            end
          else Malformed
      | [] => Malformed
      end
  end.

(** Enough budget for any input of that length (see
    [parse_value_never_exhausted]). *)
Definition parse_budget (s : jsstring) : nat := 2 * length s + 1.

(** [JSON.parse(text)]: [None] stands for the thrown [SyntaxError]. *)
Definition JSON_parse (text : jsstring) : option JSValue :=
  match parse_value (parse_budget text) text with
  | Parsed v rest =>
      match skip_ws rest with
      | [] => Some v
      | _ :: _ => None
      end
  | Malformed => None
  | Exhausted => None
  end.

(** Own-property lookup [obj[key]] on the members of an object: the last
    member with that key is the property's value. *)
Fixpoint lookup (key : jsstring) (members : list (jsstring * JSValue))
  : option JSValue :=
  match members with
  | [] => None
  | (k, v) :: rest =>
      match lookup key rest with
      | Some v' => Some v'
      | None => if str_eqb k key then Some v else None
      end
  end.

(** [obj.key] on a value known to be non-null. *)
Definition prop (key : jsstring) (v : JSValue) : option JSValue :=
  match v with
  | JObject ms => lookup key ms
  | _ => None
  end.

Definition index_key (i : nat) : jsstring :=
  js (DecimalString.NilEmpty.string_of_uint (Nat.to_uint i)).

Fixpoint indexed (i : nat) (xs : list JSValue) : list (jsstring * JSValue) :=
  match xs with
  | [] => []
  | x :: r => (index_key i, x) :: indexed (S i) r
  end.

(** The own enumerable properties copied by [{ ...v }]. *)
Definition spread (v : JSValue) : list (jsstring * JSValue) :=
  match v with
  | JObject ms => ms
  | JArray xs => indexed 0 xs
  | JString str => indexed 0 (map (fun c => JString [c]) str)
  | JNull | JBool _ | JNumber _ => []
  end.

(* ================================================================== *)
(** ** types.ts *)
(* ================================================================== *)

Inductive AppMode := STRATEGY | IMAGE_STUDIO | VIDEO_LAB | SOCIAL_SPEED.

Record ActiveCampaign :=
  { brandName : jsstring;
    visualStyle : jsstring;
    videoConcept : jsstring;
    socialHooks : list jsstring;
    targetAudience : jsstring }.

Definition asString (v : option JSValue) : option jsstring :=
  match v with Some (JString s) => Some s | _ => None end.

Fixpoint asStrings (vs : list JSValue) : option (list jsstring) :=
  match vs with
  | [] => Some []
  | JString s :: r =>
      match asStrings r with Some ss => Some (s :: ss) | None => None end
  | _ :: _ => None
  end.

Definition asStringArray (v : option JSValue) : option (list jsstring) :=
  match v with Some (JArray vs) => asStrings vs | _ => None end.

(** Reading a run-time object at the [ActiveCampaign] interface: defined
    when every declared field is present with its declared type. *)
Definition asActiveCampaign (v : JSValue) : option ActiveCampaign :=
  match asString (prop (js "brandName") v),
        asString (prop (js "visualStyle") v),
        asString (prop (js "videoConcept") v),
        asStringArray (prop (js "socialHooks") v),
        asString (prop (js "targetAudience") v) with
  | Some bn, Some vs, Some vc, Some hooks, Some ta =>
      Some {| brandName := bn; visualStyle := vs; videoConcept := vc;
              socialHooks := hooks; targetAudience := ta |}
  | _, _, _, _, _ => None
  end.

(* ================================================================== *)
(** ** Strategy service functions *)
(* ================================================================== *)

Definition strategyPrompt (brandName goals : jsstring) : jsstring :=
  js "Act as a senior marketing strategist for the brand " ++ dq ++ brandName ++ dq ++ js ". " ++ nl ++
  js "  The brand's goal is: " ++ dq ++ goals ++ dq ++ js "." ++ nl ++
  js "  " ++ nl ++
  js "  Develop a comprehensive viral growth strategy. Include:" ++ nl ++
  js "  1. Core Value Proposition" ++ nl ++
  js "  2. Target Audience Personas" ++ nl ++
  js "  3. Key Campaign Angles" ++ nl ++
  js "  4. A detailed content calendar idea for one week." ++ nl ++
  js "  " ++ nl ++
  js "  Use deep reasoning to ensure the strategy is unique and actionable.".

Definition generateStrategy (brandName goals : jsstring)
  : Async World (option jsstring) :=
  let prompt := strategyPrompt brandName goals in
  response <- generateContent
    {| contentModel := js "gemini-3-pro-preview";
       contents := ContentsText prompt;
       config := {| thinkingBudget := Some 32768%N;
                    responseMimeType := None; responseSchema := None;
                    googleSearch := false; systemInstruction := None;
                    imageConfig := None |} |} ;;
  ret (responseText response).

Definition extractionHead : jsstring :=
  js "Analyze the following marketing strategy and extract structured campaign assets." ++ nl ++
  js "  " ++ nl ++
  js "  Strategy Text:" ++ nl ++
  js "  ".

Definition extractionTail : jsstring :=
  nl ++
  js "  " ++ nl ++
  js "  Return a JSON object with:" ++ nl ++
  js "  - visualStyle: A detailed prompt describing the visual aesthetic (lighting, color palette, mood) suitable for an image generator." ++ nl ++
  js "  - videoConcept: A specific, cinematic video scene description suitable for a video generation model (e.g. " ++ dq ++ js "Drone shot of..." ++ dq ++ js ")." ++ nl ++
  js "  - socialHooks: An array of 3 short, punchy social media headlines/hooks." ++ nl ++
  js "  - targetAudience: A 1-sentence summary of the target audience." ++ nl ++
  js "  ".

Definition extractionPrompt (strategyText : jsstring) : jsstring :=
  extractionHead ++ substring0 5000 strategyText ++ extractionTail.

Definition campaignSchema : Schema :=
  TypeOBJECT
    [ (js "visualStyle", TypeSTRING);
      (js "videoConcept", TypeSTRING);
      (js "socialHooks", TypeARRAY TypeSTRING);
      (js "targetAudience", TypeSTRING) ].

Definition extractionRequest (strategyText : jsstring) : ContentRequest :=
  {| contentModel := js "gemini-2.5-flash";
     contents := ContentsText (extractionPrompt strategyText);
     config := {| thinkingBudget := None;
                  responseMimeType := Some (js "application/json");
                  responseSchema := Some campaignSchema;
                  googleSearch := false; systemInstruction := None;
                  imageConfig := None |} |}.

(** [JSON.parse(x)] for [x : string | undefined]: the argument is first
    converted to a string. *)
Definition JSON_parse_async {S} (x : option jsstring) : Async S JSValue :=
  match JSON_parse (tpl x) with
  | Some v => ret v
  | None => throw SyntaxError
  end.

(** The caller passes [string | undefined]; [strategyText.substring] throws a
    [TypeError] on [undefined]. *)
Definition extractCampaignDetails (strategyText : option jsstring)
  : Async World JSValue :=
  match strategyText with
  | None => throw TypeError
  | Some strategyText =>
      response <- generateContent (extractionRequest strategyText) ;;
      JSON_parse_async (responseText response)
  end.

Record TrendReport :=
  { trendText : option jsstring; urls : list WebChunk }.

(** [response.candidates?.[0]?.groundingMetadata?.groundingChunks || []] *)
Definition groundingChunksOf (response : GenerateContentResponse)
  : list GroundingChunk :=
  match opt_bind (candidates response) (fun cs =>
        opt_bind (at_index cs 0) (fun c =>
        opt_bind (groundingMetadata c) groundingChunks)) with
  | Some chunks => chunks
  | None => []
  end.

(** [chunks.map(c => c.web ? {title, uri} : null).filter(u => u !== null)] *)
Fixpoint webLinks (chunks : list GroundingChunk) : list WebChunk :=
  match chunks with
  | [] => []
  | c :: r =>
      match web c with
      | Some w => {| title := title w; webUri := webUri w |} :: webLinks r
      | None => webLinks r
      end
  end.

Definition researchTrends (topic : jsstring) : Async World TrendReport :=
  response <- generateContent
    {| contentModel := js "gemini-2.5-flash";
       contents := ContentsText
         (js "Find the latest trending news, memes, or discussions related to: " ++ dq ++ topic ++ dq ++ js ". Provide a summary and list specific links to sources.");
       config := {| thinkingBudget := None;
                    responseMimeType := None; responseSchema := None;
                    googleSearch := true; systemInstruction := None;
                    imageConfig := None |} |} ;;
  ret {| trendText := responseText response;
         urls := webLinks (groundingChunksOf response) |}.

(* ================================================================== *)
(** ** Image Studio service functions *)
(* ================================================================== *)

(** [response.candidates?.[0]?.content?.parts || []] *)
Definition partsOf (response : GenerateContentResponse) : list Part :=
  match opt_bind (candidates response) (fun cs =>
        opt_bind (at_index cs 0) (fun c =>
        opt_bind (content c) parts)) with
  | Some ps => ps
  | None => []
  end.

(** The [for (const part of ...)] loop of both image functions: the data
    URI of the first part that has [inlineData], if any. *)
Fixpoint firstInlineImage (ps : list Part) : option jsstring :=
  match ps with
  | [] => None
  | part :: rest =>
      match inlineData part with
      | Some blob => Some (js "data:image/png;base64," ++ tpl (data blob))
      | None => firstInlineImage rest
      end
  end.

Definition imageRequest (prompt : jsstring) (aspectRatio : AspectRatio)
    (size : ImageSize) : ContentRequest :=
  {| contentModel := js "gemini-3-pro-image-preview";
     contents := ContentsParts [ {| text := Some prompt; inlineData := None |} ];
     config := {| thinkingBudget := None;
                  responseMimeType := None; responseSchema := None;
                  googleSearch := false; systemInstruction := None;
                  imageConfig := Some (aspectRatio, size) |} |}.

Definition generateProImage (prompt : jsstring) (aspectRatio : AspectRatio)
    (size : ImageSize) : Async World jsstring :=
  ensurePaidApiKey ;;;
  response <- generateContent (imageRequest prompt aspectRatio size) ;;
  match firstInlineImage (partsOf response) with
  | Some dataUri => ret dataUri
  | None => throw (Error (js "No image generated"))
  end.

Definition editRequest (base64Image : option jsstring) (prompt : jsstring)
  : ContentRequest :=
  {| contentModel := js "gemini-2.5-flash-image";
     contents := ContentsParts
       [ {| text := None;
            inlineData := Some {| mimeType := Some (js "image/png");
                                  data := base64Image |} |};
         {| text := Some prompt; inlineData := None |} ];
     config := noConfig |}.

Definition editImageWithFlash (base64Image : option jsstring)
    (prompt : jsstring) : Async World jsstring :=
  response <- generateContent (editRequest base64Image prompt) ;;
  match firstInlineImage (partsOf response) with
  | Some dataUri => ret dataUri
  | None => throw (Error (js "No edited image returned"))
  end.

(* ================================================================== *)
(** ** Local files *)
(* ================================================================== *)

Record File := { type : jsstring; bytes : list Byte.byte }.

Definition base64_char (i : N) : code_unit :=
  if N.ltb i 26 then (65 + i)%N
  else if N.ltb i 52 then (97 + (i - 26))%N
  else if N.ltb i 62 then (48 + (i - 52))%N
  else if N.eqb i 62 then 43%N
  else 47%N.

(** Base64 (RFC 4648) of a byte sequence, with [=] padding. *)
Fixpoint base64 (bs : list Byte.byte) : jsstring :=
  match bs with
  | [] => []
  | [x] =>
      let a := Byte.to_N x in
      [ base64_char (a / 4); base64_char ((a mod 4) * 16); 61%N; 61%N ]
  | [x; y] =>
      let a := Byte.to_N x in
      let b := Byte.to_N y in
      [ base64_char (a / 4); base64_char ((a mod 4) * 16 + b / 16);
        base64_char ((b mod 16) * 4); 61%N ]
  | x :: y :: z :: rest =>
      let a := Byte.to_N x in
      let b := Byte.to_N y in
      let c := Byte.to_N z in
      base64_char (a / 4) :: base64_char ((a mod 4) * 16 + b / 16)
      :: base64_char ((b mod 16) * 4 + c / 64) :: base64_char (c mod 64)
      :: base64 rest
  end.

(** [reader.result] after a successful [reader.readAsDataURL(file)]. *)
Definition readAsDataURL (file : File) : jsstring :=
  js "data:" ++ type file ++ js ";base64," ++ base64 (bytes file).

(* ================================================================== *)
(** ** Analysis and social service functions *)
(* ================================================================== *)

Definition analyzeImageRequest (base64Image : option jsstring)
    (prompt : jsstring) : ContentRequest :=
  {| contentModel := js "gemini-3-pro-preview";
     contents := ContentsParts
       [ {| text := None;
            inlineData := Some {| mimeType := Some (js "image/jpeg");
                                  data := base64Image |} |};
         {| text := Some prompt; inlineData := None |} ];
     config := noConfig |}.

Definition analyzeImage (base64Image : option jsstring) (prompt : jsstring)
  : Async World (option jsstring) :=
  response <- generateContent (analyzeImageRequest base64Image prompt) ;;
  ret (responseText response).

Definition analyzeVideoRequest (file : File) (base64Data : option jsstring)
    (prompt : jsstring) : ContentRequest :=
  {| contentModel := js "gemini-3-pro-preview";
     contents := ContentsParts
       [ {| text := None;
            inlineData := Some {| mimeType := Some (type file);
                                  data := base64Data |} |};
         {| text := Some prompt; inlineData := None |} ];
     config := noConfig |}.

(** [analyzeVideo], for a read that succeeds: the promise resolves with the
    response text or its fallback, and rejects with what the gateway call
    threw. *)
Definition analyzeVideo (file : File) (prompt : jsstring) : Async World jsstring :=
  let base64Data := at_index (split (cu ",") (readAsDataURL file)) 1 in
  response <- generateContent (analyzeVideoRequest file base64Data prompt) ;;
  ret (or_else (responseText response) (js "No analysis generated.")).

Definition socialCopyRequest (topic platform : jsstring) : ContentRequest :=
  {| contentModel := js "gemini-2.5-flash-lite";
     contents := ContentsText
       (js "Write a viral " ++ platform ++ js " post about " ++ dq ++ topic ++ dq
          ++ js ". Keep it punchy, use emojis, and include hashtags.");
     config := noConfig |}.

Definition generateFastSocialCopy (topic platform : jsstring)
  : Async World (option jsstring) :=
  response <- generateContent (socialCopyRequest topic platform) ;;
  ret (responseText response).

(* ================================================================== *)
(** ** Screens: shared session state *)
(* ================================================================== *)

(** What a screen's event handler runs against: the screen's own React
    state, the Campaign Store (the [campaign] slot of [App], [null] at
    start) and the world. *)
Record Session (UI : Type) :=
  { ui : UI; store : option JSValue; world : World }.

Definition liftW {UI A} (m : Async World A) : Async (Session UI) A :=
  fun s =>
    let (r, w') := m (world s) in
    (r, {| ui := ui s; store := store s; world := w' |}).

Definition updUI {UI} (f : UI -> UI) (s : Session UI) : Session UI :=
  {| ui := f (ui s); store := store s; world := world s |}.

Definition setUI {UI} (f : UI -> UI) : Async (Session UI) unit :=
  modify (updUI f).

(** [setCampaign] of [App]: replaces the stored campaign wholesale. *)
Definition setCampaign {UI} (campaign : JSValue) (s : Session UI) : Session UI :=
  {| ui := ui s; store := Some campaign; world := world s |}.

(** [alert(msg)] *)
Definition alert {UI} (msg : jsstring) : Async (Session UI) unit :=
  liftW (emit (EvAlert msg)).

(* ================================================================== *)
(** ** components/StrategyAgent *)
(* ================================================================== *)

Module StrategyAgent.

Inductive Mode := strategy | research.

Record State :=
  { brandName : jsstring;
    goals : jsstring;
    loading : bool;
    output : jsstring;
    mode : Mode;
    researchUrls : list WebChunk;
    extracting : bool }.

Definition setLoading (b : bool) (st : State) : State :=
  {| brandName := brandName st; goals := goals st; loading := b;
     output := output st; mode := mode st;
     researchUrls := researchUrls st; extracting := extracting st |}.

Definition setOutput (o : jsstring) (st : State) : State :=
  {| brandName := brandName st; goals := goals st; loading := loading st;
     output := o; mode := mode st;
     researchUrls := researchUrls st; extracting := extracting st |}.

Definition setResearchUrls (us : list WebChunk) (st : State) : State :=
  {| brandName := brandName st; goals := goals st; loading := loading st;
     output := output st; mode := mode st;
     researchUrls := us; extracting := extracting st |}.

Definition setExtracting (b : bool) (st : State) : State :=
  {| brandName := brandName st; goals := goals st; loading := loading st;
     output := output st; mode := mode st;
     researchUrls := researchUrls st; extracting := b |}.

Section Props.

Variable onActivateCampaign : JSValue -> Session State -> Session State.

(** The object literal [{ ...details, brandName }]. *)
Definition activation (details : JSValue) (brandName : jsstring) : JSValue :=
  JObject (spread details ++ [(js "brandName", JString brandName)]).

Definition handleRun : Async (Session State) unit :=
  fun s0 =>
    let brandName := brandName (ui s0) in
    let goals := goals (ui s0) in
    let mode := mode (ui s0) in
    if negb (truthy brandName) then (Returned tt, s0)
    else
      (setUI (setLoading true) ;;;
       setUI (setOutput []) ;;;
       setUI (setResearchUrls []) ;;;
       finally
         (try_catch
            (match mode with
             | strategy =>
                 result <- liftW (generateStrategy brandName goals) ;;
                 setUI (setOutput (or_else result (js "No strategy generated."))) ;;;
                 (* Auto-extract campaign details for the engine *)
                 setUI (setExtracting true) ;;;
                 finally
                   (try_catch
                      (details <- liftW (extractCampaignDetails result) ;;
                       modify (onActivateCampaign (activation details brandName)))
                      (fun e =>
                         liftW (emit (EvConsoleError
                                        (Some (js "Failed to extract campaign details")) e))))
                   (updUI (setExtracting false))
             | research =>
                 result <- liftW (researchTrends brandName) ;;
                 setUI (setOutput (or_else (trendText result) (js "No trends found."))) ;;;
                 setUI (setResearchUrls (urls result))
             end)
            (fun error => setUI (setOutput (js "Error: " ++ message error))))
         (updUI (setLoading false))) s0.

End Props.

End StrategyAgent.

(* ================================================================== *)
(** ** components/ImageStudio *)
(* ================================================================== *)

Module ImageStudio.

Inductive Tab := generate | remix | analyze.

(** The state the modelled handlers read or write (the optimise and
    analyse slots are left out). *)
Record State :=
  { activeTab : Tab;
    loading : bool;
    genPrompt : jsstring;
    aspectRatio : AspectRatio;
    imageSize : ImageSize;
    generatedImg : option jsstring;
    remixPrompt : jsstring;
    remixSource : option jsstring;
    remixedImg : option jsstring }.

Definition initial : State :=
  {| activeTab := generate; loading := false; genPrompt := [];
     aspectRatio := SQUARE; imageSize := K1; generatedImg := None;
     remixPrompt := []; remixSource := None; remixedImg := None |}.

Definition setLoading (b : bool) (st : State) : State :=
  {| activeTab := activeTab st; loading := b; genPrompt := genPrompt st;
     aspectRatio := aspectRatio st; imageSize := imageSize st;
     generatedImg := generatedImg st; remixPrompt := remixPrompt st;
     remixSource := remixSource st; remixedImg := remixedImg st |}.

Definition setGenPrompt (p : jsstring) (st : State) : State :=
  {| activeTab := activeTab st; loading := loading st; genPrompt := p;
     aspectRatio := aspectRatio st; imageSize := imageSize st;
     generatedImg := generatedImg st; remixPrompt := remixPrompt st;
     remixSource := remixSource st; remixedImg := remixedImg st |}.

Definition setGeneratedImg (i : option jsstring) (st : State) : State :=
  {| activeTab := activeTab st; loading := loading st; genPrompt := genPrompt st;
     aspectRatio := aspectRatio st; imageSize := imageSize st;
     generatedImg := i; remixPrompt := remixPrompt st;
     remixSource := remixSource st; remixedImg := remixedImg st |}.

Definition setRemixSource (src : jsstring) (st : State) : State :=
  {| activeTab := activeTab st; loading := loading st; genPrompt := genPrompt st;
     aspectRatio := aspectRatio st; imageSize := imageSize st;
     generatedImg := generatedImg st; remixPrompt := remixPrompt st;
     remixSource := Some src; remixedImg := remixedImg st |}.

Definition setRemixedImg (i : option jsstring) (st : State) : State :=
  {| activeTab := activeTab st; loading := loading st; genPrompt := genPrompt st;
     aspectRatio := aspectRatio st; imageSize := imageSize st;
     generatedImg := generatedImg st; remixPrompt := remixPrompt st;
     remixSource := remixSource st; remixedImg := i |}.

Definition is_generate (t : Tab) : bool :=
  match t with generate => true | _ => false end.

(** The body of the auto-fill effect; React runs it after mount and after
    every render in which [activeCampaign] or [activeTab] changed. *)
Definition autoFill (activeCampaign : option ActiveCampaign) (st : State) : State :=
  match activeCampaign with
  | Some c =>
      if is_generate (activeTab st) && negb (truthy (genPrompt st)) then
        setGenPrompt
          (js "Create a high-quality marketing image for " ++ brandName c
             ++ js ". " ++ visualStyle c) st
      else st
  | None => st
  end.

(** [handleFileChange(e, setSource)], for a read that succeeds:
    [files] is [e.target.files]. *)
Definition handleFileChange (files : option (list File))
    (setSource : jsstring -> State -> State) (st : State) : State :=
  match opt_bind files (fun fs => at_index fs 0) with
  | Some file => setSource (readAsDataURL file) st
  | None => st
  end.

Definition handleGenerate : Async (Session State) unit :=
  fun s0 =>
    let genPrompt := genPrompt (ui s0) in
    let aspectRatio := aspectRatio (ui s0) in
    let imageSize := imageSize (ui s0) in
    (setUI (setLoading true) ;;;
     setUI (setGeneratedImg None) ;;;
     finally
       (try_catch
          (result <- liftW (generateProImage genPrompt aspectRatio imageSize) ;;
           setUI (setGeneratedImg (Some result)))
          (fun e => alert (message e)))
       (updUI (setLoading false))) s0.

Definition handleRemix : Async (Session State) unit :=
  fun s0 =>
    let remixPrompt := remixPrompt (ui s0) in
    match remixSource (ui s0) with
    | None => (Returned tt, s0)
    | Some remixSource =>
        if negb (truthy remixSource) then (Returned tt, s0)
        else
          (setUI (setLoading true) ;;;
           setUI (setRemixedImg None) ;;;
           finally
             (try_catch
                (let base64Data := at_index (split (cu ",") remixSource) 1 in
                 (* Instructions for product placement *)
                 result <- liftW (editImageWithFlash base64Data remixPrompt) ;;
                 setUI (setRemixedImg (Some result)))
                (fun e => alert (message e)))
             (updUI (setLoading false))) s0
    end.

(** The analyse slots of the component state. *)
Record Analysis :=
  { analyzeSource : option jsstring;
    analyzePrompt : jsstring;
    analysisResult : jsstring }.

Definition setAnalyzeSource (src : jsstring) (a : Analysis) : Analysis :=
  {| analyzeSource := Some src; analyzePrompt := analyzePrompt a;
     analysisResult := analysisResult a |}.

Definition setAnalysisResult (r : jsstring) (a : Analysis) : Analysis :=
  {| analyzeSource := analyzeSource a; analyzePrompt := analyzePrompt a;
     analysisResult := r |}.

(** A setter of [State], resp. of [Analysis], on the whole component state. *)
Definition onState (f : State -> State) (p : State * Analysis) : State * Analysis :=
  (f (fst p), snd p).

Definition onAnalysis (f : Analysis -> Analysis) (p : State * Analysis)
  : State * Analysis :=
  (fst p, f (snd p)).

Definition handleAnalyze : Async (Session (State * Analysis)) unit :=
  fun s0 =>
    let analyzePrompt := analyzePrompt (snd (ui s0)) in
    match analyzeSource (snd (ui s0)) with
    | None => (Returned tt, s0)
    | Some analyzeSource =>
        if negb (truthy analyzeSource) then (Returned tt, s0)
        else
          (setUI (onState (setLoading true)) ;;;
           setUI (onAnalysis (setAnalysisResult [])) ;;;
           finally
             (try_catch
                (let base64Data := at_index (split (cu ",") analyzeSource) 1 in
                 result <- liftW (analyzeImage base64Data
                                    (or_else (Some analyzePrompt)
                                       (js "Describe this image in detail."))) ;;
                 setUI (onAnalysis
                          (setAnalysisResult
                             (or_else result (js "No analysis returned.")))))
                (fun e => alert (message e)))
             (updUI (onState (setLoading false)))) s0
    end.

End ImageStudio.

(* ================================================================== *)
(** ** components/VideoLab *)
(* ================================================================== *)

Module VideoLab.

Inductive Tab := text_to_video | image_to_video | analyze.

Record State :=
  { activeTab : Tab;
    loading : bool;
    status : jsstring;
    prompt : jsstring;
    aspectRatio : VideoAspect;
    sourceImage : option jsstring;
    videoResult : option jsstring }.

Definition initial : State :=
  {| activeTab := text_to_video; loading := false; status := [];
     prompt := []; aspectRatio := Ratio16_9; sourceImage := None;
     videoResult := None |}.

Definition setLoading (b : bool) (st : State) : State :=
  {| activeTab := activeTab st; loading := b; status := status st;
     prompt := prompt st; aspectRatio := aspectRatio st;
     sourceImage := sourceImage st; videoResult := videoResult st |}.

Definition setStatus (m : jsstring) (st : State) : State :=
  {| activeTab := activeTab st; loading := loading st; status := m;
     prompt := prompt st; aspectRatio := aspectRatio st;
     sourceImage := sourceImage st; videoResult := videoResult st |}.

Definition setPrompt (p : jsstring) (st : State) : State :=
  {| activeTab := activeTab st; loading := loading st; status := status st;
     prompt := p; aspectRatio := aspectRatio st;
     sourceImage := sourceImage st; videoResult := videoResult st |}.

Definition setSourceImage (src : jsstring) (st : State) : State :=
  {| activeTab := activeTab st; loading := loading st; status := status st;
     prompt := prompt st; aspectRatio := aspectRatio st;
     sourceImage := Some src; videoResult := videoResult st |}.

Definition setVideoResult (r : option jsstring) (st : State) : State :=
  {| activeTab := activeTab st; loading := loading st; status := status st;
     prompt := prompt st; aspectRatio := aspectRatio st;
     sourceImage := sourceImage st; videoResult := r |}.

(** The body of the auto-fill effect; React runs it after mount and after
    every render in which [activeCampaign] changed. *)
Definition autoFill (activeCampaign : option ActiveCampaign) (st : State) : State :=
  match activeCampaign with
  | Some c => if negb (truthy (prompt st)) then setPrompt (videoConcept c) st else st
  | None => st
  end.

Definition handleImageUpload (files : option (list File)) (st : State) : State :=
  match opt_bind files (fun fs => at_index fs 0) with
  | Some file => setSourceImage (readAsDataURL file) st
  | None => st
  end.

(** [fuel] is handed to the poll loop of the service function. *)
Definition handleGenerate (fuel : nat) : Async (Session State) unit :=
  fun s0 =>
    let activeTab := activeTab (ui s0) in
    let prompt := prompt (ui s0) in
    let aspectRatio := aspectRatio (ui s0) in
    let sourceImage := sourceImage (ui s0) in
    (setUI (setLoading true) ;;;
     setUI (setVideoResult None) ;;;
     setUI (setStatus (js "Initializing Veo...")) ;;;
     finally
       (try_catch
          (url <-
             match activeTab with
             | text_to_video =>
                 setUI (setStatus (js "Generating video from text (this may take a minute)...")) ;;;
                 liftW (generateVideoFromPrompt fuel prompt aspectRatio)
             | _ =>
                 match sourceImage with
                 | None => throw (Error (js "Image required"))
                 | Some sourceImage =>
                     if negb (truthy sourceImage)
                     then throw (Error (js "Image required"))
                     else
                       let base64 := at_index (split (cu ",") sourceImage) 1 in
                       setUI (setStatus (js "Animating image with Veo (this may take a minute)...")) ;;;
                       liftW (animateImageWithVeo fuel base64 (Some prompt) aspectRatio)
                 end
             end ;;
           setUI (setVideoResult (Some url)))
          (fun e => alert (message e)))
       (fun s => updUI (setStatus []) (updUI (setLoading false) s))) s0.

(** The analyse slots of the component state. *)
Record Analysis :=
  { videoFile : option File;
    analysisPrompt : jsstring;
    analysisResult : jsstring }.

Definition setVideoFile (f : File) (a : Analysis) : Analysis :=
  {| videoFile := Some f; analysisPrompt := analysisPrompt a;
     analysisResult := analysisResult a |}.

Definition setAnalysisResult (r : jsstring) (a : Analysis) : Analysis :=
  {| videoFile := videoFile a; analysisPrompt := analysisPrompt a;
     analysisResult := r |}.

Definition onState (f : State -> State) (p : State * Analysis) : State * Analysis :=
  (f (fst p), snd p).

Definition onAnalysis (f : Analysis -> Analysis) (p : State * Analysis)
  : State * Analysis :=
  (fst p, f (snd p)).

Definition handleVideoUpload (files : option (list File)) (a : Analysis) : Analysis :=
  match opt_bind files (fun fs => at_index fs 0) with
  | Some file => setVideoFile file a
  | None => a
  end.

Definition handleAnalyze : Async (Session (State * Analysis)) unit :=
  fun s0 =>
    let analysisPrompt := analysisPrompt (snd (ui s0)) in
    match videoFile (snd (ui s0)) with
    | None => (Returned tt, s0)
    | Some videoFile =>
        (setUI (onState (setLoading true)) ;;;
         setUI (onState (setStatus (js "Analyzing video frames..."))) ;;;
         finally
           (try_catch
              (text <- liftW (analyzeVideo videoFile
                                (or_else (Some analysisPrompt)
                                   (js "Summarize this video."))) ;;
               setUI (onAnalysis (setAnalysisResult text)))
              (fun e =>
                 alert (js "Analysis failed. Video might be too large for this demo. "
                          ++ message e)))
           (fun s => updUI (onState (setStatus []))
                       (updUI (onState (setLoading false)) s))) s0
    end.

End VideoLab.

(* ================================================================== *)
(** ** components/SocialSpeed *)
(* ================================================================== *)

Module SocialSpeed.

Record State :=
  { topic : jsstring;
    platform : jsstring;
    loading : bool;
    output : jsstring }.

Definition initial : State :=
  {| topic := []; platform := js "Twitter/X"; loading := false; output := [] |}.

Definition setTopic (t : jsstring) (st : State) : State :=
  {| topic := t; platform := platform st; loading := loading st;
     output := output st |}.

Definition setLoading (b : bool) (st : State) : State :=
  {| topic := topic st; platform := platform st; loading := b;
     output := output st |}.

Definition setOutput (o : jsstring) (st : State) : State :=
  {| topic := topic st; platform := platform st; loading := loading st;
     output := o |}.

(** The text appended to a generated post; [9889] is the code unit of the
    high-voltage sign.  [time] is the string
    [((end - start) / 1000).toFixed(2)]. *)
Definition footer (time : jsstring) : jsstring :=
  nl ++ nl ++ js "---" ++ nl ++ [9889%N] ++ js " Generated in " ++ time
    ++ js "s using Flash Lite".

(** [handleGenerate(t)]; the two clock readings enter through [time], the
    elapsed seconds as [toFixed(2)] prints them. *)
Definition handleGenerate (time : jsstring) (t : jsstring)
  : Async (Session State) unit :=
  fun s0 =>
    let platform := platform (ui s0) in
    if negb (truthy t) then (Returned tt, s0)
    else
      (setUI (setLoading true) ;;;
       finally
         (try_catch
            (text <- liftW (generateFastSocialCopy t platform) ;;
             setUI (setOutput (tpl text ++ footer time)))
            (fun e => setUI (setOutput (js "Error: " ++ message e))))
         (updUI (setLoading false))) s0.

(** Click on a campaign hook: [setTopic(hook); handleGenerate(hook)]. *)
Definition clickHook (time : jsstring) (hook : jsstring)
  : Async (Session State) unit :=
  setUI (setTopic hook) ;;;
  handleGenerate time hook.

(** What a click on the output copies: [output.split('---')[0]]. *)
Definition copied (output : jsstring) : jsstring :=
  first_segment (js "---") output.

End SocialSpeed.

(* ================================================================== *)
(** ** Vocabulary of the statements *)
(* ================================================================== *)

Unset Implicit Arguments.

(** An operation status whose [done] flag is false. *)
Definition pending (op : Operation) : Prop := done op = false.

(** The next replies of the video endpoints are the given statuses, in
    order: the first answers the submission, the others the re-queries. *)
Definition scripted (w : World) (statuses : list Operation) : Prop :=
  forall i op, nth_error statuses i = Some op ->
               video_replies w (video_calls w + i) = VideoOp op.

(** What the loop does for the statuses it found pending: for each, one
    5000 ms wait followed by one re-query carrying that status. *)
Definition poll_events (polled : list Operation) : list Event :=
  flat_map (fun op => [EvSetTimeout 5000; EvGetVideosOperation op]) polled.

(** The host calls of [ensurePaidApiKey]. *)
Definition ensure_events (w : World) : list Event :=
  match aistudio w with
  | Some true => [EvHasSelectedApiKey]
  | Some false => [EvHasSelectedApiKey; EvOpenSelectKey]
  | None => []
  end.

(** Everything a video run does when it polls the statuses [polled]. *)
Definition job_events (w : World) (req : VideoRequest) (polled : list Operation) :=
  ensure_events w ++ [EvGenerateVideos req] ++ poll_events polled.

(** Number of status re-queries among some events. *)
Fixpoint requeries (evs : list Event) : nat :=
  match evs with
  | [] => 0
  | EvGetVideosOperation _ :: r => S (requeries r)
  | _ :: r => requeries r
  end.

(** The world after [n] more video calls that left the events [evs]. *)
Definition after_video (w : World) (n : nat) (evs : list Event) : World :=
  {| aistudio := aistudio w; API_KEY := API_KEY w;
     content_replies := content_replies w; content_calls := content_calls w;
     video_replies := video_replies w; video_calls := video_calls w + n;
     trace := trace w ++ evs |}.

(** The common shape of [generateVideoFromPrompt] and [animateImageWithVeo],
    which differ in the request and in the failure message only (lemmas
    [generateVideoFromPrompt_job] and [animateImageWithVeo_job]). *)
Definition videoJob (req : VideoRequest) (failure : jsstring) (fuel : nat)
  : Async World jsstring :=
  ensurePaidApiKey ;;;
  operation <- generateVideos req ;;
  operation <- poll fuel operation ;;
  deliver failure operation.

(** The test [!downloadLink] of the source, negated: the first generated
    video of the operation has a [uri] that is a non-empty string. *)
Definition hasDownloadLink (op : Operation) : bool := truthy_opt (downloadLink op).

(** An operation carries the media URI [u]: its response lists generated
    videos, and the first of them has a video whose [uri] is the non-empty
    string [u].  This is stated on the data of the operation, not through
    the extraction [downloadLink] of the source. *)
Inductive CarriesMediaUri : Operation -> jsstring -> Prop :=
| carries_media_uri (d : bool) (others : list GeneratedVideo)
      (c : code_unit) (u : jsstring) :
    CarriesMediaUri
      {| done := d;
         response :=
           Some {| generatedVideos :=
                     Some ({| video := Some {| uri := Some (c :: u) |} |}
                           :: others) |} |}
      (c :: u).

(** First argument of the [console.error] call of [handleRun]. *)
Definition extractionLabel : jsstring := js "Failed to extract campaign details".

(** What the strategy screen shows for a strategy text. *)
Definition strategyOutput (result : option jsstring) : jsstring :=
  or_else result (js "No strategy generated.").

(** The screen state once a strategy run is over, written as the sequence
    of setter calls the handler made. *)
Definition settledUI (result : option jsstring) (st : StrategyAgent.State)
  : StrategyAgent.State :=
  StrategyAgent.setLoading false
    (StrategyAgent.setExtracting false
       (StrategyAgent.setExtracting true
          (StrategyAgent.setOutput (strategyOutput result)
             (StrategyAgent.setResearchUrls []
                (StrategyAgent.setOutput [] (StrategyAgent.setLoading true st)))))).

(** The messages shown to the user through [alert]. *)
Fixpoint alerts (evs : list Event) : list jsstring :=
  match evs with
  | [] => []
  | EvAlert m :: r => m :: alerts r
  | _ :: r => alerts r
  end.

(** The four-field shape the extraction request asks for: an object with
    string fields [visualStyle], [videoConcept], [targetAudience] and an
    array of strings [socialHooks]. *)
Definition hasRequestedShape (v : JSValue) : bool :=
  match asString (prop (js "visualStyle") v),
        asString (prop (js "videoConcept") v),
        asStringArray (prop (js "socialHooks") v),
        asString (prop (js "targetAudience") v) with
  | Some _, Some _, Some _, Some _ => true
  | _, _, _, _ => false
  end.

(** The payloads on which the specification expects a parse error: not
    valid JSON, or valid JSON of another shape. *)
Definition parseErrorExpected (payload : option jsstring) : bool :=
  match JSON_parse (tpl payload) with
  | None => true
  | Some v => negb (hasRequestedShape v)
  end.

(** The field names an object schema asks for. *)
Definition schemaFields (sch : Schema) : list jsstring :=
  match sch with
  | TypeOBJECT props => map fst props
  | _ => []
  end.

Definition comma : code_unit := cu ",".

(** The strategy screen once a run failed with [e] before any result. *)
Definition failedUI (e : Exn) (st : StrategyAgent.State) : StrategyAgent.State :=
  StrategyAgent.setLoading false
    (StrategyAgent.setOutput (js "Error: " ++ message e)
       (StrategyAgent.setResearchUrls []
          (StrategyAgent.setOutput [] (StrategyAgent.setLoading true st)))).

(** The strategy screen once a research run delivered [report]. *)
Definition researchedUI (report : TrendReport) (st : StrategyAgent.State)
  : StrategyAgent.State :=
  StrategyAgent.setLoading false
    (StrategyAgent.setResearchUrls (urls report)
       (StrategyAgent.setOutput (or_else (trendText report) (js "No trends found."))
          (StrategyAgent.setResearchUrls []
             (StrategyAgent.setOutput [] (StrategyAgent.setLoading true st))))).

(** The session with another content of the Campaign Store. *)
Definition withStore {UI} (campaign : option JSValue) (s : Session UI) : Session UI :=
  {| ui := ui s; store := campaign; world := world s |}.

(** The request [generateStrategy] issues. *)
Definition strategyRequest (brandName goals : jsstring) : ContentRequest :=
  {| contentModel := js "gemini-3-pro-preview";
     contents := ContentsText (strategyPrompt brandName goals);
     config := {| thinkingBudget := Some 32768%N;
                  responseMimeType := None; responseSchema := None;
                  googleSearch := false; systemInstruction := None;
                  imageConfig := None |} |}.

(** The next replies of the video endpoints are the given statuses, in
    order, and the call after them fails with the message [m]. *)
Definition scripted_failure (w : World) (statuses : list Operation) (m : jsstring)
  : Prop :=
  scripted w statuses
  /\ video_replies w (video_calls w + length statuses) = VideoFail m.

(** Status line of the video screen during a text-to-video run. *)
Definition generatingStatus : jsstring :=
  js "Generating video from text (this may take a minute)...".

(** The video screen while a text-to-video run is under way. *)
Definition textStartedUI (st : VideoLab.State) : VideoLab.State :=
  VideoLab.setStatus generatingStatus
    (VideoLab.setStatus (js "Initializing Veo...")
       (VideoLab.setVideoResult None (VideoLab.setLoading true st))).

(** The [finally] block of the video handlers. *)
Definition idleUI (st : VideoLab.State) : VideoLab.State :=
  VideoLab.setStatus [] (VideoLab.setLoading false st).


(** [sep] occurs somewhere in [s]. *)
Fixpoint occurs (sep s : jsstring) : bool :=
  starts_with sep s
  || match s with
     | [] => false
     | _ :: r => occurs sep r
     end.

(** The separator the copy handler splits at. *)
Definition dashes : jsstring := js "---".

(* ================================================================== *)
(** ** Scripted gateways and sample data *)
(* ================================================================== *)

Definition pendingOp : Operation := {| done := false; response := None |}.

Definition doneOp (u : option jsstring) : Operation :=
  {| done := true;
     response := Some {| generatedVideos :=
                           Some [ {| video := Some {| uri := u |} |} ] |} |}.

Definition script (statuses : list Operation) : nat -> VideoReply :=
  fun i => match nth_error statuses i with
           | Some op => VideoOp op
           | None => VideoFail (js "unexpected call")
           end.

Definition mockWorld (replies : nat -> VideoReply) : World :=
  {| aistudio := Some true; API_KEY := Some (js "SECRET");
     content_replies := fun _ => ContentFail (js "unexpected call");
     content_calls := 0;
     video_replies := replies; video_calls := 0; trace := [] |}.

Definition mockUri : jsstring := js "https://gateway.example/files/v1:download?alt=media".

(** Completed operations without a media URI: no response at all, no
    generated video, a generated video without a video. *)
Definition doneEmpty : Operation := {| done := true; response := None |}.

Definition doneNoVideos : Operation :=
  {| done := true; response := Some {| generatedVideos := Some [] |} |}.

Definition doneNoVideo : Operation :=
  {| done := true;
     response := Some {| generatedVideos := Some [ {| video := None |} ] |} |}.

Definition textReply (t : jsstring) : ContentReply :=
  ContentOk {| responseText := Some t; candidates := None |}.

Definition contentScript (replies : list ContentReply) : nat -> ContentReply :=
  fun i => nth i replies (ContentFail (js "unexpected call")).

Definition strategyWorld (replies : list ContentReply) : World :=
  {| aistudio := None; API_KEY := Some (js "SECRET");
     content_replies := contentScript replies; content_calls := 0;
     video_replies := fun _ => VideoFail (js "unexpected call");
     video_calls := 0; trace := [] |}.

Definition acme : StrategyAgent.State :=
  {| StrategyAgent.brandName := js "Acme";
     StrategyAgent.goals := js "double the newsletter audience";
     StrategyAgent.loading := false;
     StrategyAgent.output := [];
     StrategyAgent.mode := StrategyAgent.strategy;
     StrategyAgent.researchUrls := [];
     StrategyAgent.extracting := false |}.

Definition earlierCampaign : JSValue :=
  JObject [ (js "visualStyle", JString (js "pastel"));
            (js "brandName", JString (js "Acme")) ].

Definition acmeSession (replies : list ContentReply)
  : Session StrategyAgent.State :=
  {| ui := acme; store := Some earlierCampaign; world := strategyWorld replies |}.

Definition quoted (s : string) : jsstring := dq ++ js s ++ dq.

Definition samplePayload : jsstring :=
  js "{ " ++ quoted "visualStyle" ++ js ": " ++ quoted "neon noir, rain-slick streets" ++ js ", "
  ++ quoted "videoConcept" ++ js ": " ++ quoted "Drone shot of a rooftop garden" ++ js ", "
  ++ quoted "socialHooks" ++ js ": [" ++ quoted "Grow up" ++ js ", " ++ quoted "Roof to table" ++ js ", " ++ quoted "City, greener" ++ js "], "
  ++ quoted "targetAudience" ++ js ": " ++ quoted "Urban renters who cook" ++ js " }".

Definition rooftop : ActiveCampaign :=
  {| brandName := js "Acme";
     visualStyle := js "neon noir, rain-slick streets";
     videoConcept := js "Drone shot of a rooftop garden";
     socialHooks := [js "Grow up"];
     targetAudience := js "Urban renters who cook" |}.

Definition harbour : ActiveCampaign :=
  {| brandName := js "Acme";
     visualStyle := js "sun-bleached film stock";
     videoConcept := js "Slow pan across a harbour at dawn";
     socialHooks := [];
     targetAudience := js "Weekend sailors" |}.

Definition partsReply (ps : list Part) : ContentReply :=
  ContentOk {| responseText := None;
               candidates := Some [ {| content := Some {| parts := Some ps |};
                                       groundingMetadata := None |} ] |}.

Definition textPart (t : jsstring) : Part := {| text := Some t; inlineData := None |}.

Definition pngPart (d : jsstring) : Part :=
  {| text := None;
     inlineData := Some {| mimeType := Some (js "image/png"); data := Some d |} |}.

Definition imageWorld (reply : ContentReply) : World :=
  {| aistudio := Some false; API_KEY := Some (js "SECRET");
     content_replies := fun _ => reply; content_calls := 0;
     video_replies := fun _ => VideoFail (js "unexpected call");
     video_calls := 0; trace := [] |}.

Definition pixel : File :=
  {| type := js "image/png";
     bytes := [Byte.x89; Byte.x50; Byte.x4e; Byte.x47; Byte.x0d; Byte.x0a; Byte.x1a] |}.

Definition remixSession : Session ImageStudio.State :=
  {| ui := ImageStudio.initial; store := None;
     world := {| aistudio := None; API_KEY := Some (js "SECRET");
                 content_replies := fun _ => ContentFail (js "unexpected call");
                 content_calls := 0;
                 video_replies := fun _ => VideoFail (js "unexpected call");
                 video_calls := 0; trace := [] |} |}.

Definition impostor : JSValue :=
  JObject [ (js "brandName", JString (js "Rival"));
            (js "visualStyle", JString (js "pastel")) ].

Definition failingScript (statuses : list Operation) (m : jsstring)
  : nat -> VideoReply :=
  fun i => match nth_error statuses i with
           | Some op => VideoOp op
           | None => VideoFail m
           end.

Definition researcher : StrategyAgent.State :=
  {| StrategyAgent.brandName := js "rooftop gardening";
     StrategyAgent.goals := [];
     StrategyAgent.loading := false;
     StrategyAgent.output := js "old report";
     StrategyAgent.mode := StrategyAgent.research;
     StrategyAgent.researchUrls := [];
     StrategyAgent.extracting := false |}.

Definition gardenLink : WebChunk :=
  {| title := Some (js "Ten balcony crops"); webUri := Some (js "https://news.example/crops") |}.

Definition groundedResponse : GenerateContentResponse :=
  {| responseText := Some (js "Rooftop plots are trending.");
     candidates :=
       Some [ {| content := None;
                 groundingMetadata :=
                   Some {| groundingChunks :=
                             Some [ {| web := None |};
                                    {| web := Some gardenLink |} ] |} |} ] |}.

Definition researchSession (reply : ContentReply) : Session StrategyAgent.State :=
  {| ui := researcher; store := Some earlierCampaign;
     world := strategyWorld [reply] |}.

Definition videoSession (st : VideoLab.State) (replies : nat -> VideoReply)
  : Session VideoLab.State :=
  {| ui := st; store := None; world := mockWorld replies |}.

Definition droneTab : VideoLab.State :=
  VideoLab.setPrompt (js "Drone shot of a rooftop garden") VideoLab.initial.

Definition animateTab : VideoLab.State :=
  {| VideoLab.activeTab := VideoLab.image_to_video;
     VideoLab.loading := false; VideoLab.status := [];
     VideoLab.prompt := []; VideoLab.aspectRatio := Ratio9_16;
     VideoLab.sourceImage := None; VideoLab.videoResult := None |}.

Definition socialSession (reply : ContentReply) : Session SocialSpeed.State :=
  {| ui := SocialSpeed.setTopic (js "typed topic") SocialSpeed.initial;
     store := None; world := strategyWorld [reply] |}.

Definition imageSession (st : ImageStudio.State) (reply : ContentReply)
  : Session ImageStudio.State :=
  {| ui := st; store := None; world := imageWorld reply |}.

Definition analysisSession {A} (st : A) (reply : ContentReply) : Session A :=
  {| ui := st; store := None; world := strategyWorld [reply] |}.

(* ================================================================== *)
(** ** The video job: poll loop and delivery *)
(* ================================================================== *)

Lemma after_video_0 w : after_video w 0 [] = w.
Proof. destruct w; unfold after_video; simpl. rewrite Nat.add_0_r, app_nil_r. reflexivity. Qed.

Lemma after_video_compose w n m e1 e2 :
  after_video (after_video w n e1) m e2 = after_video w (n + m) (e1 ++ e2).
Proof. unfold after_video; simpl. rewrite Nat.add_assoc, app_assoc. reflexivity. Qed.

Lemma poll_done fuel op w : done op = true -> poll fuel op w = (Returned op, w).
Proof. intros H. destruct fuel; simpl; rewrite H; reflexivity. Qed.

Lemma poll_step fuel op op' w :
  done op = false ->
  video_replies w (video_calls w) = VideoOp op' ->
  poll (S fuel) op w =
  poll fuel op' (after_video w 1 [EvSetTimeout 5000; EvGetVideosOperation op]).
Proof.
  intros Hd Hr. simpl. rewrite Hd.
  unfold bind, sleep, emit, modify, getVideosOperation. simpl. rewrite Hr.
  f_equal. unfold after_video, next_video, log. simpl.
  rewrite Nat.add_1_r, <- app_assoc. reflexivity.
Qed.

Lemma poll_settles polled : forall cur fin w fuel,
  Forall pending polled -> done fin = true ->
  hd_error (polled ++ [fin]) = Some cur ->
  scripted w (tl (polled ++ [fin])) ->
  length polled <= fuel ->
  poll fuel cur w =
  (Returned fin, after_video w (length polled) (poll_events polled)).
Proof.
  induction polled as [|p polled IH]; intros cur fin w fuel Hp Hf Hh Hs Hl.
  - simpl in *. injection Hh as <-. rewrite after_video_0. now apply poll_done.
  - simpl in Hh. injection Hh as <-. inversion Hp as [|? ? Hp1 Hp2]; subst.
    destruct fuel as [|fuel]; [simpl in Hl; lia|].
    simpl in Hs.
    destruct (polled ++ [fin]) as [|nxt rest] eqn:E.
    { destruct polled; discriminate. }
    rewrite (poll_step fuel p nxt w); auto.
    2:{ specialize (Hs 0 nxt eq_refl). now rewrite Nat.add_0_r in Hs. }
    rewrite (IH nxt fin); auto.
    + rewrite after_video_compose. reflexivity.
    + rewrite E. reflexivity.
    + rewrite E. simpl. intros i op Hi. simpl.
      specialize (Hs (S i) op Hi). now rewrite <- Nat.add_assoc.
    + simpl in Hl. lia.
Qed.

Lemma generateVideoFromPrompt_job fuel prompt ar :
  generateVideoFromPrompt fuel prompt ar =
  videoJob (textToVideoRequest prompt ar) (js "Video generation failed") fuel.
Proof. reflexivity. Qed.

Lemma animateImageWithVeo_job fuel img prompt ar :
  animateImageWithVeo fuel img prompt ar =
  videoJob (imageToVideoRequest img prompt ar) (js "Video animation failed") fuel.
Proof. reflexivity. Qed.

Lemma ensurePaidApiKey_run w :
  ensurePaidApiKey w = (Returned true, after_video w 0 (ensure_events w)).
Proof.
  unfold ensurePaidApiKey, ensure_events, after_video, log.
  destruct w as [a k cr cc vr vc tr]; simpl.
  destruct a as [[|]|]; simpl; rewrite ?Nat.add_0_r, ?app_nil_r, <- ?app_assoc;
    reflexivity.
Qed.

Lemma generateVideos_run req op w :
  video_replies w (video_calls w) = VideoOp op ->
  generateVideos req w = (Returned op, after_video w 1 [EvGenerateVideos req]).
Proof.
  intros H. unfold generateVideos. rewrite H.
  unfold after_video, next_video, log; simpl. now rewrite Nat.add_1_r.
Qed.

Lemma poll_pending fuel : forall sts w,
  (forall i, done (sts i) = false) ->
  (forall i, video_replies w (video_calls w + i) = VideoOp (sts (S i))) ->
  poll fuel (sts 0) w =
  (Pending, after_video w fuel (poll_events (map sts (seq 0 fuel)))).
Proof.
  induction fuel as [|fuel IH]; intros sts w Hd Hr.
  - simpl. rewrite Hd, after_video_0. reflexivity.
  - rewrite (poll_step fuel (sts 0) (sts 1) w); auto.
    2:{ specialize (Hr 0). now rewrite Nat.add_0_r in Hr. }
    rewrite (IH (fun i => sts (S i))); auto.
    + rewrite after_video_compose. simpl. rewrite <- seq_shift, map_map. reflexivity.
    + intros i. simpl. rewrite <- Nat.add_assoc. apply (Hr (S i)).
Qed.

Lemma deliver_world failure op w : snd (deliver failure op w) = w.
Proof. unfold deliver. destruct (negb _); reflexivity. Qed.

Lemma videoJob_settles req failure w polled fin fuel :
  scripted w (polled ++ [fin]) -> Forall pending polled -> done fin = true ->
  length polled <= fuel ->
  videoJob req failure fuel w =
  deliver failure fin (after_video w (S (length polled)) (job_events w req polled)).
Proof.
  intros Hs Hp Hf Hl. unfold videoJob, bind.
  rewrite ensurePaidApiKey_run.
  destruct (polled ++ [fin]) as [|cur rest] eqn:E.
  { destruct polled; discriminate. }
  rewrite (generateVideos_run req cur).
  2:{ simpl. specialize (Hs 0 cur eq_refl). now rewrite !Nat.add_0_r in *. }
  rewrite after_video_compose.
  rewrite (poll_settles polled cur fin); auto.
  - rewrite after_video_compose. unfold job_events.
    now rewrite <- app_assoc.
  - now rewrite E.
  - rewrite E. intros i op Hi. simpl.
    rewrite <- (Hs (S i) op Hi). f_equal. lia.
Qed.

Lemma videoJob_pending req failure w sts fuel :
  (forall i, video_replies w (video_calls w + i) = VideoOp (sts i)) ->
  (forall i, done (sts i) = false) ->
  videoJob req failure fuel w =
  (Pending, after_video w (S fuel) (job_events w req (map sts (seq 0 fuel)))).
Proof.
  intros Hr Hd. unfold videoJob, bind.
  rewrite ensurePaidApiKey_run.
  rewrite (generateVideos_run req (sts 0)).
  2:{ simpl. specialize (Hr 0). now rewrite !Nat.add_0_r in *. }
  rewrite after_video_compose.
  rewrite (poll_pending fuel sts); auto.
  - rewrite after_video_compose. unfold job_events. now rewrite <- app_assoc.
  - intros i. simpl. rewrite <- (Hr (S i)). f_equal. lia.
Qed.

Lemma requeries_app a b : requeries (a ++ b) = requeries a + requeries b.
Proof.
  induction a as [|e a IH]; simpl; auto. destruct e; simpl; rewrite ?IH; auto.
Qed.

Lemma requeries_poll_events polled : requeries (poll_events polled) = length polled.
Proof. induction polled; simpl; auto. Qed.

Lemma requeries_job_events w req polled :
  requeries (job_events w req polled) = length polled.
Proof.
  unfold job_events. rewrite !requeries_app, requeries_poll_events.
  unfold ensure_events. destruct (aistudio w) as [[|]|]; reflexivity.
Qed.

Lemma scripted_script sts : scripted (mockWorld (script sts)) sts.
Proof. intros i op H. simpl. unfold script. now rewrite H. Qed.

(** A settled loop settles the same way under any larger bound. *)
Lemma poll_fuel_mono fuel : forall op w r w' fuel',
  poll fuel op w = (r, w') -> r <> Pending -> fuel <= fuel' ->
  poll fuel' op w = (r, w').
Proof.
  induction fuel as [|fuel IH]; intros op w r w' fuel' H Hr Hle.
  - simpl in H. destruct (done op) eqn:D.
    + rewrite poll_done; auto.
    + injection H as <- <-. congruence.
  - destruct fuel' as [|fuel']; [lia|].
    simpl in *. destruct (done op); auto.
    unfold bind in *.
    destruct (sleep 5000 w) as [[[]|e|] w1]; auto.
    destruct (getVideosOperation op w1) as [[op'|e|] w2]; auto.
    apply IH; auto. lia.
Qed.

Section VideoRuns.

Variables (w : World) (polled : list Operation) (fin : Operation) (fuel : nat).
Hypothesis Hscript : scripted w (polled ++ [fin]).
Hypothesis Hpending : Forall pending polled.
Hypothesis Hdone : done fin = true.
Hypothesis Hfuel : length polled <= fuel.

Lemma videoJob_trace req failure :
  trace (snd (videoJob req failure fuel w)) = trace w ++ job_events w req polled.
Proof.
  rewrite (videoJob_settles req failure w polled fin fuel); auto.
  now rewrite deliver_world.
Qed.

Lemma videoJob_requeries req failure :
  requeries (trace (snd (videoJob req failure fuel w))) =
  requeries (trace w) + length polled.
Proof. now rewrite videoJob_trace, requeries_app, requeries_job_events. Qed.

Lemma videoJob_outcome req failure :
  fst (videoJob req failure fuel w) =
  if hasDownloadLink fin
  then Returned (tpl (downloadLink fin) ++ js "&key=" ++ tpl (API_KEY w))
  else Thrown (Error failure).
Proof.
  rewrite (videoJob_settles req failure w polled fin fuel); auto.
  unfold deliver, hasDownloadLink. destruct (truthy_opt (downloadLink fin)); reflexivity.
Qed.

End VideoRuns.

(** C1.  Job Poller, both video functions: when the gateway answers the
    submission and the re-queries with the statuses [polled ++ [fin]], the
    statuses of [polled] not done and [fin] done, the run settles and has
    done, after the submission, exactly one 5000 ms wait followed by one
    re-query for each status of [polled], and nothing else; so the number
    of re-queries is the number of not-done statuses (two for done:false,
    done:false, done:true; zero when the submission is already done). *)
Theorem poller_requeries_every_5000ms_until_done :
  forall (w : World) (polled : list Operation) (fin : Operation) (fuel : nat),
    scripted w (polled ++ [fin]) ->
    Forall pending polled ->
    done fin = true ->
    length polled <= fuel ->
    (forall prompt ar,
        let run := generateVideoFromPrompt fuel prompt ar w in
        fst run <> Pending
        /\ trace (snd run) =
           trace w ++ job_events w (textToVideoRequest prompt ar) polled
        /\ requeries (trace (snd run)) = requeries (trace w) + length polled)
    /\ (forall img prompt ar,
        let run := animateImageWithVeo fuel img prompt ar w in
        fst run <> Pending
        /\ trace (snd run) =
           trace w ++ job_events w (imageToVideoRequest img prompt ar) polled
        /\ requeries (trace (snd run)) = requeries (trace w) + length polled).
Proof.
  intros w polled fin fuel Hs Hp Hd Hf. split; intros; subst run.
  - rewrite generateVideoFromPrompt_job. repeat split.
    + rewrite (videoJob_outcome w polled fin fuel); auto.
      destruct (hasDownloadLink fin); discriminate.
    + now apply videoJob_trace with (fin := fin).
    + now apply videoJob_requeries with (fin := fin).
  - rewrite animateImageWithVeo_job. repeat split.
    + rewrite (videoJob_outcome w polled fin fuel); auto.
      destruct (hasDownloadLink fin); discriminate.
    + now apply videoJob_trace with (fin := fin).
    + now apply videoJob_requeries with (fin := fin).
Qed.

(** The mock operation of the specification: not done twice, then done
    with a result URI. *)
Lemma poller_two_requeries_witness :
  let w := mockWorld (script [pendingOp; pendingOp; doneOp (Some mockUri)]) in
  let run := generateVideoFromPrompt 2 (js "drone shot") Ratio16_9 w in
  fst run = Returned (mockUri ++ js "&key=SECRET")
  /\ requeries (trace (snd run)) = 2
  /\ trace (snd run) =
     [ EvHasSelectedApiKey;
       EvGenerateVideos (textToVideoRequest (js "drone shot") Ratio16_9);
       EvSetTimeout 5000; EvGetVideosOperation pendingOp;
       EvSetTimeout 5000; EvGetVideosOperation pendingOp ].
Proof.
  intros w run.
  destruct (poller_requeries_every_5000ms_until_done
              w [pendingOp; pendingOp] (doneOp (Some mockUri)) 2
              (scripted_script _)
              ltac:(repeat constructor)
              eq_refl (le_n 2)) as [Hgen _].
  destruct (Hgen (js "drone shot") Ratio16_9) as (_ & Htrace & Hcount).
  split; [reflexivity | split; [exact Hcount | exact Htrace]].
Defined.

(** An operation that is done when submitted is never re-queried. *)
Example poller_done_at_submission :
  let w := mockWorld (script [doneOp (Some mockUri)]) in
  let run := animateImageWithVeo 0 (Some (js "aGk=")) None Ratio9_16 w in
  fst run = Returned (mockUri ++ js "&key=SECRET")
  /\ requeries (trace (snd run)) = 0.
Proof. split; reflexivity. Qed.

(** C2.  Job Poller, both video functions: if every status the gateway
    ever reports is not done, then whatever bound [fuel] is put on the
    number of loop iterations the run is still pending when the bound is
    reached, and by then it has made exactly [fuel] re-queries, each after
    a wait of the same 5000 ms: the loop has no retry limit, no backoff and
    no exit. *)
Theorem poller_never_settles_on_pending_job :
  forall (w : World) (statuses : nat -> Operation),
    (forall i, video_replies w (video_calls w + i) = VideoOp (statuses i)) ->
    (forall i, done (statuses i) = false) ->
    forall fuel : nat,
      (forall prompt ar,
          let run := generateVideoFromPrompt fuel prompt ar w in
          fst run = Pending
          /\ trace (snd run) =
             trace w ++ job_events w (textToVideoRequest prompt ar)
                          (map statuses (seq 0 fuel))
          /\ requeries (trace (snd run)) = requeries (trace w) + fuel)
      /\ (forall img prompt ar,
          let run := animateImageWithVeo fuel img prompt ar w in
          fst run = Pending
          /\ trace (snd run) =
             trace w ++ job_events w (imageToVideoRequest img prompt ar)
                          (map statuses (seq 0 fuel))
          /\ requeries (trace (snd run)) = requeries (trace w) + fuel).
Proof.
  intros w sts Hr Hd fuel. split; intros; subst run.
  - rewrite generateVideoFromPrompt_job, (videoJob_pending _ _ w sts fuel Hr Hd).
    simpl. rewrite requeries_app, requeries_job_events, length_map, length_seq. auto.
  - rewrite animateImageWithVeo_job, (videoJob_pending _ _ w sts fuel Hr Hd).
    simpl. rewrite requeries_app, requeries_job_events, length_map, length_seq. auto.
Qed.

Lemma poller_never_settles_witness :
  let w := mockWorld (fun _ => VideoOp pendingOp) in
  let run := generateVideoFromPrompt 3 (js "drone shot") Ratio16_9 w in
  fst run = Pending /\ requeries (trace (snd run)) = 3.
Proof.
  intros w run.
  destruct (poller_never_settles_on_pending_job
              w (fun _ => pendingOp) (fun _ => eq_refl) (fun _ => eq_refl) 3)
    as [Hgen _].
  destruct (Hgen (js "drone shot") Ratio16_9) as (Hp & _ & Hc).
  split; [exact Hp | exact Hc].
Defined.

Lemma CarriesMediaUri_downloadLink op u :
  CarriesMediaUri op u -> downloadLink op = Some u /\ truthy u = true.
Proof. intros H. destruct H. split; reflexivity. Qed.

Lemma hasDownloadLink_carries op :
  hasDownloadLink op = true -> exists u, CarriesMediaUri op u.
Proof.
  destruct op as [d r].
  destruct r as [r|]; [|discriminate].
  destruct r as [vs].
  destruct vs as [vs|]; [|discriminate].
  destruct vs as [|g others]; [discriminate|].
  destruct g as [v].
  destruct v as [v|]; [|discriminate].
  destruct v as [l].
  destruct l as [l|]; [|discriminate].
  destruct l as [|c u]; [discriminate|].
  intros _. exists (c :: u). constructor.
Qed.

Lemma hasDownloadLink_false_iff op :
  hasDownloadLink op = false <-> forall u, ~ CarriesMediaUri op u.
Proof.
  split.
  - intros H u Hc. apply CarriesMediaUri_downloadLink in Hc as [Hl Ht].
    unfold hasDownloadLink in H. rewrite Hl in H. simpl in H. congruence.
  - intros H. destruct (hasDownloadLink op) eqn:E; auto.
    destruct (hasDownloadLink_carries op E) as [u Hu]. destruct (H u Hu).
Qed.

(** C3.  Job Poller, both video functions: once a done status [fin] is
    received, the run throws its failure error when [fin] carries no media
    URI, returns a URL exactly when [fin] carries one (the URL then starts
    with that URI), and in both cases makes no re-query beyond those of the
    not-done statuses seen before.  Carrying a media URI is read on the
    operation itself ([CarriesMediaUri]): the first generated video of the
    response has a non-empty [uri]. *)
Theorem completed_job_without_uri_fails_fast :
  forall (w : World) (polled : list Operation) (fin : Operation) (fuel : nat),
    scripted w (polled ++ [fin]) ->
    Forall pending polled ->
    done fin = true ->
    length polled <= fuel ->
    (forall prompt ar,
        let run := generateVideoFromPrompt fuel prompt ar w in
        ((forall u, ~ CarriesMediaUri fin u) ->
         fst run = Thrown (Error (js "Video generation failed")))
        /\ (forall u, CarriesMediaUri fin u ->
                      fst run = Returned (u ++ js "&key=" ++ tpl (API_KEY w)))
        /\ ((exists u, CarriesMediaUri fin u) <-> exists url, fst run = Returned url)
        /\ trace (snd run) =
           trace w ++ job_events w (textToVideoRequest prompt ar) polled
        /\ requeries (trace (snd run)) = requeries (trace w) + length polled)
    /\ (forall img prompt ar,
        let run := animateImageWithVeo fuel img prompt ar w in
        ((forall u, ~ CarriesMediaUri fin u) ->
         fst run = Thrown (Error (js "Video animation failed")))
        /\ (forall u, CarriesMediaUri fin u ->
                      fst run = Returned (u ++ js "&key=" ++ tpl (API_KEY w)))
        /\ ((exists u, CarriesMediaUri fin u) <-> exists url, fst run = Returned url)
        /\ trace (snd run) =
           trace w ++ job_events w (imageToVideoRequest img prompt ar) polled
        /\ requeries (trace (snd run)) = requeries (trace w) + length polled).
Proof.
  intros w polled fin fuel Hs Hp Hd Hf. split; intros; subst run.
  - rewrite generateVideoFromPrompt_job.
    rewrite (videoJob_outcome w polled fin fuel), (videoJob_trace w polled fin fuel); auto.
    split; [|split; [|split; [|split]]]; auto.
    + intros Hn. apply hasDownloadLink_false_iff in Hn. now rewrite Hn.
    + intros u Hu. apply CarriesMediaUri_downloadLink in Hu as [Hl Ht].
      unfold hasDownloadLink. rewrite Hl. simpl. now rewrite Ht.
    + split.
      * intros [u Hu]. apply CarriesMediaUri_downloadLink in Hu as [Hl Ht].
        unfold hasDownloadLink. rewrite Hl. simpl. rewrite Ht. eauto.
      * intros [url H]. apply hasDownloadLink_carries.
        destruct (hasDownloadLink fin); [reflexivity | discriminate].
    + now rewrite requeries_app, requeries_job_events.
  - rewrite animateImageWithVeo_job.
    rewrite (videoJob_outcome w polled fin fuel), (videoJob_trace w polled fin fuel); auto.
    split; [|split; [|split; [|split]]]; auto.
    + intros Hn. apply hasDownloadLink_false_iff in Hn. now rewrite Hn.
    + intros u Hu. apply CarriesMediaUri_downloadLink in Hu as [Hl Ht].
      unfold hasDownloadLink. rewrite Hl. simpl. now rewrite Ht.
    + split.
      * intros [u Hu]. apply CarriesMediaUri_downloadLink in Hu as [Hl Ht].
        unfold hasDownloadLink. rewrite Hl. simpl. rewrite Ht. eauto.
      * intros [url H]. apply hasDownloadLink_carries.
        destruct (hasDownloadLink fin); [reflexivity | discriminate].
    + now rewrite requeries_app, requeries_job_events.
Qed.

(** Four completed operations: without a response, without a generated
    video, with an empty [uri] (each fails at once), and, after one
    not-done status, with a media URI (the URL is returned). *)
Lemma completed_job_without_uri_witness :
  let failed (fin : Operation) :=
    let run := generateVideoFromPrompt 5 (js "drone shot") Ratio16_9
                 (mockWorld (script [fin])) in
    fst run = Thrown (Error (js "Video generation failed"))
    /\ requeries (trace (snd run)) = 0 in
  failed doneEmpty /\ failed doneNoVideos /\ failed doneNoVideo
  /\ failed (doneOp None) /\ failed (doneOp (Some []))
  /\ (let run := animateImageWithVeo 5 (Some (js "aGk=")) None Ratio9_16
                   (mockWorld (script [pendingOp; doneOp (Some mockUri)])) in
      fst run = Returned (mockUri ++ js "&key=SECRET")
      /\ requeries (trace (snd run)) = 1).
Proof.
  assert (Hfail : forall fin,
             done fin = true -> (forall u, ~ CarriesMediaUri fin u) ->
             let run := generateVideoFromPrompt 5 (js "drone shot") Ratio16_9
                          (mockWorld (script [fin])) in
             fst run = Thrown (Error (js "Video generation failed"))
             /\ requeries (trace (snd run)) = 0).
  { intros fin Hd Hn.
    destruct (completed_job_without_uri_fails_fast
                (mockWorld (script [fin])) [] fin 5
                (scripted_script _) ltac:(constructor) Hd (Nat.le_0_l 5)) as [Hgen _].
    destruct (Hgen (js "drone shot") Ratio16_9) as (Hthrow & _ & _ & _ & Hc).
    split; [exact (Hthrow Hn) | exact Hc]. }
  intros failed. subst failed. cbv beta.
  assert (Hdone : let run := animateImageWithVeo 5 (Some (js "aGk=")) None Ratio9_16
                   (mockWorld (script [pendingOp; doneOp (Some mockUri)])) in
      fst run = Returned (mockUri ++ js "&key=SECRET")
      /\ requeries (trace (snd run)) = 1); [split|].
  - destruct (completed_job_without_uri_fails_fast
                (mockWorld (script [pendingOp; doneOp (Some mockUri)]))
                [pendingOp] (doneOp (Some mockUri)) 5
                (scripted_script _) ltac:(repeat constructor) eq_refl
                ltac:(simpl; lia)) as [_ Hanim].
    destruct (Hanim (Some (js "aGk=")) None Ratio9_16) as (_ & Hret & _).
    apply Hret. unfold doneOp, mockUri. cbn. constructor.
  - destruct (completed_job_without_uri_fails_fast
                (mockWorld (script [pendingOp; doneOp (Some mockUri)]))
                [pendingOp] (doneOp (Some mockUri)) 5
                (scripted_script _) ltac:(repeat constructor) eq_refl
                ltac:(simpl; lia)) as [_ Hanim].
    destruct (Hanim (Some (js "aGk=")) None Ratio9_16) as (_ & _ & _ & _ & Hc).
    exact Hc.
  - refine (conj (Hfail doneEmpty eq_refl _)
             (conj (Hfail doneNoVideos eq_refl _)
                (conj (Hfail doneNoVideo eq_refl _)
                   (conj (Hfail (doneOp None) eq_refl _)
                      (conj (Hfail (doneOp (Some [])) eq_refl _) Hdone)))));
      intros u H; inversion H.
Defined.

Lemma app_nonempty_neq (u x : jsstring) : x <> [] -> u ++ x <> u.
Proof.
  intros Hx H. apply (f_equal (@length _)) in H. rewrite length_app in H.
  destruct x; [congruence | simpl in H; lia].
Qed.

(** C10.  Both video functions: when the done status carries the media
    URI [u], the value returned is [u] followed by [&key=] and the
    environment's [API_KEY] as a template literal renders it (the key
    itself when one is set); it is never the bare [u]. *)
Theorem returned_video_url_embeds_api_key :
  forall (w : World) (polled : list Operation) (fin : Operation) (fuel : nat)
         (u : jsstring),
    scripted w (polled ++ [fin]) ->
    Forall pending polled ->
    done fin = true ->
    length polled <= fuel ->
    downloadLink fin = Some u ->
    truthy u = true ->
    let url := u ++ js "&key=" ++ tpl (API_KEY w) in
    (forall prompt ar,
        fst (generateVideoFromPrompt fuel prompt ar w) = Returned url)
    /\ (forall img prompt ar,
        fst (animateImageWithVeo fuel img prompt ar w) = Returned url)
    /\ url <> u
    /\ (forall k, API_KEY w = Some k -> url = u ++ js "&key=" ++ k).
Proof.
  intros w polled fin fuel u Hs Hp Hd Hf Hu Ht url.
  assert (Hl : hasDownloadLink fin = true) by (unfold hasDownloadLink; now rewrite Hu).
  repeat split.
  - intros. rewrite generateVideoFromPrompt_job, (videoJob_outcome w polled fin fuel); auto.
    now rewrite Hl, Hu.
  - intros. rewrite animateImageWithVeo_job, (videoJob_outcome w polled fin fuel); auto.
    now rewrite Hl, Hu.
  - apply app_nonempty_neq. discriminate.
  - intros k Hk. unfold url. now rewrite Hk.
Qed.

Lemma returned_video_url_witness :
  let w := mockWorld (script [pendingOp; doneOp (Some mockUri)]) in
  fst (generateVideoFromPrompt 1 (js "drone shot") Ratio16_9 w)
  = Returned (mockUri ++ js "&key=" ++ js "SECRET").
Proof.
  intros w.
  destruct (returned_video_url_embeds_api_key
              w [pendingOp] (doneOp (Some mockUri)) 1 mockUri
              (scripted_script _) ltac:(repeat constructor)
              eq_refl (le_n 1) eq_refl eq_refl) as (Hgen & _).
  exact (Hgen (js "drone shot") Ratio16_9).
Defined.

(* ================================================================== *)
(** ** Campaign extraction and the strategy screen *)
(* ================================================================== *)

Lemma str_eqb_refl a : str_eqb a a = true.
Proof. induction a; simpl; auto. now rewrite N.eqb_refl. Qed.

Lemma str_eqb_eq a : forall b, str_eqb a b = true <-> a = b.
Proof.
  induction a as [|x a IH]; intros [|y b]; simpl; split; try congruence; auto.
  - intros [Hx Hab]%andb_prop. apply N.eqb_eq in Hx. apply IH in Hab. congruence.
  - intros [= -> ->]. now rewrite N.eqb_refl, str_eqb_refl.
Qed.

Lemma lookup_app_last key k x ms :
  lookup key (ms ++ [(k, x)]) = if str_eqb k key then Some x else lookup key ms.
Proof.
  induction ms as [|[k' v'] ms IH]; simpl.
  - reflexivity.
  - rewrite IH. destruct (str_eqb k key); [reflexivity|].
    reflexivity.
Qed.

Lemma generateContent_trace req w :
  trace (snd (generateContent req w)) = trace w ++ [EvGenerateContent req].
Proof. unfold generateContent. destruct (content_replies w _); reflexivity. Qed.

Lemma generateContent_not_pending req w : fst (generateContent req w) <> Pending.
Proof. unfold generateContent. destruct (content_replies w _); discriminate. Qed.

Lemma extractCampaignDetails_not_pending result w :
  fst (extractCampaignDetails result w) <> Pending.
Proof.
  destruct result as [t|]; simpl; [|discriminate].
  unfold bind, generateContent. destruct (content_replies w _); simpl; [|discriminate].
  unfold JSON_parse_async. destruct (JSON_parse _); discriminate.
Qed.

(** The extractor's outcome, by cases on its input and on the reply. *)
Lemma extractCampaignDetails_outcome result w :
  fst (extractCampaignDetails result w) =
  match result with
  | None => Thrown TypeError
  | Some _ =>
      match content_replies w (content_calls w) with
      | ContentFail m => Thrown (GatewayError m)
      | ContentOk resp =>
          match JSON_parse (tpl (responseText resp)) with
          | Some v => Returned v
          | None => Thrown SyntaxError
          end
      end
  end.
Proof.
  destruct result as [t|]; simpl; [|reflexivity].
  unfold bind, generateContent. destruct (content_replies w _); simpl; [|reflexivity].
  unfold JSON_parse_async. destruct (JSON_parse _); reflexivity.
Qed.

Lemma alerts_app a b : alerts (a ++ b) = alerts a ++ alerts b.
Proof.
  induction a as [|e a IH]; simpl; auto. destruct e; simpl; rewrite ?IH; auto.
Qed.

Lemma generateStrategy_trace bn goals w :
  alerts (trace (snd (generateStrategy bn goals w))) = alerts (trace w).
Proof.
  unfold generateStrategy, bind, generateContent.
  destruct (content_replies w _); simpl; now rewrite alerts_app, app_nil_r.
Qed.

Lemma extractCampaignDetails_alerts result w :
  alerts (trace (snd (extractCampaignDetails result w))) = alerts (trace w).
Proof.
  destruct result as [t|]; simpl; auto.
  unfold bind, generateContent.
  destruct (content_replies w _); simpl.
  - unfold JSON_parse_async. destruct (JSON_parse _); simpl; now rewrite alerts_app, app_nil_r.
  - now rewrite alerts_app, app_nil_r.
Qed.

Section StrategyRun.

Variables (s : Session StrategyAgent.State) (result : option jsstring) (w1 : World).
Hypothesis Hbrand : truthy (StrategyAgent.brandName (ui s)) = true.
Hypothesis Hmode : StrategyAgent.mode (ui s) = StrategyAgent.strategy.
Hypothesis Hstrategy :
  generateStrategy (StrategyAgent.brandName (ui s)) (StrategyAgent.goals (ui s))
    (world s) = (Returned result, w1).

Lemma handleRun_strategy :
  StrategyAgent.handleRun setCampaign s =
  match extractCampaignDetails result w1 with
  | (Returned details, w2) =>
      (Returned tt,
       {| ui := settledUI result (ui s);
          store := Some (StrategyAgent.activation details
                           (StrategyAgent.brandName (ui s)));
          world := w2 |})
  | (Thrown e, w2) =>
      (Returned tt,
       {| ui := settledUI result (ui s);
          store := store s;
          world := log (EvConsoleError (Some extractionLabel) e) w2 |})
  | (Pending, w2) =>
      (Pending,
       {| ui := StrategyAgent.setExtracting true
                  (StrategyAgent.setOutput (strategyOutput result)
                     (StrategyAgent.setResearchUrls []
                        (StrategyAgent.setOutput []
                           (StrategyAgent.setLoading true (ui s)))));
          store := store s; world := w2 |})
  end.
Proof.
  unfold StrategyAgent.handleRun. rewrite Hbrand, Hmode. simpl negb. cbv iota.
  unfold bind, setUI, modify, finally, try_catch, liftW, updUI. simpl.
  rewrite Hstrategy. cbn [world ui store].
  destruct (extractCampaignDetails result w1) as [[v|e|] w2]; reflexivity.
Qed.

Lemma handleRun_on_failure e :
  fst (extractCampaignDetails result w1) = Thrown e ->
  StrategyAgent.handleRun setCampaign s =
  (Returned tt,
   {| ui := settledUI result (ui s);
      store := store s;
      world := log (EvConsoleError (Some extractionLabel) e)
                 (snd (extractCampaignDetails result w1)) |}).
Proof.
  intros H. rewrite handleRun_strategy.
  destruct (extractCampaignDetails result w1) as [[v|e'|] w2]; simpl in *;
    congruence.
Qed.

Lemma handleRun_on_success details :
  fst (extractCampaignDetails result w1) = Returned details ->
  StrategyAgent.handleRun setCampaign s =
  (Returned tt,
   {| ui := settledUI result (ui s);
      store := Some (StrategyAgent.activation details
                       (StrategyAgent.brandName (ui s)));
      world := snd (extractCampaignDetails result w1) |}).
Proof.
  intros H. rewrite handleRun_strategy.
  destruct (extractCampaignDetails result w1) as [[v|e'|] w2]; simpl in *;
    congruence.
Qed.

End StrategyRun.

(** C4, as amended.  In a strategy run whose strategy call returned
    [result]: the extractor throws exactly when [result] is undefined, the
    gateway call fails, or the response payload is not valid JSON; a payload
    that is valid JSON is returned whatever its shape, and the caller stores
    it with the brand name added.  Whenever the extractor throws, the
    handler completes normally, the error is logged through
    [console.error], no alert is raised, the screen keeps showing the
    strategy text, and the Campaign Store is what it was. *)
Theorem extraction_failure_leaves_store_untouched :
  forall (s : Session StrategyAgent.State) (result : option jsstring) (w1 : World),
    truthy (StrategyAgent.brandName (ui s)) = true ->
    StrategyAgent.mode (ui s) = StrategyAgent.strategy ->
    generateStrategy (StrategyAgent.brandName (ui s)) (StrategyAgent.goals (ui s))
      (world s) = (Returned result, w1) ->
    let attempt := extractCampaignDetails result w1 in
    let after := StrategyAgent.handleRun setCampaign s in
    ((exists e, fst attempt = Thrown e) <->
       result = None
       \/ (exists m, content_replies w1 (content_calls w1) = ContentFail m)
       \/ (exists resp, content_replies w1 (content_calls w1) = ContentOk resp
                        /\ JSON_parse (tpl (responseText resp)) = None))
    /\ (forall resp v,
          result <> None ->
          content_replies w1 (content_calls w1) = ContentOk resp ->
          JSON_parse (tpl (responseText resp)) = Some v ->
          fst attempt = Returned v
          /\ store (snd after) =
             Some (StrategyAgent.activation v (StrategyAgent.brandName (ui s))))
    /\ (forall e,
          fst attempt = Thrown e ->
          fst after = Returned tt
          /\ store (snd after) = store s
          /\ trace (world (snd after)) =
             trace (snd attempt) ++ [EvConsoleError (Some extractionLabel) e]
          /\ alerts (trace (world (snd after))) = alerts (trace (world s))
          /\ StrategyAgent.output (ui (snd after)) = strategyOutput result
          /\ StrategyAgent.extracting (ui (snd after)) = false
          /\ StrategyAgent.loading (ui (snd after)) = false).
Proof.
  intros s result w1 Hb Hm Hg attempt after. subst attempt after.
  pose proof (extractCampaignDetails_outcome result w1) as Ho.
  repeat split.
  - intros [e He]. rewrite Ho in He.
    destruct result as [t|]; [right|now left].
    destruct (content_replies w1 (content_calls w1)) as [resp|m]; [right|left; eauto].
    exists resp. split; auto. destruct (JSON_parse _); [discriminate|reflexivity].
  - intros [->|[[m Hr]|(resp & Hr & Hp)]]; rewrite Ho.
    + eauto.
    + destruct result; [rewrite Hr|]; eauto.
    + destruct result; [rewrite Hr, Hp|]; eauto.
  - rewrite Ho. destruct result; [|congruence]. now rewrite H0, H1.
  - rewrite (handleRun_on_success s result w1 Hb Hm Hg v); auto.
    rewrite Ho. destruct result; [|congruence]. now rewrite H0, H1.
  - now rewrite (handleRun_on_failure s result w1 Hb Hm Hg e).
  - now rewrite (handleRun_on_failure s result w1 Hb Hm Hg e).
  - now rewrite (handleRun_on_failure s result w1 Hb Hm Hg e).
  - rewrite (handleRun_on_failure s result w1 Hb Hm Hg e); auto. simpl.
    rewrite alerts_app, app_nil_r, extractCampaignDetails_alerts.
    replace w1 with (snd (generateStrategy (StrategyAgent.brandName (ui s))
                            (StrategyAgent.goals (ui s)) (world s)))
      by now rewrite Hg.
    apply generateStrategy_trace.
  - now rewrite (handleRun_on_failure s result w1 Hb Hm Hg e).
  - now rewrite (handleRun_on_failure s result w1 Hb Hm Hg e).
  - now rewrite (handleRun_on_failure s result w1 Hb Hm Hg e).
Qed.

Lemma extraction_failure_witness :
  let s := acmeSession [textReply (js "Week one: teasers."); textReply (js "Sorry, no JSON today")] in
  let after := StrategyAgent.handleRun setCampaign s in
  fst after = Returned tt
  /\ store (snd after) = Some earlierCampaign
  /\ alerts (trace (world (snd after))) = []
  /\ StrategyAgent.output (ui (snd after)) = js "Week one: teasers.".
Proof.
  intros s after.
  destruct (extraction_failure_leaves_store_untouched
              s (Some (js "Week one: teasers."))
              (snd (generateStrategy (StrategyAgent.brandName (ui s))
                      (StrategyAgent.goals (ui s)) (world s)))
              eq_refl eq_refl eq_refl) as (_ & _ & Hfail).
  destruct (Hfail SyntaxError eq_refl) as (H1 & H2 & _ & H4 & H5 & _).
  repeat split; assumption.
Defined.

(** C4 as stated fails: it expects a parse error on every payload for
    which [parseErrorExpected] holds, and the store untouched then; on the
    payload [{}] the extractor returns, and the caller replaces the stored
    campaign by one with a brand name and nothing else. *)
Lemma shape_violation_is_stored :
  let s := acmeSession [textReply (js "Week one: teasers."); textReply (js "{}")] in
  let w1 := snd (generateStrategy (js "Acme") (js "double the newsletter audience") (world s)) in
  let after := StrategyAgent.handleRun setCampaign s in
  parseErrorExpected (Some (js "{}")) = true
  /\ fst (extractCampaignDetails (Some (js "Week one: teasers.")) w1)
     = Returned (JObject [])
  /\ store (snd after) = Some (JObject [(js "brandName", JString (js "Acme"))])
  /\ store (snd after) <> store s
  /\ asActiveCampaign (JObject [(js "brandName", JString (js "Acme"))]) = None
  /\ ~ (forall payload w t,
          content_replies w (content_calls w) = textReply payload ->
          parseErrorExpected (Some payload) = true ->
          exists e, fst (extractCampaignDetails (Some t) w) = Thrown e).
Proof.
  intros s w1 after. repeat split; try reflexivity.
  - discriminate.
  - intros H.
    destruct (H (js "{}") (strategyWorld [textReply (js "{}")]) (js "plan")
                eq_refl eq_refl) as [e He].
    discriminate He.
Qed.

Lemma asStrings_length elems : forall hooks,
  asStrings elems = Some hooks -> length hooks = length elems.
Proof.
  induction elems as [|e elems IH]; intros hooks; simpl.
  - intros [= <-]. reflexivity.
  - destruct e; try discriminate. destruct (asStrings elems); [|discriminate].
    intros [= <-]. simpl. f_equal. now apply IH.
Qed.

Lemma prop_activation key details bn :
  str_eqb (js "brandName") key = false ->
  (exists ms, details = JObject ms) ->
  prop key (StrategyAgent.activation details bn) = prop key details.
Proof.
  intros Hk [ms ->]. unfold StrategyAgent.activation. simpl.
  now rewrite lookup_app_last, Hk.
Qed.

Lemma prop_activation_brandName details bn :
  prop (js "brandName") (StrategyAgent.activation details bn) = Some (JString bn).
Proof.
  unfold StrategyAgent.activation. simpl. now rewrite lookup_app_last.
Qed.

Lemma prop_some_object key v x : prop key v = Some x -> exists ms, v = JObject ms.
Proof. destruct v; simpl; try discriminate. eauto. Qed.

(** C5.  When the response payload parses as JSON into an object whose
    [visualStyle], [videoConcept] and [targetAudience] are strings and whose
    [socialHooks] is an array of strings, the extractor returns that object
    and the campaign the caller stores has the same three strings, the same
    [socialHooks] array (hence of the same length) and the brand name of the
    screen. *)
Theorem extractor_preserves_payload_fields :
  forall (s : Session StrategyAgent.State) (strategyText : jsstring) (w1 : World)
         (resp : GenerateContentResponse) (payload : jsstring) (v : JSValue)
         (vs vc ta : jsstring) (elems : list JSValue) (hooks : list jsstring),
    truthy (StrategyAgent.brandName (ui s)) = true ->
    StrategyAgent.mode (ui s) = StrategyAgent.strategy ->
    generateStrategy (StrategyAgent.brandName (ui s)) (StrategyAgent.goals (ui s))
      (world s) = (Returned (Some strategyText), w1) ->
    content_replies w1 (content_calls w1) = ContentOk resp ->
    responseText resp = Some payload ->
    JSON_parse payload = Some v ->
    prop (js "visualStyle") v = Some (JString vs) ->
    prop (js "videoConcept") v = Some (JString vc) ->
    prop (js "socialHooks") v = Some (JArray elems) ->
    asStrings elems = Some hooks ->
    prop (js "targetAudience") v = Some (JString ta) ->
    fst (extractCampaignDetails (Some strategyText) w1) = Returned v
    /\ exists campaign,
         store (snd (StrategyAgent.handleRun setCampaign s)) = Some campaign
         /\ prop (js "visualStyle") campaign = Some (JString vs)
         /\ prop (js "videoConcept") campaign = Some (JString vc)
         /\ prop (js "socialHooks") campaign = Some (JArray elems)
         /\ prop (js "targetAudience") campaign = Some (JString ta)
         /\ asActiveCampaign campaign =
            Some {| brandName := StrategyAgent.brandName (ui s);
                    visualStyle := vs; videoConcept := vc;
                    socialHooks := hooks; targetAudience := ta |}
         /\ length hooks = length elems.
Proof.
  intros s strategyText w1 resp payload v vs vc ta elems hooks
         Hb Hm Hg Hr Ht Hp Hvs Hvc Hsh Hhooks Hta.
  assert (Hret : fst (extractCampaignDetails (Some strategyText) w1) = Returned v).
  { rewrite extractCampaignDetails_outcome, Hr, Ht. simpl. now rewrite Hp. }
  split; [exact Hret|].
  exists (StrategyAgent.activation v (StrategyAgent.brandName (ui s))).
  pose proof (prop_some_object _ _ _ Hvs) as Hobj.
  assert (E1 := prop_activation (js "visualStyle") v (StrategyAgent.brandName (ui s)) eq_refl Hobj).
  assert (E2 := prop_activation (js "videoConcept") v (StrategyAgent.brandName (ui s)) eq_refl Hobj).
  assert (E3 := prop_activation (js "socialHooks") v (StrategyAgent.brandName (ui s)) eq_refl Hobj).
  assert (E4 := prop_activation (js "targetAudience") v (StrategyAgent.brandName (ui s)) eq_refl Hobj).
  assert (E5 := prop_activation_brandName v (StrategyAgent.brandName (ui s))).
  rewrite Hvs in E1. rewrite Hvc in E2. rewrite Hsh in E3. rewrite Hta in E4.
  repeat split; auto.
  - now rewrite (handleRun_on_success s (Some strategyText) w1 Hb Hm Hg v).
  - unfold asActiveCampaign. rewrite E1, E2, E3, E4, E5. simpl. now rewrite Hhooks.
  - now apply asStrings_length.
Qed.

Lemma extractor_preserves_payload_witness :
  let s := acmeSession [textReply (js "Week one: teasers."); textReply samplePayload] in
  exists campaign,
    store (snd (StrategyAgent.handleRun setCampaign s)) = Some campaign
    /\ asActiveCampaign campaign =
       Some {| brandName := js "Acme";
               visualStyle := js "neon noir, rain-slick streets";
               videoConcept := js "Drone shot of a rooftop garden";
               socialHooks := [js "Grow up"; js "Roof to table"; js "City, greener"];
               targetAudience := js "Urban renters who cook" |}.
Proof.
  intros s.
  destruct (extractor_preserves_payload_fields
              s (js "Week one: teasers.")
              (snd (generateStrategy (StrategyAgent.brandName (ui s))
                      (StrategyAgent.goals (ui s)) (world s)))
              {| responseText := Some samplePayload; candidates := None |}
              samplePayload
              (JObject
                 [ (js "visualStyle", JString (js "neon noir, rain-slick streets"));
                   (js "videoConcept", JString (js "Drone shot of a rooftop garden"));
                   (js "socialHooks",
                    JArray [JString (js "Grow up"); JString (js "Roof to table");
                            JString (js "City, greener")]);
                   (js "targetAudience", JString (js "Urban renters who cook")) ])
              (js "neon noir, rain-slick streets")
              (js "Drone shot of a rooftop garden")
              (js "Urban renters who cook")
              [JString (js "Grow up"); JString (js "Roof to table");
               JString (js "City, greener")]
              [js "Grow up"; js "Roof to table"; js "City, greener"]
              eq_refl eq_refl eq_refl eq_refl eq_refl
              ltac:(vm_compute; reflexivity)
              eq_refl eq_refl eq_refl eq_refl eq_refl)
    as (_ & campaign & Hs & _ & _ & _ & _ & Hc & _).
  exists campaign. split; assumption.
Defined.

(** C7.  For every strategy text the extractor issues one request, whose
    prompt is the fixed head, then the first 5000 code units of the text
    (the whole text when it is shorter), then the fixed tail, and whose
    response schema asks for the four fields [visualStyle], [videoConcept],
    [socialHooks], [targetAudience] and no other. *)
Theorem extraction_request_embeds_5000_prefix :
  forall (strategyText : jsstring) (w : World),
    let run := extractCampaignDetails (Some strategyText) w in
    let req := extractionRequest strategyText in
    let embedded := firstn 5000 strategyText in
    trace (snd run) = trace w ++ [EvGenerateContent req]
    /\ contents req = ContentsText (extractionHead ++ embedded ++ extractionTail)
    /\ strategyText = embedded ++ skipn 5000 strategyText
    /\ length embedded = Nat.min 5000 (length strategyText)
    /\ responseMimeType (config req) = Some (js "application/json")
    /\ option_map schemaFields (responseSchema (config req)) =
       Some [js "visualStyle"; js "videoConcept"; js "socialHooks";
             js "targetAudience"].
Proof.
  intros strategyText w run req embedded. subst run req embedded.
  repeat split.
  - simpl. unfold bind, generateContent.
    destruct (content_replies w _); simpl; auto.
    unfold JSON_parse_async. destruct (JSON_parse _); reflexivity.
  - symmetry. apply firstn_skipn.
  - apply length_firstn.
Qed.

(* ================================================================== *)
(** ** Consumer screens and image calls *)
(* ================================================================== *)

(** C6.  Auto-fill of Image Studio and Video Lab: with a non-empty prompt
    field the effect leaves the screen state unchanged, whatever the active
    campaign; and whenever the effect does change the prompt field, the
    field was empty and receives the campaign-derived string. *)
Theorem autofill_only_when_prompt_empty :
  forall (campaign : option ActiveCampaign)
         (image : ImageStudio.State) (video : VideoLab.State),
    (truthy (ImageStudio.genPrompt image) = true ->
     ImageStudio.autoFill campaign image = image)
    /\ (truthy (VideoLab.prompt video) = true ->
        VideoLab.autoFill campaign video = video)
    /\ (ImageStudio.genPrompt (ImageStudio.autoFill campaign image)
          <> ImageStudio.genPrompt image ->
        ImageStudio.genPrompt image = []
        /\ exists c, campaign = Some c
             /\ ImageStudio.genPrompt (ImageStudio.autoFill campaign image) =
                js "Create a high-quality marketing image for " ++ brandName c
                  ++ js ". " ++ visualStyle c)
    /\ (VideoLab.prompt (VideoLab.autoFill campaign video)
          <> VideoLab.prompt video ->
        VideoLab.prompt video = []
        /\ exists c, campaign = Some c
             /\ VideoLab.prompt (VideoLab.autoFill campaign video) = videoConcept c).
Proof.
  intros campaign image video. repeat split.
  - intros H. unfold ImageStudio.autoFill. destruct campaign; auto.
    rewrite H. now rewrite andb_false_r.
  - intros H. unfold VideoLab.autoFill. destruct campaign; auto. now rewrite H.
  - destruct (ImageStudio.genPrompt image) eqn:E; auto.
    exfalso. apply H. unfold ImageStudio.autoFill. destruct campaign; auto.
    rewrite E. simpl. rewrite andb_false_r. auto.
  - unfold ImageStudio.autoFill in *. destruct campaign as [c|]; [|congruence].
    exists c. split; auto.
    destruct (_ && _); [reflexivity | congruence].
  - destruct (VideoLab.prompt video) eqn:E; auto.
    exfalso. apply H. unfold VideoLab.autoFill. destruct campaign; auto.
    rewrite E. simpl. auto.
  - unfold VideoLab.autoFill in *. destruct campaign as [c|]; [|congruence].
    exists c. split; auto.
    destruct (negb _); [reflexivity | congruence].
Qed.

Lemma autofill_witness :
  let filled := VideoLab.autoFill (Some rooftop) VideoLab.initial in
  VideoLab.prompt filled = js "Drone shot of a rooftop garden"
  /\ VideoLab.autoFill (Some harbour) filled = filled
  /\ ImageStudio.autoFill (Some harbour)
       (ImageStudio.setGenPrompt (js "my own prompt") ImageStudio.initial)
     = ImageStudio.setGenPrompt (js "my own prompt") ImageStudio.initial.
Proof.
  intros filled.
  destruct (autofill_only_when_prompt_empty (Some harbour)
              (ImageStudio.setGenPrompt (js "my own prompt") ImageStudio.initial)
              filled) as (Hi & Hv & _).
  split; [reflexivity | split; [exact (Hv eq_refl) | exact (Hi eq_refl)]].
Defined.

Lemma firstInlineImage_none ps :
  (forall part, In part ps -> inlineData part = None) -> firstInlineImage ps = None.
Proof.
  induction ps as [|p ps IH]; simpl; intros H; auto.
  rewrite (H p) by auto. apply IH. intros; apply H; auto.
Qed.

Lemma firstInlineImage_first pre : forall part blob post,
  (forall p, In p pre -> inlineData p = None) ->
  inlineData part = Some blob ->
  firstInlineImage (pre ++ part :: post) =
  Some (js "data:image/png;base64," ++ tpl (data blob)).
Proof.
  induction pre as [|p pre IH]; simpl; intros part blob post Hpre Hpart.
  - now rewrite Hpart.
  - rewrite (Hpre p) by auto. apply IH; auto.
Qed.

Lemma firstInlineImage_truthy ps url :
  firstInlineImage ps = Some url -> truthy url = true.
Proof.
  induction ps as [|p ps IH]; simpl; [discriminate|].
  destruct (inlineData p); auto. intros [= <-]. reflexivity.
Qed.

Lemma generateProImage_outcome prompt ar size w resp :
  content_replies w (content_calls w) = ContentOk resp ->
  fst (generateProImage prompt ar size w) =
  match firstInlineImage (partsOf resp) with
  | Some dataUri => Returned dataUri
  | None => Thrown (Error (js "No image generated"))
  end.
Proof.
  intros H. unfold generateProImage, bind, ensurePaidApiKey, generateContent.
  destruct (aistudio w) as [[|]|]; simpl; rewrite H;
    destruct (firstInlineImage (partsOf resp)); reflexivity.
Qed.

Lemma editImageWithFlash_outcome img prompt w resp :
  content_replies w (content_calls w) = ContentOk resp ->
  fst (editImageWithFlash img prompt w) =
  match firstInlineImage (partsOf resp) with
  | Some dataUri => Returned dataUri
  | None => Thrown (Error (js "No edited image returned"))
  end.
Proof.
  intros H. unfold editImageWithFlash, bind, generateContent. rewrite H.
  destruct (firstInlineImage (partsOf resp)); reflexivity.
Qed.

(** C8.  Image generation and image editing, on a gateway response: if
    no part of the first candidate has inline data the call throws its
    "no image" error; if some part has, the call returns the data URI built
    from the first such part; and a returned value is never empty. *)
Theorem image_call_fails_without_inline_data :
  forall (w : World) (resp : GenerateContentResponse)
         (prompt : jsstring) (ar : AspectRatio) (size : ImageSize)
         (base64Image : option jsstring) (editPrompt : jsstring),
    content_replies w (content_calls w) = ContentOk resp ->
    let generated := fst (generateProImage prompt ar size w) in
    let edited := fst (editImageWithFlash base64Image editPrompt w) in
    ((forall part, In part (partsOf resp) -> inlineData part = None) ->
     generated = Thrown (Error (js "No image generated"))
     /\ edited = Thrown (Error (js "No edited image returned")))
    /\ (forall pre part blob post,
          partsOf resp = pre ++ part :: post ->
          (forall p, In p pre -> inlineData p = None) ->
          inlineData part = Some blob ->
          generated = Returned (js "data:image/png;base64," ++ tpl (data blob))
          /\ edited = Returned (js "data:image/png;base64," ++ tpl (data blob)))
    /\ (forall url, generated = Returned url \/ edited = Returned url ->
                    truthy url = true).
Proof.
  intros w resp prompt ar size img editPrompt Hr generated edited.
  subst generated edited.
  rewrite (generateProImage_outcome prompt ar size w resp Hr).
  rewrite (editImageWithFlash_outcome img editPrompt w resp Hr).
  repeat split.
  - now rewrite firstInlineImage_none.
  - now rewrite firstInlineImage_none.
  - rewrite H. now rewrite (firstInlineImage_first pre part blob post).
  - rewrite H. now rewrite (firstInlineImage_first pre part blob post).
  - intros url H. apply firstInlineImage_truthy with (ps := partsOf resp).
    destruct (firstInlineImage (partsOf resp)); destruct H; congruence.
Qed.

Lemma image_call_witness :
  let refused := imageWorld (partsReply [textPart (js "I cannot draw that.")]) in
  let drawn := imageWorld (partsReply [textPart (js "Here you go"); pngPart (js "iVBORw0KGgo="); pngPart (js "AAAA")]) in
  fst (generateProImage (js "a rooftop garden") SQUARE K1 refused)
    = Thrown (Error (js "No image generated"))
  /\ fst (generateProImage (js "a rooftop garden") SQUARE K1 drawn)
    = Returned (js "data:image/png;base64,iVBORw0KGgo=").
Proof.
  intros refused drawn. split.
  - destruct (image_call_fails_without_inline_data
                refused
                {| responseText := None;
                   candidates := Some [ {| content := Some {| parts := Some [textPart (js "I cannot draw that.")] |};
                                           groundingMetadata := None |} ] |}
                (js "a rooftop garden") SQUARE K1 None [] eq_refl) as (Hnone & _).
    apply Hnone. intros part [<-|[]]. reflexivity.
  - destruct (image_call_fails_without_inline_data
                drawn
                {| responseText := None;
                   candidates := Some [ {| content := Some {| parts := Some [textPart (js "Here you go"); pngPart (js "iVBORw0KGgo="); pngPart (js "AAAA")] |};
                                           groundingMetadata := None |} ] |}
                (js "a rooftop garden") SQUARE K1 None [] eq_refl) as (_ & Hfirst & _).
    destruct (Hfirst [textPart (js "Here you go")] (pngPart (js "iVBORw0KGgo="))
                {| mimeType := Some (js "image/png"); data := Some (js "iVBORw0KGgo=") |}
                [pngPart (js "AAAA")] eq_refl) as [Hg _].
    + intros p [<-|[]]. reflexivity.
    + reflexivity.
    + exact Hg.
Defined.

(* ================================================================== *)
(** ** [JSON.parse]: the recursion budget is never exhausted *)
(* ================================================================== *)

Lemma length_ind {A} (P : list A -> Prop) :
  (forall s, (forall t, length t < length s -> P t) -> P s) -> forall s, P s.
Proof.
  intros H s. remember (length s) as n eqn:E. revert s E.
  induction n as [n IH] using lt_wf_ind. intros s ->. apply H.
  intros t Ht. eapply IH; eauto.
Qed.

Lemma skip_ws_length s : length (skip_ws s) <= length s.
Proof.
  induction s as [|c r IH]; simpl; auto. destruct (is_ws c); simpl; lia.
Qed.

Lemma skip_ws_cons s c r : skip_ws s = c :: r -> length r < length s.
Proof. intros H. pose proof (skip_ws_length s) as L. rewrite H in L. simpl in L. lia. Qed.

Lemma parse_chars_shorter s : forall acc x rest,
  parse_chars s acc = Parsed x rest -> length rest < length s.
Proof.
  induction s as [s IH] using length_ind.
  intros acc x rest H. destruct s as [|c r]; simpl in H; [discriminate|].
  destruct (N.eqb c 34).
  { injection H as _ <-. simpl. lia. }
  destruct (N.eqb c 92).
  - destruct r as [|e r1]; [discriminate|].
    destruct (N.eqb e (cu "u")).
    + destruct r1 as [|h1 [|h2 [|h3 [|h4 r2]]]]; try discriminate.
      destruct (hex4 h1 h2 h3 h4); [|discriminate].
      apply IH in H; simpl in *; lia.
    + destruct (unescape e); [|discriminate].
      apply IH in H; simpl in *; lia.
  - destruct (N.ltb c 32); [discriminate|].
    apply IH in H; simpl in *; lia.
Qed.

Lemma parse_chars_not_exhausted s : forall acc, parse_chars s acc <> Exhausted.
Proof.
  induction s as [s IH] using length_ind.
  intros acc. destruct s as [|c r]; simpl; [discriminate|].
  destruct (N.eqb c 34); [discriminate|].
  destruct (N.eqb c 92).
  - destruct r as [|e r1]; [discriminate|].
    destruct (N.eqb e (cu "u")).
    + destruct r1 as [|h1 [|h2 [|h3 [|h4 r2]]]]; try discriminate.
      destruct (hex4 h1 h2 h3 h4); [|discriminate].
      apply IH; simpl; lia.
    + destruct (unescape e); [|discriminate]. apply IH; simpl; lia.
  - destruct (N.ltb c 32); [discriminate|]. apply IH; simpl; lia.
Qed.

Lemma span_digits_length s : length (span_digits s) <= length s.
Proof. induction s as [|c r IH]; simpl; auto. destruct (is_digit c); simpl; lia. Qed.

Lemma after_int_shorter s r : after_int s = Some r -> length r < length s.
Proof.
  destruct s as [|c s]; simpl; [discriminate|].
  pose proof (span_digits_length s).
  destruct (N.eqb c 48); [intros [= <-]; lia|].
  destruct (is_digit c); [intros [= <-]; lia | discriminate].
Qed.

Lemma digits1_length s r : digits1 s = Some r -> length r <= length s.
Proof.
  destruct s as [|c s]; simpl; [discriminate|].
  pose proof (span_digits_length s).
  destruct (is_digit c); [intros [= <-]; lia | discriminate].
Qed.

Lemma after_frac_length s r : after_frac s = Some r -> length r <= length s.
Proof.
  destruct s as [|c s]; simpl; [intros [= <-]; auto|].
  destruct (N.eqb c (cu ".")); [|intros [= <-]; auto].
  intros H%digits1_length. lia.
Qed.

Lemma after_sign_length s : length (after_sign s) <= length s.
Proof. destruct s as [|c s]; simpl; auto. destruct (_ || _); simpl; lia. Qed.

Lemma after_exp_length s r : after_exp s = Some r -> length r <= length s.
Proof.
  destruct s as [|c s]; simpl; [intros [= <-]; auto|].
  destruct (_ || _); [|intros [= <-]; auto].
  intros H%digits1_length. pose proof (after_sign_length s). lia.
Qed.

Lemma after_minus_length s : length (after_minus s) <= length s.
Proof. destruct s as [|c s]; simpl; auto. destruct (N.eqb _ _); simpl; lia. Qed.

Lemma parse_number_shorter s v rest :
  parse_number s = Parsed v rest -> length rest < length s.
Proof.
  unfold parse_number.
  destruct (after_int (after_minus s)) as [r1|] eqn:E1; simpl; [|discriminate].
  destruct (after_frac r1) as [r2|] eqn:E2; simpl; [|discriminate].
  destruct (after_exp r2) as [r3|] eqn:E3; [|discriminate].
  intros [= _ <-].
  apply after_int_shorter in E1. apply after_frac_length in E2.
  apply after_exp_length in E3. pose proof (after_minus_length s). lia.
Qed.

Lemma parse_number_not_exhausted s : parse_number s <> Exhausted.
Proof. unfold parse_number. destruct (opt_bind _ _); discriminate. Qed.

Lemma strip_length lit : forall s r, strip lit s = Some r -> length r + length lit = length s.
Proof.
  induction lit as [|x lit IH]; intros s r; simpl.
  - intros [= <-]. lia.
  - destruct s as [|c s]; [discriminate|]. destruct (N.eqb x c); [|discriminate].
    intros H%IH. simpl. lia.
Qed.

Lemma parse_literal_shorter lit v s v' rest :
  lit <> [] -> parse_literal lit v s = Parsed v' rest -> length rest < length s.
Proof.
  unfold parse_literal. intros Hl. destruct (strip lit s) eqn:E; [|discriminate].
  intros [= _ <-]. apply strip_length in E. destruct lit; [congruence|simpl in E; lia].
Qed.

Lemma parse_literal_not_exhausted lit v s : parse_literal lit v s <> Exhausted.
Proof. unfold parse_literal. destruct (strip lit s); discriminate. Qed.

Arguments parse_literal : simpl never.
Arguments parse_number : simpl never.
Arguments skip_ws : simpl never.
Arguments parse_chars : simpl never.

Ltac step H :=
  match type of H with
  | context [match ?x with _ => _ end] => destruct x eqn:?
  end; try discriminate.

Ltac harvest :=
  repeat match goal with
  | H : skip_ws _ = _ :: _ |- _ => apply skip_ws_cons in H
  | H : parse_chars _ _ = Parsed _ _ |- _ => apply parse_chars_shorter in H
  | H : parse_number _ = Parsed _ _ |- _ => apply parse_number_shorter in H
  | H : parse_literal _ _ _ = Parsed _ _ |- _ =>
      apply parse_literal_shorter in H; [|discriminate]
  end.

Lemma parse_consumes f :
  (forall s v rest, parse_value f s = Parsed v rest -> length rest < length s) /\
  (forall s acc vs rest,
      parse_elements f s acc = Parsed vs rest -> length rest < length s) /\
  (forall s acc ms rest,
      parse_members f s acc = Parsed ms rest -> length rest < length s).
Proof.
  induction f as [|f (IHv & IHe & IHm)]; [repeat split; discriminate|].
  repeat split.
  - intros s v rest H. simpl in H.
    repeat step H; try (injection H as <- <-);
      repeat match goal with
      | E : parse_members f _ _ = Parsed _ _ |- _ => apply IHm in E
      | E : parse_elements f _ _ = Parsed _ _ |- _ => apply IHe in E
      end; harvest; simpl in *; lia.
  - intros s acc vs rest H. simpl in H.
    repeat step H.
    + apply IHe in H. match goal with E : parse_value f _ = _ |- _ => apply IHv in E end.
      harvest. simpl in *; lia.
    + injection H as <- <-.
      match goal with E : parse_value f _ = _ |- _ => apply IHv in E end.
      harvest. simpl in *; lia.
  - intros s acc ms rest H. simpl in H.
    repeat step H.
    + apply IHm in H. match goal with E : parse_value f _ = _ |- _ => apply IHv in E end.
      harvest. simpl in *; lia.
    + injection H as <- <-.
      match goal with E : parse_value f _ = _ |- _ => apply IHv in E end.
      harvest. simpl in *; lia.
Qed.

Ltac stepg :=
  match goal with
  | |- context [match ?x with _ => _ end] => destruct x eqn:?
  end; try discriminate.

Lemma parse_budget_enough f :
  (forall s, 2 * length s + 1 <= f -> parse_value f s <> Exhausted) /\
  (forall s acc, 2 * length s + 2 <= f -> parse_elements f s acc <> Exhausted) /\
  (forall s acc, 2 * length s + 2 <= f -> parse_members f s acc <> Exhausted).
Proof.
  induction f as [|f (IHv & IHe & IHm)]; [repeat split; intros; lia|].
  pose proof (parse_consumes f) as (Cv & Ce & Cm).
  repeat split.
  - intros s Hb. simpl.
    repeat stepg;
      try apply parse_literal_not_exhausted; try apply parse_number_not_exhausted.
    + match goal with E : parse_members f ?r _ = Exhausted |- _ =>
        apply (IHm r []) in E; [contradiction|] end.
      harvest. simpl in *. lia.
    + match goal with E : parse_elements f ?r _ = Exhausted |- _ =>
        apply (IHe r []) in E; [contradiction|] end.
      harvest. simpl in *. lia.
    + match goal with E : parse_chars _ _ = Exhausted |- _ =>
        now apply parse_chars_not_exhausted in E end.
  - intros s acc Hb. simpl.
    repeat stepg.
    + apply IHe.
      match goal with E : parse_value f _ = Parsed _ _ |- _ => apply Cv in E end.
      harvest. simpl in *. lia.
    + match goal with E : parse_value f ?r = Exhausted |- _ =>
        apply (IHv r) in E; [contradiction|] end. lia.
  - intros s acc Hb. simpl.
    repeat stepg.
    + apply IHm.
      match goal with E : parse_value f _ = Parsed _ _ |- _ => apply Cv in E end.
      harvest. simpl in *. lia.
    + match goal with E : parse_value f ?r = Exhausted |- _ =>
        apply (IHv r) in E; [contradiction|] end.
      harvest. simpl in *. lia.
    + match goal with E : parse_chars _ _ = Exhausted |- _ =>
        now apply parse_chars_not_exhausted in E end.
Qed.

(** The budget [JSON_parse] gives the parser always suffices: [None] from
    [JSON_parse] is a syntax error, never a lack of budget. *)
Theorem parse_value_never_exhausted s :
  parse_value (parse_budget s) s <> Exhausted.
Proof. apply parse_budget_enough. unfold parse_budget. lia. Qed.

(** Samples of what [JSON.parse] accepts and rejects. *)
Example JSON_parse_empty_object : JSON_parse (js "{}") = Some (JObject []).
Proof. reflexivity. Qed.

Example JSON_parse_nested :
  JSON_parse (js " [ 1.5e3 , true , null , [ ] , { } ] ")
  = Some (JArray [JNumber (js "1.5e3"); JBool true; JNull; JArray []; JObject []]).
Proof. reflexivity. Qed.

Example JSON_parse_escapes :
  JSON_parse (quoted "aA\n\\") = Some (JString [97; 65; 10; 92]%N).
Proof. reflexivity. Qed.

Example JSON_parse_duplicate_key :
  option_map (prop (js "a"))
    (JSON_parse (js "{" ++ quoted "a" ++ js ":1," ++ quoted "a" ++ js ":2}"))
  = Some (Some (JNumber (js "2"))).
Proof. reflexivity. Qed.

Example JSON_parse_rejects :
  map JSON_parse
    [ js "undefined"; js ""; js "[1,]"; js "{a:1}"; js "01"; js "1."; js "tru";
      js "{}{}"; quoted "\x"; dq ++ js "open" ]
  = repeat None 10.
Proof. reflexivity. Qed.

(* ================================================================== *)
(** ** Local files: data URI round trip *)
(* ================================================================== *)

Lemma split_without sep a : ~ In sep a -> split sep a = [a].
Proof.
  induction a as [|c a IH]; simpl; intros H; auto.
  destruct (N.eqb_spec c sep) as [->|Hne]; [exfalso; auto|].
  rewrite IH; auto.
Qed.

Lemma split_at_first sep a b :
  ~ In sep a -> split sep (a ++ sep :: b) = a :: split sep b.
Proof.
  induction a as [|c a IH]; simpl; intros H.
  - now rewrite N.eqb_refl.
  - destruct (N.eqb_spec c sep) as [->|Hne]; [exfalso; auto|].
    rewrite IH; auto.
Qed.

Lemma base64_char_not_comma i : base64_char i <> comma.
Proof.
  unfold base64_char, comma, cu. simpl N_of_ascii.
  destruct (N.ltb_spec i 26); [lia|].
  destruct (N.ltb_spec i 52); [lia|].
  destruct (N.ltb_spec i 62); [lia|].
  destruct (N.eqb i 62); lia.
Qed.

Lemma base64_without_comma bs : ~ In comma (base64 bs).
Proof.
  induction bs as [bs IH] using length_ind.
  destruct bs as [|x [|y [|z rest]]]; simpl.
  - auto.
  - intros [H|[H|[H|[H|[]]]]];
      try (now apply base64_char_not_comma in H); discriminate H.
  - intros [H|[H|[H|[H|[]]]]];
      try (now apply base64_char_not_comma in H); discriminate H.
  - intros [H|[H|[H|[H|H]]]];
      try (now apply base64_char_not_comma in H).
    revert H. apply IH. simpl. lia.
Qed.

Lemma readAsDataURL_shape file :
  readAsDataURL file =
  (js "data:" ++ type file ++ js ";base64") ++ comma :: base64 (bytes file).
Proof.
  unfold readAsDataURL.
  change (js ";base64,") with (js ";base64" ++ [comma]).
  now rewrite <- !app_assoc.
Qed.

Lemma data_uri_payload file :
  ~ In comma (type file) ->
  at_index (split comma (readAsDataURL file)) 1 = Some (base64 (bytes file)).
Proof.
  intros Hm. rewrite readAsDataURL_shape, split_at_first.
  - now rewrite split_without by apply base64_without_comma.
  - rewrite !in_app_iff. intros [H|[H|H]]; auto.
    + simpl in H. unfold comma, cu in H. simpl in H. intuition discriminate.
    + simpl in H. unfold comma, cu in H. simpl in H. intuition discriminate.
Qed.

Lemma readAsDataURL_truthy file : truthy (readAsDataURL file) = true.
Proof. reflexivity. Qed.

Arguments split : simpl never.
Arguments readAsDataURL : simpl never.
Arguments at_index : simpl never.
Arguments editImageWithFlash : simpl never.

Lemma handleRemix_request (s : Session ImageStudio.State) src :
  ImageStudio.remixSource (ui s) = Some src ->
  truthy src = true ->
  exists later,
    trace (world (snd (ImageStudio.handleRemix s))) =
    trace (world s)
    ++ EvGenerateContent
         (editRequest (at_index (split comma src) 1)
            (ImageStudio.remixPrompt (ui s)))
    :: later.
Proof.
  intros Hsrc Ht. unfold ImageStudio.handleRemix. rewrite Hsrc, Ht.
  simpl negb. cbv iota.
  unfold bind, setUI, modify, finally, try_catch, liftW, updUI, alert. simpl.
  fold comma.
  unfold editImageWithFlash, bind, generateContent. simpl.
  destruct (content_replies (world s) (content_calls (world s))) as [resp|m]; simpl.
  - destruct (firstInlineImage (partsOf resp)); simpl.
    + exists []. reflexivity.
    + eexists. rewrite <- app_assoc. reflexivity.
  - eexists. rewrite <- app_assoc. reflexivity.
Qed.

(** C9.  A selected file read into [data:<mime>;base64,<payload>], with a
    MIME type free of commas: the second segment of the data URI split at
    commas is exactly the base64 payload, the file-change handler stores
    the data URI as remix source, and the remix handler attaches exactly
    that payload to its request. *)
Theorem data_uri_payload_round_trip :
  forall (file : File) (others : list File)
         (s : Session ImageStudio.State),
    ~ In comma (type file) ->
    let picked :=
      updUI (ImageStudio.handleFileChange (Some (file :: others))
               ImageStudio.setRemixSource) s in
    at_index (split comma (readAsDataURL file)) 1 = Some (base64 (bytes file))
    /\ ImageStudio.remixSource (ui picked) = Some (readAsDataURL file)
    /\ exists later,
         trace (world (snd (ImageStudio.handleRemix picked))) =
         trace (world s)
         ++ EvGenerateContent
              (editRequest (Some (base64 (bytes file)))
                 (ImageStudio.remixPrompt (ui s)))
         :: later.
Proof.
  intros file others s Hm picked.
  pose proof (data_uri_payload file Hm) as Hp.
  repeat split; auto.
  destruct (handleRemix_request picked (readAsDataURL file) eq_refl
              (readAsDataURL_truthy file)) as [later Hl].
  exists later. rewrite Hl, Hp. reflexivity.
Qed.

Lemma data_uri_payload_witness :
  readAsDataURL pixel = js "data:image/png;base64,iVBORw0KGg=="
  /\ at_index (split comma (readAsDataURL pixel)) 1 = Some (js "iVBORw0KGg==").
Proof.
  destruct (data_uri_payload_round_trip pixel [] remixSession) as (Hp & _).
  - unfold comma, cu. simpl. intuition discriminate.
  - split; [reflexivity | exact Hp].
Defined.

(* ================================================================== *)
(** ** Strategy screen: every path of [handleRun] *)
(* ================================================================== *)

Lemma generateContent_cases req w :
  (exists resp, content_replies w (content_calls w) = ContentOk resp
                /\ generateContent req w
                   = (Returned resp, next_content (log (EvGenerateContent req) w)))
  \/ (exists m, content_replies w (content_calls w) = ContentFail m
                /\ generateContent req w
                   = (Thrown (GatewayError m),
                      next_content (log (EvGenerateContent req) w))).
Proof.
  unfold generateContent.
  destruct (content_replies w (content_calls w)) as [resp|m]; eauto.
Qed.

Lemma generateContent_calls req w :
  content_calls (snd (generateContent req w)) = S (content_calls w)
  /\ video_calls (snd (generateContent req w)) = video_calls w
  /\ content_replies (snd (generateContent req w)) = content_replies w.
Proof.
  destruct (generateContent_cases req w) as [(r & _ & ->)|(m & _ & ->)];
    repeat split.
Qed.

Lemma generateStrategy_calls bn goals w :
  content_calls (snd (generateStrategy bn goals w)) = S (content_calls w)
  /\ video_calls (snd (generateStrategy bn goals w)) = video_calls w
  /\ fst (generateStrategy bn goals w) <> Pending.
Proof.
  unfold generateStrategy, bind.
  match goal with |- context [generateContent ?r w] =>
    destruct (generateContent_cases r w) as [(resp & _ & ->)|(m & _ & ->)] end;
    repeat split; discriminate.
Qed.

Lemma extractCampaignDetails_calls result w :
  content_calls (snd (extractCampaignDetails result w)) <= S (content_calls w)
  /\ video_calls (snd (extractCampaignDetails result w)) = video_calls w.
Proof.
  destruct result as [t|]; simpl; [|split; auto].
  unfold bind.
  destruct (generateContent_cases (extractionRequest t) w)
    as [(resp & _ & ->)|(m & _ & ->)].
  - unfold JSON_parse_async. destruct (JSON_parse _); simpl; split; auto.
  - simpl; split; auto.
Qed.

Lemma researchTrends_calls topic w :
  content_calls (snd (researchTrends topic w)) = S (content_calls w)
  /\ video_calls (snd (researchTrends topic w)) = video_calls w
  /\ alerts (trace (snd (researchTrends topic w))) = alerts (trace w)
  /\ fst (researchTrends topic w) <> Pending.
Proof.
  unfold researchTrends, bind.
  match goal with |- context [generateContent ?r w] =>
    destruct (generateContent_cases r w) as [(resp & _ & ->)|(m & _ & ->)] end;
    simpl; rewrite alerts_app, app_nil_r; repeat split; discriminate.
Qed.

Lemma handleRun_empty_brand (s : Session StrategyAgent.State) :
  truthy (StrategyAgent.brandName (ui s)) = false ->
  StrategyAgent.handleRun setCampaign s = (Returned tt, s).
Proof. intros H. unfold StrategyAgent.handleRun. now rewrite H. Qed.

Lemma handleRun_strategy_thrown (s : Session StrategyAgent.State) e w1 :
  truthy (StrategyAgent.brandName (ui s)) = true ->
  StrategyAgent.mode (ui s) = StrategyAgent.strategy ->
  generateStrategy (StrategyAgent.brandName (ui s)) (StrategyAgent.goals (ui s))
    (world s) = (Thrown e, w1) ->
  StrategyAgent.handleRun setCampaign s =
  (Returned tt, {| ui := failedUI e (ui s); store := store s; world := w1 |}).
Proof.
  intros Hb Hm Hg. unfold StrategyAgent.handleRun. rewrite Hb, Hm. simpl negb. cbv iota.
  unfold bind, setUI, modify, finally, try_catch, liftW, updUI. simpl.
  rewrite Hg. reflexivity.
Qed.

Lemma handleRun_research (s : Session StrategyAgent.State) :
  truthy (StrategyAgent.brandName (ui s)) = true ->
  StrategyAgent.mode (ui s) = StrategyAgent.research ->
  StrategyAgent.handleRun setCampaign s =
  match researchTrends (StrategyAgent.brandName (ui s)) (world s) with
  | (Returned report, w1) =>
      (Returned tt, {| ui := researchedUI report (ui s); store := store s; world := w1 |})
  | (Thrown e, w1) =>
      (Returned tt, {| ui := failedUI e (ui s); store := store s; world := w1 |})
  | (Pending, w1) =>
      (Pending, {| ui := StrategyAgent.setResearchUrls []
                           (StrategyAgent.setOutput []
                              (StrategyAgent.setLoading true (ui s)));
                   store := store s; world := w1 |})
  end.
Proof.
  intros Hb Hm. unfold StrategyAgent.handleRun. rewrite Hb, Hm. simpl negb. cbv iota.
  unfold bind, setUI, modify, finally, try_catch, liftW, updUI. simpl.
  destruct (researchTrends (StrategyAgent.brandName (ui s)) (world s)) as [[r|e|] w1];
    reflexivity.
Qed.

(** X1.  Every strategy-screen run completes normally, whatever the mode and
    whatever the gateway answers: with an empty brand name nothing changes
    at all; otherwise the loading flag ends false, at most two content
    requests and no video request were made, and no alert was raised. *)
Theorem strategy_run_always_returns_to_idle :
  forall s : Session StrategyAgent.State,
    let after := StrategyAgent.handleRun setCampaign s in
    fst after = Returned tt
    /\ (truthy (StrategyAgent.brandName (ui s)) = false -> snd after = s)
    /\ (truthy (StrategyAgent.brandName (ui s)) = true ->
        StrategyAgent.loading (ui (snd after)) = false)
    /\ content_calls (world (snd after)) <= content_calls (world s) + 2
    /\ video_calls (world (snd after)) = video_calls (world s)
    /\ alerts (trace (world (snd after))) = alerts (trace (world s)).
Proof.
  intros s after. subst after.
  destruct (truthy (StrategyAgent.brandName (ui s))) eqn:Hb.
  2:{ rewrite handleRun_empty_brand by auto. simpl.
      repeat split; auto; try discriminate; lia. }
  destruct (StrategyAgent.mode (ui s)) eqn:Hm.
  - pose proof (generateStrategy_calls (StrategyAgent.brandName (ui s))
                  (StrategyAgent.goals (ui s)) (world s)) as (Hc & Hv & Hp).
    pose proof (generateStrategy_trace (StrategyAgent.brandName (ui s))
                  (StrategyAgent.goals (ui s)) (world s)) as Ha.
    destruct (generateStrategy (StrategyAgent.brandName (ui s))
                (StrategyAgent.goals (ui s)) (world s)) as [[result|e|] w1] eqn:Hg;
      simpl in Hc, Hv, Hp, Ha; [| |congruence].
    + rewrite (handleRun_strategy s result w1 Hb Hm Hg).
      pose proof (extractCampaignDetails_calls result w1) as (Hc' & Hv').
      pose proof (extractCampaignDetails_alerts result w1) as Ha'.
      pose proof (extractCampaignDetails_not_pending result w1) as Hp'.
      destruct (extractCampaignDetails result w1) as [[v|e|] w2];
        simpl in *; [| |congruence].
      * repeat split; auto; try discriminate; try lia; congruence.
      * rewrite alerts_app, app_nil_r.
        repeat split; auto; try discriminate; try lia; congruence.
    + rewrite (handleRun_strategy_thrown s e w1 Hb Hm Hg). simpl.
      repeat split; auto; try discriminate; lia.
  - rewrite (handleRun_research s Hb Hm).
    pose proof (researchTrends_calls (StrategyAgent.brandName (ui s)) (world s))
      as (Hc & Hv & Ha & Hp).
    destruct (researchTrends (StrategyAgent.brandName (ui s)) (world s))
      as [[r|e|] w1]; simpl in *; [| |congruence];
      repeat split; auto; try discriminate; lia.
Qed.

(** X2.  When the first gateway call of a run fails (strategy or research
    mode), the screen shows [Error: ] followed by the message, the source
    list is empty, the Campaign Store is untouched, and that one request is
    all the run did: no extraction is attempted and nothing is logged. *)
Theorem strategy_call_failure_is_shown_inline :
  forall (s : Session StrategyAgent.State) (m : jsstring),
    truthy (StrategyAgent.brandName (ui s)) = true ->
    content_replies (world s) (content_calls (world s)) = ContentFail m ->
    let after := snd (StrategyAgent.handleRun setCampaign s) in
    StrategyAgent.output (ui after) = js "Error: " ++ m
    /\ StrategyAgent.researchUrls (ui after) = []
    /\ StrategyAgent.loading (ui after) = false
    /\ store after = store s
    /\ content_calls (world after) = S (content_calls (world s))
    /\ exists req, trace (world after) = trace (world s) ++ [EvGenerateContent req].
Proof.
  intros s m Hb Hr after. subst after.
  destruct (StrategyAgent.mode (ui s)) eqn:Hm.
  - rewrite (handleRun_strategy_thrown s (GatewayError m)
               (snd (generateStrategy (StrategyAgent.brandName (ui s))
                       (StrategyAgent.goals (ui s)) (world s))) Hb Hm).
    + unfold generateStrategy, bind, generateContent. rewrite Hr. simpl.
      repeat split; eauto.
    + unfold generateStrategy, bind, generateContent. rewrite Hr. reflexivity.
  - rewrite (handleRun_research s Hb Hm).
    unfold researchTrends, bind, generateContent. rewrite Hr. simpl.
    repeat split; eauto.
Qed.

Lemma webLinks_In chunks link :
  In link (webLinks chunks) <->
  exists chunk w, In chunk chunks /\ web chunk = Some w
                  /\ link = {| title := title w; webUri := webUri w |}.
Proof.
  induction chunks as [|c chunks IH]; simpl.
  - split; [tauto | intros (? & ? & [] & _)].
  - destruct (web c) as [w|] eqn:E; simpl; rewrite IH; split.
    + intros [<-|(chunk & w' & Hin & Hw & ->)]; eauto 6.
    + intros (chunk & w' & [<-|Hin] & Hw & ->); [left; congruence | right; eauto].
    + intros (chunk & w' & Hin & Hw & ->); eauto 6.
    + intros (chunk & w' & [<-|Hin] & Hw & ->); [congruence | eauto].
Qed.

Lemma webLinks_length chunks : length (webLinks chunks) <= length chunks.
Proof.
  induction chunks as [|c chunks IH]; simpl; auto.
  destruct (web c); simpl; lia.
Qed.

Lemma webLinks_flat_map chunks :
  webLinks chunks =
  flat_map (fun chunk => match web chunk with
                         | Some w => [{| title := title w; webUri := webUri w |}]
                         | None => []
                         end) chunks.
Proof.
  induction chunks as [|c chunks IH]; simpl; auto.
  destruct (web c); simpl; now rewrite IH.
Qed.

Lemma webLinks_app a b : webLinks (a ++ b) = webLinks a ++ webLinks b.
Proof.
  induction a as [|c a IH]; simpl; auto. destruct (web c); simpl; now rewrite IH.
Qed.

(** X3.  A research run shows the response text, or [No trends found.]
    when there is none, so never an empty report; its source list is, in
    order, one link for each grounding chunk of the first candidate that
    has a [web] entry and nothing for the others; the Campaign Store is
    untouched. *)
Theorem research_run_lists_web_sources :
  forall (s : Session StrategyAgent.State) (resp : GenerateContentResponse),
    truthy (StrategyAgent.brandName (ui s)) = true ->
    StrategyAgent.mode (ui s) = StrategyAgent.research ->
    content_replies (world s) (content_calls (world s)) = ContentOk resp ->
    let after := snd (StrategyAgent.handleRun setCampaign s) in
    let links := StrategyAgent.researchUrls (ui after) in
    StrategyAgent.output (ui after)
      = or_else (responseText resp) (js "No trends found.")
    /\ truthy (StrategyAgent.output (ui after)) = true
    /\ links =
       flat_map (fun chunk =>
                   match web chunk with
                   | Some w => [{| title := title w; webUri := webUri w |}]
                   | None => []
                   end) (groundingChunksOf resp)
    /\ (forall link,
          In link links <->
          exists chunk w, In chunk (groundingChunksOf resp) /\ web chunk = Some w
                          /\ link = {| title := title w; webUri := webUri w |})
    /\ length links <= length (groundingChunksOf resp)
    /\ store after = store s
    /\ content_calls (world after) = S (content_calls (world s)).
Proof.
  intros s resp Hb Hm Hr after links. subst links after.
  rewrite (handleRun_research s Hb Hm).
  unfold researchTrends, bind, generateContent. rewrite Hr. simpl.
  repeat split; auto.
  - unfold or_else. destruct (responseText resp) as [t|]; [|reflexivity].
    destruct (truthy t) eqn:E; auto.
  - apply webLinks_flat_map.
  - apply webLinks_In.
  - apply webLinks_In.
  - apply webLinks_length.
Qed.

(** X4.  A strategy-screen run does not depend on the campaign stored
    before it: started from any other store content it ends with the same
    outcome, screen and world, and either both runs stored the same new
    campaign or both left their store as it was (last write wins, nothing
    is merged). *)
Theorem strategy_run_never_reads_the_store :
  forall (s : Session StrategyAgent.State) (old : option JSValue),
    let run := StrategyAgent.handleRun setCampaign s in
    let run' := StrategyAgent.handleRun setCampaign (withStore old s) in
    fst run' = fst run
    /\ ui (snd run') = ui (snd run)
    /\ world (snd run') = world (snd run)
    /\ ((exists activated, store (snd run) = Some activated
                           /\ store (snd run') = Some activated)
        \/ (store (snd run) = store s /\ store (snd run') = old)).
Proof.
  intros s old run run'. subst run run'.
  destruct (truthy (StrategyAgent.brandName (ui s))) eqn:Hb.
  2:{ rewrite !handleRun_empty_brand by auto. simpl. repeat split; auto. }
  destruct (StrategyAgent.mode (ui s)) eqn:Hm.
  - destruct (generateStrategy (StrategyAgent.brandName (ui s))
                (StrategyAgent.goals (ui s)) (world s)) as [[result|e|] w1] eqn:Hg.
    + rewrite (handleRun_strategy s result w1 Hb Hm Hg).
      rewrite (handleRun_strategy (withStore old s) result w1 Hb Hm Hg).
      destruct (extractCampaignDetails result w1) as [[v|e|] w2]; simpl;
        repeat split; eauto.
    + rewrite (handleRun_strategy_thrown s e w1 Hb Hm Hg).
      rewrite (handleRun_strategy_thrown (withStore old s) e w1 Hb Hm Hg).
      simpl. repeat split; auto.
    + exfalso.
      apply (proj2 (proj2 (generateStrategy_calls (StrategyAgent.brandName (ui s))
                             (StrategyAgent.goals (ui s)) (world s)))).
      now rewrite Hg.
  - rewrite (handleRun_research s Hb Hm), (handleRun_research (withStore old s) Hb Hm).
    simpl.
    destruct (researchTrends (StrategyAgent.brandName (ui s)) (world s))
      as [[r|e|] w1]; simpl; repeat split; auto.
Qed.

(** X5.  In the activated campaign [{ ...details, brandName }] the brand
    name is always the one typed on the screen, also when the payload has a
    [brandName] of its own; every other property of an object payload is
    kept, and a null, boolean or numeric payload contributes none. *)
Theorem activation_brand_name_wins :
  forall (details : JSValue) (bn : jsstring),
    prop (js "brandName") (StrategyAgent.activation details bn) = Some (JString bn)
    /\ (forall ms key,
          details = JObject ms -> key <> js "brandName" ->
          prop key (StrategyAgent.activation details bn) = lookup key ms)
    /\ (forall key,
          (details = JNull \/ (exists b, details = JBool b)
           \/ (exists n, details = JNumber n)) ->
          key <> js "brandName" ->
          prop key (StrategyAgent.activation details bn) = None).
Proof.
  intros details bn. split; [apply prop_activation_brandName|]. split.
  - intros ms key -> Hk. unfold StrategyAgent.activation, prop. cbn [spread].
    rewrite lookup_app_last.
    destruct (str_eqb (js "brandName") key) eqn:E; auto.
    apply str_eqb_eq in E. congruence.
  - intros key Hd Hk. unfold StrategyAgent.activation, prop.
    assert (spread details = []) as ->
        by (destruct Hd as [->|[[b ->]|[n ->]]]; reflexivity).
    rewrite (lookup_app_last key (js "brandName") (JString bn) []).
    destruct (str_eqb (js "brandName") key) eqn:E; auto.
    apply str_eqb_eq in E. congruence.
Qed.

Lemma activation_brand_name_witness :
  prop (js "brandName") (StrategyAgent.activation impostor (js "Acme"))
    = Some (JString (js "Acme"))
  /\ prop (js "visualStyle") (StrategyAgent.activation impostor (js "Acme"))
    = Some (JString (js "pastel")).
Proof.
  destruct (activation_brand_name_wins impostor (js "Acme")) as (Hb & Ho & _).
  split; [exact Hb|].
  rewrite (Ho _ (js "visualStyle") eq_refl); [reflexivity | discriminate].
Defined.

Lemma extractCampaignDetails_trace t w :
  trace (snd (extractCampaignDetails (Some t) w))
  = trace w ++ [EvGenerateContent (extractionRequest t)].
Proof.
  simpl. unfold bind, generateContent.
  destruct (content_replies w _); simpl; auto.
  unfold JSON_parse_async. destruct (JSON_parse _); reflexivity.
Qed.

(** X6.  When the strategy call answers without text or with empty text
    the screen shows [No strategy generated.].  Without text the extractor
    throws before any request: one request in all, a [TypeError] logged,
    the store untouched.  With empty text the extraction request is still
    issued, for the empty strategy. *)
Theorem empty_strategy_answer_and_extraction :
  forall (s : Session StrategyAgent.State) (resp : GenerateContentResponse),
    truthy (StrategyAgent.brandName (ui s)) = true ->
    StrategyAgent.mode (ui s) = StrategyAgent.strategy ->
    content_replies (world s) (content_calls (world s)) = ContentOk resp ->
    truthy_opt (responseText resp) = false ->
    let after := snd (StrategyAgent.handleRun setCampaign s) in
    let asked :=
      EvGenerateContent
        (strategyRequest (StrategyAgent.brandName (ui s)) (StrategyAgent.goals (ui s))) in
    StrategyAgent.output (ui after) = js "No strategy generated."
    /\ (responseText resp = None ->
        trace (world after) =
          trace (world s)
          ++ [asked; EvConsoleError (Some extractionLabel) TypeError]
        /\ content_calls (world after) = S (content_calls (world s))
        /\ store after = store s)
    /\ (responseText resp = Some [] ->
        exists later,
          trace (world after) =
            trace (world s)
            ++ asked :: EvGenerateContent (extractionRequest []) :: later).
Proof.
  intros s resp Hb Hm Hr Ht after asked. subst after asked.
  assert (Hg : generateStrategy (StrategyAgent.brandName (ui s))
                 (StrategyAgent.goals (ui s)) (world s)
               = (Returned (responseText resp),
                  next_content
                    (log (EvGenerateContent
                            (strategyRequest (StrategyAgent.brandName (ui s))
                               (StrategyAgent.goals (ui s)))) (world s)))).
  { unfold generateStrategy, bind, generateContent. rewrite Hr. reflexivity. }
  rewrite (handleRun_strategy s _ _ Hb Hm Hg).
  destruct (responseText resp) as [t|] eqn:Et.
  - simpl in Ht.
    match goal with |- context [extractCampaignDetails (Some t) ?w1] =>
      pose proof (extractCampaignDetails_trace t w1) as Htr;
      pose proof (extractCampaignDetails_not_pending (Some t) w1) as Hp;
      destruct (extractCampaignDetails (Some t) w1) as [[v|e|] w2]
    end; cbn [fst snd ui world trace log next_content] in *; [| |congruence];
      (split; [unfold strategyOutput, or_else; cbn; now rewrite Ht|]);
      (split; [discriminate|]); intros [= ->];
      rewrite Htr, <- ?app_assoc; eexists; reflexivity.
  - cbn [extractCampaignDetails throw fst snd ui world store trace log next_content
           content_calls].
    split; [reflexivity|]. split; [|discriminate]. intros _.
    rewrite <- app_assoc. repeat split.
Qed.

Lemma empty_strategy_answer_witness :
  let s := acmeSession [ContentOk {| responseText := None; candidates := None |}] in
  let after := snd (StrategyAgent.handleRun setCampaign s) in
  StrategyAgent.output (ui after) = js "No strategy generated."
  /\ store after = Some earlierCampaign
  /\ content_calls (world after) = 1.
Proof.
  intros s after.
  destruct (empty_strategy_answer_and_extraction s
              {| responseText := None; candidates := None |}
              eq_refl eq_refl eq_refl eq_refl) as (H1 & H2 & _).
  destruct (H2 eq_refl) as (_ & Hc & Hs).
  split; [exact H1 | split; [exact Hs | exact Hc]].
Defined.

(* ================================================================== *)
(** ** Video job and video screen: failures, results, loading *)
(* ================================================================== *)

Lemma poll_step_failure fuel op m w :
  done op = false ->
  video_replies w (video_calls w) = VideoFail m ->
  poll (S fuel) op w =
  (Thrown (GatewayError m),
   after_video w 1 [EvSetTimeout 5000; EvGetVideosOperation op]).
Proof.
  intros Hd Hr. simpl. rewrite Hd.
  unfold bind, sleep, emit, modify, getVideosOperation. simpl. rewrite Hr.
  f_equal. unfold after_video, next_video, log. simpl.
  rewrite Nat.add_1_r, <- app_assoc. reflexivity.
Qed.

Lemma poll_fails rest : forall cur m w fuel,
  Forall pending (cur :: rest) ->
  scripted_failure w rest m ->
  S (length rest) <= fuel ->
  poll fuel cur w =
  (Thrown (GatewayError m),
   after_video w (S (length rest)) (poll_events (cur :: rest))).
Proof.
  induction rest as [|nxt rest IH]; intros cur m w fuel Hp [Hs Hf] Hl;
    inversion Hp as [|? ? Hcur Hrest]; subst;
    (destruct fuel as [|fuel]; [lia|]).
  - simpl in Hf. rewrite Nat.add_0_r in Hf.
    rewrite (poll_step_failure fuel cur m w); auto.
  - rewrite (poll_step fuel cur nxt w); auto.
    2:{ specialize (Hs 0 nxt eq_refl). now rewrite Nat.add_0_r in Hs. }
    rewrite (IH nxt m); auto.
    + rewrite after_video_compose. reflexivity.
    + split.
      * intros i op Hi. simpl. rewrite <- (Hs (S i) op Hi). f_equal. lia.
      * simpl. rewrite <- Hf. f_equal. simpl. lia.
    + simpl in Hl. lia.
Qed.

Lemma generateVideos_run_failure req m w :
  video_replies w (video_calls w) = VideoFail m ->
  generateVideos req w =
  (Thrown (GatewayError m), after_video w 1 [EvGenerateVideos req]).
Proof.
  intros H. unfold generateVideos. rewrite H.
  unfold after_video, next_video, log; simpl. now rewrite Nat.add_1_r.
Qed.

Lemma videoJob_fails req failure w statuses m fuel :
  scripted_failure w statuses m -> Forall pending statuses ->
  length statuses <= fuel ->
  videoJob req failure fuel w =
  (Thrown (GatewayError m),
   after_video w (S (length statuses)) (job_events w req statuses)).
Proof.
  intros [Hs Hf] Hp Hl. unfold videoJob, bind.
  rewrite ensurePaidApiKey_run.
  destruct statuses as [|cur rest].
  - rewrite (generateVideos_run_failure req m).
    2:{ simpl in *. now rewrite !Nat.add_0_r in *. }
    rewrite after_video_compose. unfold job_events. simpl.
    rewrite ?app_nil_r. reflexivity.
  - rewrite (generateVideos_run req cur).
    2:{ simpl. specialize (Hs 0 cur eq_refl). now rewrite !Nat.add_0_r in *. }
    rewrite after_video_compose.
    rewrite (poll_fails rest cur m); auto.
    + rewrite after_video_compose. unfold job_events.
      rewrite <- app_assoc. reflexivity.
    + split.
      * intros i op Hi. simpl. rewrite <- (Hs (S i) op Hi). f_equal. lia.
      * simpl. rewrite <- Hf. f_equal. simpl. lia.
Qed.

(** X7.  Both video functions: when the gateway fails after reporting the
    not-done statuses [statuses] (at the submission when there are none),
    the run throws that gateway error, having made one re-query per status
    reported, the last of which failed; no URL is delivered. *)
Theorem video_run_rethrows_gateway_failure :
  forall (w : World) (statuses : list Operation) (m : jsstring) (fuel : nat),
    scripted_failure w statuses m ->
    Forall pending statuses ->
    length statuses <= fuel ->
    (forall prompt ar,
        let run := generateVideoFromPrompt fuel prompt ar w in
        fst run = Thrown (GatewayError m)
        /\ trace (snd run) =
           trace w ++ job_events w (textToVideoRequest prompt ar) statuses
        /\ requeries (trace (snd run)) = requeries (trace w) + length statuses)
    /\ (forall img prompt ar,
        let run := animateImageWithVeo fuel img prompt ar w in
        fst run = Thrown (GatewayError m)
        /\ trace (snd run) =
           trace w ++ job_events w (imageToVideoRequest img prompt ar) statuses
        /\ requeries (trace (snd run)) = requeries (trace w) + length statuses).
Proof.
  intros w statuses m fuel Hs Hp Hl. split; intros; subst run.
  - rewrite generateVideoFromPrompt_job, (videoJob_fails _ _ w statuses m fuel); auto.
    simpl. now rewrite requeries_app, requeries_job_events.
  - rewrite animateImageWithVeo_job, (videoJob_fails _ _ w statuses m fuel); auto.
    simpl. now rewrite requeries_app, requeries_job_events.
Qed.

Lemma video_run_rethrows_witness :
  let w := mockWorld (failingScript [pendingOp] (js "quota exceeded")) in
  let run := generateVideoFromPrompt 4 (js "drone shot") Ratio16_9 w in
  fst run = Thrown (GatewayError (js "quota exceeded"))
  /\ requeries (trace (snd run)) = 1.
Proof.
  intros w run.
  assert (Hs : scripted_failure w [pendingOp] (js "quota exceeded")).
  { split; [|reflexivity]. intros i op H. simpl. unfold failingScript. now rewrite H. }
  destruct (video_run_rethrows_gateway_failure w [pendingOp] (js "quota exceeded") 4
              Hs ltac:(repeat constructor) ltac:(simpl; lia)) as [Hgen _].
  destruct (Hgen (js "drone shot") Ratio16_9) as (Ho & _ & Hc).
  split; [exact Ho | exact Hc].
Defined.

Lemma alerts_job_events w req polled : alerts (job_events w req polled) = [].
Proof.
  unfold job_events. rewrite !alerts_app.
  assert (alerts (ensure_events w) = []) as ->
      by (unfold ensure_events; destruct (aistudio w) as [[|]|]; reflexivity).
  assert (alerts (poll_events polled) = []) as ->
      by (induction polled; simpl; auto).
  reflexivity.
Qed.

Lemma handleGenerate_text (fuel : nat) (s : Session VideoLab.State) :
  VideoLab.activeTab (ui s) = VideoLab.text_to_video ->
  VideoLab.handleGenerate fuel s =
  match generateVideoFromPrompt fuel (VideoLab.prompt (ui s))
          (VideoLab.aspectRatio (ui s)) (world s) with
  | (Returned url, w1) =>
      (Returned tt,
       {| ui := idleUI (VideoLab.setVideoResult (Some url) (textStartedUI (ui s)));
          store := store s; world := w1 |})
  | (Thrown e, w1) =>
      (Returned tt,
       {| ui := idleUI (textStartedUI (ui s));
          store := store s; world := log (EvAlert (message e)) w1 |})
  | (Pending, w1) =>
      (Pending, {| ui := textStartedUI (ui s); store := store s; world := w1 |})
  end.
Proof.
  intros Ht. unfold VideoLab.handleGenerate. rewrite Ht.
  unfold bind, setUI, modify, finally, try_catch, liftW, updUI, alert, emit, modify.
  cbn [ui store world fst snd].
  destruct (generateVideoFromPrompt fuel (VideoLab.prompt (ui s))
              (VideoLab.aspectRatio (ui s)) (world s)) as [[url|e|] w1]; reflexivity.
Qed.

(** X8.  Video screen, text-to-video, on a job that completes: the handler
    returns with the loading flag off, the status line empty and the prompt
    kept; with a download link the result is that link with the key
    appended and no alert is raised, without one the result stays empty and
    the alert [Video generation failed] is raised. *)
Theorem video_screen_shows_result_or_alert :
  forall (s : Session VideoLab.State) (polled : list Operation) (fin : Operation)
         (fuel : nat),
    VideoLab.activeTab (ui s) = VideoLab.text_to_video ->
    scripted (world s) (polled ++ [fin]) ->
    Forall pending polled ->
    done fin = true ->
    length polled <= fuel ->
    let after := VideoLab.handleGenerate fuel s in
    fst after = Returned tt
    /\ VideoLab.loading (ui (snd after)) = false
    /\ VideoLab.status (ui (snd after)) = []
    /\ VideoLab.prompt (ui (snd after)) = VideoLab.prompt (ui s)
    /\ (if hasDownloadLink fin
        then VideoLab.videoResult (ui (snd after))
             = Some (tpl (downloadLink fin) ++ js "&key=" ++ tpl (API_KEY (world s)))
             /\ alerts (trace (world (snd after))) = alerts (trace (world s))
        else VideoLab.videoResult (ui (snd after)) = None
             /\ alerts (trace (world (snd after)))
                = alerts (trace (world s)) ++ [js "Video generation failed"]).
Proof.
  intros s polled fin fuel Ht Hs Hp Hd Hf after. subst after.
  rewrite (handleGenerate_text fuel s Ht).
  pose proof (videoJob_outcome (world s) polled fin fuel Hs Hp Hd Hf
                (textToVideoRequest (VideoLab.prompt (ui s)) (VideoLab.aspectRatio (ui s)))
                (js "Video generation failed")) as Ho.
  pose proof (videoJob_trace (world s) polled fin fuel Hs Hp Hd Hf
                (textToVideoRequest (VideoLab.prompt (ui s)) (VideoLab.aspectRatio (ui s)))
                (js "Video generation failed")) as Htr.
  rewrite <- generateVideoFromPrompt_job in Ho, Htr.
  destruct (generateVideoFromPrompt fuel (VideoLab.prompt (ui s))
              (VideoLab.aspectRatio (ui s)) (world s)) as [[url|e|] w1];
    simpl in Ho, Htr; destruct (hasDownloadLink fin); try discriminate;
    simpl; repeat split; auto.
  - injection Ho as ->. reflexivity.
  - now rewrite Htr, alerts_app, alerts_job_events, app_nil_r.
  - rewrite alerts_app, Htr, alerts_app, alerts_job_events, app_nil_r.
    injection Ho as ->. reflexivity.
Qed.

(** X9.  Video screen, text-to-video, on a job that never completes:
    whatever the bound on the loop, the handler has not returned, the
    loading flag is on, the status line still announces the generation, and
    there is neither a result nor an alert. *)
Theorem video_screen_stays_loading_while_job_pending :
  forall (s : Session VideoLab.State) (statuses : nat -> Operation),
    VideoLab.activeTab (ui s) = VideoLab.text_to_video ->
    (forall i, video_replies (world s) (video_calls (world s) + i)
               = VideoOp (statuses i)) ->
    (forall i, done (statuses i) = false) ->
    forall fuel : nat,
      let after := VideoLab.handleGenerate fuel s in
      fst after = Pending
      /\ VideoLab.loading (ui (snd after)) = true
      /\ VideoLab.status (ui (snd after)) = generatingStatus
      /\ VideoLab.videoResult (ui (snd after)) = None
      /\ alerts (trace (world (snd after))) = alerts (trace (world s)).
Proof.
  intros s sts Ht Hr Hd fuel after. subst after.
  rewrite (handleGenerate_text fuel s Ht).
  rewrite generateVideoFromPrompt_job, (videoJob_pending _ _ (world s) sts fuel Hr Hd).
  simpl. repeat split.
  now rewrite alerts_app, alerts_job_events, app_nil_r.
Qed.

(** X10.  Video screen, outside the text-to-video tab and without a source
    image: the only thing the handler does is alert [Image required]; no
    key check, no gateway call; it ends idle with no result. *)
Theorem video_screen_requires_source_image :
  forall (s : Session VideoLab.State) (fuel : nat),
    VideoLab.activeTab (ui s) <> VideoLab.text_to_video ->
    truthy_opt (VideoLab.sourceImage (ui s)) = false ->
    let after := VideoLab.handleGenerate fuel s in
    fst after = Returned tt
    /\ trace (world (snd after)) = trace (world s) ++ [EvAlert (js "Image required")]
    /\ video_calls (world (snd after)) = video_calls (world s)
    /\ VideoLab.videoResult (ui (snd after)) = None
    /\ VideoLab.loading (ui (snd after)) = false
    /\ VideoLab.status (ui (snd after)) = [].
Proof.
  intros s fuel Ht Hi after. subst after.
  unfold VideoLab.handleGenerate.
  destruct (VideoLab.activeTab (ui s)) eqn:E; [congruence| |];
    destruct (VideoLab.sourceImage (ui s)) as [src|] eqn:Es; simpl in Hi;
    try rewrite Hi; repeat split.
Qed.

Lemma poll_trace_extends fuel : forall op w,
  exists later, trace (snd (poll fuel op w)) = trace w ++ later.
Proof.
  induction fuel as [|fuel IH]; intros op w; simpl; destruct (done op).
  - exists []. simpl. now rewrite app_nil_r.
  - exists []. simpl. now rewrite app_nil_r.
  - exists []. simpl. now rewrite app_nil_r.
  - unfold bind, sleep, emit, modify, getVideosOperation. simpl.
    destruct (video_replies w (video_calls w)) as [op'|m].
    + match goal with |- context [poll fuel op' ?w1] => destruct (IH op' w1) as [l Hl] end.
      rewrite Hl. simpl. rewrite <- !app_assoc. eexists; reflexivity.
    + simpl. rewrite <- app_assoc. eexists; reflexivity.
Qed.

Lemma videoJob_opens_with_request req failure fuel w :
  exists later,
    trace (snd (videoJob req failure fuel w)) =
    trace w ++ ensure_events w ++ EvGenerateVideos req :: later.
Proof.
  unfold videoJob, bind. rewrite ensurePaidApiKey_run.
  unfold generateVideos. cbn [video_replies video_calls after_video].
  rewrite Nat.add_0_r.
  destruct (video_replies w (video_calls w)) as [op|m].
  - match goal with |- context [poll fuel op ?w1] =>
      destruct (poll_trace_extends fuel op w1) as [l Hl];
      destruct (poll fuel op w1) as [[fin|e|] w2] end; simpl in Hl |- *.
    + rewrite deliver_world, Hl. rewrite <- !app_assoc. eexists; reflexivity.
    + rewrite Hl. rewrite <- !app_assoc. eexists; reflexivity.
    + rewrite Hl. rewrite <- !app_assoc. eexists; reflexivity.
  - simpl. rewrite <- !app_assoc. eexists; reflexivity.
Qed.

Lemma handleGenerate_image (fuel : nat) (s : Session VideoLab.State) src :
  VideoLab.activeTab (ui s) <> VideoLab.text_to_video ->
  VideoLab.sourceImage (ui s) = Some src ->
  truthy src = true ->
  exists later,
    trace (world (snd (VideoLab.handleGenerate fuel s))) =
    trace (snd (animateImageWithVeo fuel (at_index (split comma src) 1)
                  (Some (VideoLab.prompt (ui s))) (VideoLab.aspectRatio (ui s))
                  (world s)))
    ++ later.
Proof.
  intros Ht Hs Hsrc.
  remember (animateImageWithVeo fuel (at_index (split comma src) 1)
              (Some (VideoLab.prompt (ui s))) (VideoLab.aspectRatio (ui s))
              (world s)) as run eqn:Erun.
  unfold VideoLab.handleGenerate. rewrite Hs.
  unfold bind, setUI, modify, finally, try_catch, liftW, updUI, alert, emit, modify.
  cbn [ui store world fst snd].
  destruct (VideoLab.activeTab (ui s)); [congruence| |]; rewrite Hsrc;
    change (negb true) with false; cbv beta iota; cbn [ui store world fst snd];
    match goal with |- context [animateImageWithVeo ?f ?a ?b ?c ?d] =>
      replace (animateImageWithVeo f a b c d) with run by (rewrite Erun; reflexivity)
    end;
    destruct run as [[url|e|] w1]; simpl;
    solve [exists []; now rewrite app_nil_r | eexists; reflexivity].
Qed.

(** X11.  Video screen, image-to-video: after a file with a comma-free MIME
    type is picked, the submission carries exactly the base64 payload of
    that file, declared as [image/png] whatever the file's type, with the
    typed prompt or, when that is empty, [Animate this image
    cinematically]; the key check comes first. *)
Theorem image_to_video_request_carries_file_payload :
  forall (file : File) (others : list File) (s : Session VideoLab.State)
         (fuel : nat),
    ~ In comma (type file) ->
    VideoLab.activeTab (ui s) = VideoLab.image_to_video ->
    let picked := updUI (VideoLab.handleImageUpload (Some (file :: others))) s in
    let req := imageToVideoRequest (Some (base64 (bytes file)))
                 (Some (VideoLab.prompt (ui s))) (VideoLab.aspectRatio (ui s)) in
    VideoLab.sourceImage (ui picked) = Some (readAsDataURL file)
    /\ (exists later,
          trace (world (snd (VideoLab.handleGenerate fuel picked))) =
          trace (world s) ++ ensure_events (world s)
            ++ EvGenerateVideos req :: later)
    /\ image req = Some {| imageBytes := Some (base64 (bytes file));
                           imageMimeType := js "image/png" |}
    /\ videoPrompt req
       = (if truthy (VideoLab.prompt (ui s)) then VideoLab.prompt (ui s)
          else js "Animate this image cinematically").
Proof.
  intros file others s fuel Hm Ht picked req.
  split; [reflexivity|]. split; [|split; reflexivity].
  destruct (handleGenerate_image fuel picked (readAsDataURL file)) as [l1 H1];
    try reflexivity.
  { subst picked. simpl. rewrite Ht. discriminate. }
  rewrite (data_uri_payload file Hm) in H1.
  rewrite animateImageWithVeo_job in H1.
  match type of H1 with context [videoJob ?r ?f fuel ?w] =>
    destruct (videoJob_opens_with_request r f fuel w) as [l2 H2] end.
  rewrite H2 in H1. exists (l2 ++ l1). rewrite H1. subst picked req. simpl.
  now rewrite <- !app_assoc.
Qed.

(* ================================================================== *)
(** ** Image screen and auto-fill *)
(* ================================================================== *)

Lemma alerts_ensure_events w : alerts (ensure_events w) = [].
Proof. unfold ensure_events; destruct (aistudio w) as [[|]|]; reflexivity. Qed.

Lemma generateProImage_run prompt ar size w :
  fst (generateProImage prompt ar size w) =
    match content_replies w (content_calls w) with
    | ContentOk resp =>
        match firstInlineImage (partsOf resp) with
        | Some dataUri => Returned dataUri
        | None => Thrown (Error (js "No image generated"))
        end
    | ContentFail m => Thrown (GatewayError m)
    end
  /\ trace (snd (generateProImage prompt ar size w)) =
     trace w ++ ensure_events w ++ [EvGenerateContent (imageRequest prompt ar size)]
  /\ content_calls (snd (generateProImage prompt ar size w)) = S (content_calls w)
  /\ video_calls (snd (generateProImage prompt ar size w)) = video_calls w.
Proof.
  unfold generateProImage, bind. rewrite ensurePaidApiKey_run.
  unfold generateContent. cbn [content_replies content_calls after_video].
  destruct (content_replies w (content_calls w)) as [resp|m].
  - destruct (firstInlineImage (partsOf resp)); simpl;
      rewrite <- app_assoc, Nat.add_0_r; repeat split.
  - simpl. rewrite <- app_assoc, Nat.add_0_r. repeat split.
Qed.

Lemma editImageWithFlash_run img prompt w :
  fst (editImageWithFlash img prompt w) =
    match content_replies w (content_calls w) with
    | ContentOk resp =>
        match firstInlineImage (partsOf resp) with
        | Some dataUri => Returned dataUri
        | None => Thrown (Error (js "No edited image returned"))
        end
    | ContentFail m => Thrown (GatewayError m)
    end
  /\ trace (snd (editImageWithFlash img prompt w)) =
     trace w ++ [EvGenerateContent (editRequest img prompt)]
  /\ content_calls (snd (editImageWithFlash img prompt w)) = S (content_calls w)
  /\ video_calls (snd (editImageWithFlash img prompt w)) = video_calls w.
Proof.
  unfold editImageWithFlash, bind, generateContent.
  destruct (content_replies w (content_calls w)) as [resp|m].
  - destruct (firstInlineImage (partsOf resp)); simpl; repeat split.
  - simpl. repeat split.
Qed.

Lemma image_handleGenerate_cases (s : Session ImageStudio.State) :
  ImageStudio.handleGenerate s =
  match generateProImage (ImageStudio.genPrompt (ui s))
          (ImageStudio.aspectRatio (ui s)) (ImageStudio.imageSize (ui s))
          (world s) with
  | (Returned uri, w1) =>
      (Returned tt,
       {| ui := ImageStudio.setLoading false
                  (ImageStudio.setGeneratedImg (Some uri)
                     (ImageStudio.setGeneratedImg None
                        (ImageStudio.setLoading true (ui s))));
          store := store s; world := w1 |})
  | (Thrown e, w1) =>
      (Returned tt,
       {| ui := ImageStudio.setLoading false
                  (ImageStudio.setGeneratedImg None
                     (ImageStudio.setLoading true (ui s)));
          store := store s; world := log (EvAlert (message e)) w1 |})
  | (Pending, w1) =>
      (Pending,
       {| ui := ImageStudio.setGeneratedImg None (ImageStudio.setLoading true (ui s));
          store := store s; world := w1 |})
  end.
Proof.
  unfold ImageStudio.handleGenerate.
  unfold bind, setUI, modify, finally, try_catch, liftW, updUI, alert, emit, modify.
  cbn [ui store world fst snd].
  destruct (generateProImage (ImageStudio.genPrompt (ui s))
              (ImageStudio.aspectRatio (ui s)) (ImageStudio.imageSize (ui s))
              (world s)) as [[uri|e|] w1]; reflexivity.
Qed.

(** X12.  Image screen, generation: the handler always returns with the
    loading flag off and the prompt kept, having made the key check and one
    request, never a second; the image slot holds the data URI exactly when
    the response has an inline part, and otherwise is empty and one alert
    is raised, [No image generated] or the gateway message. *)
Theorem image_screen_shows_image_or_alert :
  forall s : Session ImageStudio.State,
    let after := ImageStudio.handleGenerate s in
    let st := ui (snd after) in
    let requested :=
      trace (world s) ++ ensure_events (world s)
        ++ [EvGenerateContent
              (imageRequest (ImageStudio.genPrompt (ui s))
                 (ImageStudio.aspectRatio (ui s)) (ImageStudio.imageSize (ui s)))] in
    fst after = Returned tt
    /\ ImageStudio.loading st = false
    /\ ImageStudio.genPrompt st = ImageStudio.genPrompt (ui s)
    /\ match content_replies (world s) (content_calls (world s)) with
       | ContentOk resp =>
           match firstInlineImage (partsOf resp) with
           | Some uri =>
               ImageStudio.generatedImg st = Some uri
               /\ trace (world (snd after)) = requested
           | None =>
               ImageStudio.generatedImg st = None
               /\ trace (world (snd after))
                  = requested ++ [EvAlert (js "No image generated")]
           end
       | ContentFail m =>
           ImageStudio.generatedImg st = None
           /\ trace (world (snd after)) = requested ++ [EvAlert m]
       end.
Proof.
  intros s after st requested. subst st after requested.
  rewrite image_handleGenerate_cases.
  pose proof (generateProImage_run (ImageStudio.genPrompt (ui s))
                (ImageStudio.aspectRatio (ui s)) (ImageStudio.imageSize (ui s))
                (world s)) as (Ho & Ht & Hc & _).
  destruct (generateProImage (ImageStudio.genPrompt (ui s))
              (ImageStudio.aspectRatio (ui s)) (ImageStudio.imageSize (ui s))
              (world s)) as [[uri|e|] w1]; simpl in Ho, Ht, Hc;
    destruct (content_replies (world s) (content_calls (world s))) as [resp|m];
    try destruct (firstInlineImage (partsOf resp)) as [d|];
    try discriminate; try (injection Ho as Ho; subst);
    cbn [snd fst ui world trace log]; rewrite Ht; repeat split.
Qed.

Lemma image_handleRemix_cases (s : Session ImageStudio.State) src :
  ImageStudio.remixSource (ui s) = Some src ->
  truthy src = true ->
  ImageStudio.handleRemix s =
  match editImageWithFlash (at_index (split comma src) 1)
          (ImageStudio.remixPrompt (ui s)) (world s) with
  | (Returned uri, w1) =>
      (Returned tt,
       {| ui := ImageStudio.setLoading false
                  (ImageStudio.setRemixedImg (Some uri)
                     (ImageStudio.setRemixedImg None
                        (ImageStudio.setLoading true (ui s))));
          store := store s; world := w1 |})
  | (Thrown e, w1) =>
      (Returned tt,
       {| ui := ImageStudio.setLoading false
                  (ImageStudio.setRemixedImg None
                     (ImageStudio.setLoading true (ui s)));
          store := store s; world := log (EvAlert (message e)) w1 |})
  | (Pending, w1) =>
      (Pending,
       {| ui := ImageStudio.setRemixedImg None (ImageStudio.setLoading true (ui s));
          store := store s; world := w1 |})
  end.
Proof.
  intros Hs Ht.
  remember (editImageWithFlash (at_index (split comma src) 1)
              (ImageStudio.remixPrompt (ui s)) (world s)) as run eqn:Erun.
  unfold ImageStudio.handleRemix. rewrite Hs, Ht.
  change (negb true) with false. cbv beta iota.
  unfold bind, setUI, modify, finally, try_catch, liftW, updUI, alert, emit, modify.
  cbn [ui store world fst snd].
  match goal with |- context [editImageWithFlash ?a ?b ?c] =>
    replace (editImageWithFlash a b c) with run by (rewrite Erun; reflexivity)
  end.
  destruct run as [[uri|e|] w1]; reflexivity.
Qed.

(** X13.  Image screen, remix: without a source (absent or empty) the
    handler does nothing.  With a source it sends one edit request, carrying
    the second comma-separated segment of the source, with no key check; it
    keeps the source, ends with the loading flag off, and fills the result
    slot or raises one alert as generation does. *)
Theorem remix_screen_shows_image_or_alert :
  forall s : Session ImageStudio.State,
    let after := ImageStudio.handleRemix s in
    let st := ui (snd after) in
    fst after = Returned tt
    /\ (truthy_opt (ImageStudio.remixSource (ui s)) = false -> snd after = s)
    /\ (forall src,
          ImageStudio.remixSource (ui s) = Some src -> truthy src = true ->
          let requested :=
            trace (world s)
            ++ [EvGenerateContent
                  (editRequest (at_index (split comma src) 1)
                     (ImageStudio.remixPrompt (ui s)))] in
          ImageStudio.loading st = false
          /\ ImageStudio.remixSource st = Some src
          /\ match content_replies (world s) (content_calls (world s)) with
             | ContentOk resp =>
                 match firstInlineImage (partsOf resp) with
                 | Some uri =>
                     ImageStudio.remixedImg st = Some uri
                     /\ trace (world (snd after)) = requested
                 | None =>
                     ImageStudio.remixedImg st = None
                     /\ trace (world (snd after))
                        = requested ++ [EvAlert (js "No edited image returned")]
                 end
             | ContentFail m =>
                 ImageStudio.remixedImg st = None
                 /\ trace (world (snd after)) = requested ++ [EvAlert m]
             end).
Proof.
  intros s after st. subst st after.
  destruct (ImageStudio.remixSource (ui s)) as [src|] eqn:Hs.
  2:{ unfold ImageStudio.handleRemix. rewrite Hs. simpl.
      split; [reflexivity|]. split; [reflexivity|]. intros src' Hd. discriminate. }
  destruct (truthy src) eqn:Ht.
  2:{ unfold ImageStudio.handleRemix. rewrite Hs, Ht. simpl.
      split; [reflexivity|]. split; [reflexivity|].
      intros src' [= <-] Ht'. congruence. }
  rewrite (image_handleRemix_cases s src Hs Ht).
  pose proof (editImageWithFlash_run (at_index (split comma src) 1)
                (ImageStudio.remixPrompt (ui s)) (world s)) as (Ho & Htr & _).
  destruct (editImageWithFlash (at_index (split comma src) 1)
              (ImageStudio.remixPrompt (ui s)) (world s)) as [[uri|e|] w1];
    simpl in Ho, Htr;
    destruct (content_replies (world s) (content_calls (world s))) as [resp|m];
    try destruct (firstInlineImage (partsOf resp)) as [d|];
    try discriminate; try (injection Ho as Ho; subst);
    (split; [reflexivity|]);
    (split; [simpl; intros Hf; congruence|]);
    intros src' Hs' _ requested; subst requested; injection Hs' as <-;
    cbn [snd fst ui world trace log]; rewrite Htr; repeat split; simpl; auto.
Qed.

(** X14.  Auto-fill is one-shot.  In Image Studio, once the effect has run
    for a campaign, a later campaign changes nothing; outside the generate
    tab it never fills.  In Video Lab the same holds when the first
    campaign has a non-empty video concept; with an empty one the field
    stays empty and the next campaign fills it.  The effect changes no
    field but the prompt. *)
Theorem autofill_first_campaign_wins :
  forall (c1 : ActiveCampaign) (later : option ActiveCampaign)
         (image : ImageStudio.State) (video : VideoLab.State),
    ImageStudio.autoFill later (ImageStudio.autoFill (Some c1) image)
      = ImageStudio.autoFill (Some c1) image
    /\ (ImageStudio.activeTab image <> ImageStudio.generate ->
        ImageStudio.autoFill (Some c1) image = image)
    /\ (truthy (videoConcept c1) = true ->
        VideoLab.autoFill later (VideoLab.autoFill (Some c1) video)
          = VideoLab.autoFill (Some c1) video)
    /\ (forall c2,
          videoConcept c1 = [] -> VideoLab.prompt video = [] ->
          VideoLab.prompt (VideoLab.autoFill (Some c2) (VideoLab.autoFill (Some c1) video))
            = videoConcept c2)
    /\ ImageStudio.autoFill (Some c1) image
       = ImageStudio.setGenPrompt
           (ImageStudio.genPrompt (ImageStudio.autoFill (Some c1) image)) image
    /\ VideoLab.autoFill (Some c1) video
       = VideoLab.setPrompt (VideoLab.prompt (VideoLab.autoFill (Some c1) video)) video.
Proof.
  intros c1 later image video. repeat split.
  - unfold ImageStudio.autoFill.
    destruct (ImageStudio.is_generate (ImageStudio.activeTab image)) eqn:Eg;
      destruct (truthy (ImageStudio.genPrompt image)) eqn:Et; simpl;
      destruct later; rewrite ?Eg, ?Et; simpl; rewrite ?andb_false_r; reflexivity.
  - intros Hn. unfold ImageStudio.autoFill.
    destruct (ImageStudio.activeTab image); [congruence | reflexivity | reflexivity].
  - intros Hc. unfold VideoLab.autoFill.
    destruct (truthy (VideoLab.prompt video)) eqn:Et; simpl;
      destruct later; rewrite ?Et, ?Hc; reflexivity.
  - intros c2 Hc Hp. unfold VideoLab.autoFill. rewrite Hp. simpl. rewrite Hc. reflexivity.
  - unfold ImageStudio.autoFill.
    destruct (_ && _); destruct image; reflexivity.
  - unfold VideoLab.autoFill.
    destruct (negb _); destruct video; reflexivity.
Qed.

(* ================================================================== *)
(** ** Image and video analysis *)
(* ================================================================== *)




Lemma image_handleAnalyze_cases
    (s : Session (ImageStudio.State * ImageStudio.Analysis)) src :
  ImageStudio.analyzeSource (snd (ui s)) = Some src ->
  truthy src = true ->
  ImageStudio.handleAnalyze s =
  match analyzeImage (at_index (split comma src) 1)
          (or_else (Some (ImageStudio.analyzePrompt (snd (ui s))))
             (js "Describe this image in detail.")) (world s) with
  | (Returned result, w1) =>
      (Returned tt,
       {| ui := (ImageStudio.setLoading false
                   (ImageStudio.setLoading true (fst (ui s))),
                 ImageStudio.setAnalysisResult
                   (or_else result (js "No analysis returned."))
                   (ImageStudio.setAnalysisResult [] (snd (ui s))));
          store := store s; world := w1 |})
  | (Thrown e, w1) =>
      (Returned tt,
       {| ui := (ImageStudio.setLoading false
                   (ImageStudio.setLoading true (fst (ui s))),
                 ImageStudio.setAnalysisResult [] (snd (ui s)));
          store := store s; world := log (EvAlert (message e)) w1 |})
  | (Pending, w1) =>
      (Pending,
       {| ui := (ImageStudio.setLoading true (fst (ui s)),
                 ImageStudio.setAnalysisResult [] (snd (ui s)));
          store := store s; world := w1 |})
  end.
Proof.
  intros Hs Ht.
  remember (analyzeImage (at_index (split comma src) 1)
              (or_else (Some (ImageStudio.analyzePrompt (snd (ui s))))
                 (js "Describe this image in detail.")) (world s)) as run eqn:Erun.
  unfold ImageStudio.handleAnalyze. rewrite Hs, Ht.
  change (negb true) with false. cbv beta iota.
  unfold bind, setUI, modify, finally, try_catch, liftW, updUI, alert, emit, modify,
    ImageStudio.onState, ImageStudio.onAnalysis.
  cbn [ui store world fst snd].
  match goal with |- context [analyzeImage ?a ?b ?c] =>
    replace (analyzeImage a b c) with run by (rewrite Erun; reflexivity)
  end.
  destruct run as [[result|e|] w1]; reflexivity.
Qed.

(** X17.  Image screen, analysis: without a source the handler does
    nothing.  With one it clears the result first, sends the image declared
    as [image/jpeg] with the typed prompt or, when empty, [Describe this
    image in detail.]; on success the result is non-empty, on failure it
    stays cleared and the gateway message is alerted. *)
Theorem image_analysis_clears_then_fills_result :
  forall s : Session (ImageStudio.State * ImageStudio.Analysis),
    let after := ImageStudio.handleAnalyze s in
    let st := ui (snd after) in
    fst after = Returned tt
    /\ (truthy_opt (ImageStudio.analyzeSource (snd (ui s))) = false -> snd after = s)
    /\ (forall src,
          ImageStudio.analyzeSource (snd (ui s)) = Some src -> truthy src = true ->
          let asked :=
            if truthy (ImageStudio.analyzePrompt (snd (ui s)))
            then ImageStudio.analyzePrompt (snd (ui s))
            else js "Describe this image in detail." in
          let requested :=
            trace (world s)
            ++ [EvGenerateContent
                  (analyzeImageRequest (at_index (split comma src) 1) asked)] in
          ImageStudio.loading (fst st) = false
          /\ match content_replies (world s) (content_calls (world s)) with
             | ContentOk resp =>
                 ImageStudio.analysisResult (snd st)
                   = or_else (responseText resp) (js "No analysis returned.")
                 /\ truthy (ImageStudio.analysisResult (snd st)) = true
                 /\ trace (world (snd after)) = requested
             | ContentFail m =>
                 ImageStudio.analysisResult (snd st) = []
                 /\ trace (world (snd after)) = requested ++ [EvAlert m]
             end).
Proof.
  intros s after st. subst st after.
  destruct (ImageStudio.analyzeSource (snd (ui s))) as [src|] eqn:Hs.
  2:{ unfold ImageStudio.handleAnalyze. rewrite Hs. simpl.
      split; [reflexivity|]. split; [reflexivity|]. intros f Hd. discriminate. }
  destruct (truthy src) eqn:Ht.
  2:{ unfold ImageStudio.handleAnalyze. rewrite Hs, Ht. simpl.
      split; [reflexivity|]. split; [reflexivity|].
      intros src' [= <-] Ht'. congruence. }
  rewrite (image_handleAnalyze_cases s src Hs Ht).
  unfold analyzeImage, bind, generateContent.
  destruct (content_replies (world s) (content_calls (world s))) as [resp|m];
    cbn [fst snd ui world trace log next_content];
    (split; [reflexivity|]); (split; [simpl; intros Hf; congruence|]);
    intros src' [= <-] _; repeat split.
  unfold or_else. simpl. destruct (responseText resp) as [t|]; [|reflexivity].
  destruct (truthy t) eqn:E; auto.
Qed.

(* ================================================================== *)
(** ** Social screen *)
(* ================================================================== *)

Lemma first_segment_cons sep c r :
  first_segment sep (c :: r)
  = if starts_with sep (c :: r) then [] else c :: first_segment sep r.
Proof. reflexivity. Qed.

Lemma first_segment_without sep s :
  occurs sep s = false -> first_segment sep s = s.
Proof.
  induction s as [|c r IH]; simpl; intros H; apply orb_false_elim in H as [H1 H2].
  - now rewrite H1.
  - rewrite H1. f_equal. auto.
Qed.

Lemma first_segment_before_footer text rest :
  occurs dashes text = false ->
  first_segment dashes (text ++ 10%N :: rest)
  = text ++ first_segment dashes (10%N :: rest).
Proof.
  induction text as [|c r IH]; intros H; [reflexivity|].
  simpl in H. apply orb_false_elim in H as [H1 H2].
  change ((c :: r) ++ 10%N :: rest) with (c :: (r ++ 10%N :: rest)).
  assert (Hs : starts_with dashes (c :: (r ++ 10%N :: rest)) = false).
  { destruct r as [|d [|e r']]; simpl in *.
    - now rewrite andb_false_r.
    - now rewrite !andb_false_r.
    - exact H1. }
  simpl first_segment at 1. unfold dashes in Hs |- *. simpl in Hs |- *.
  rewrite Hs. f_equal. apply IH. exact H2.
Qed.

Lemma first_segment_truncates text rest :
  occurs dashes text = true ->
  first_segment dashes (text ++ rest) = first_segment dashes text.
Proof.
  induction text as [|c r IH]; intros H; [discriminate|].
  simpl in H.
  destruct r as [|d [|e r']].
  - simpl in H. rewrite andb_false_r in H. discriminate.
  - simpl in H. rewrite !andb_false_r in H. discriminate.
  - change ((c :: d :: e :: r') ++ rest) with (c :: d :: e :: (r' ++ rest)).
    destruct (starts_with dashes (c :: d :: e :: r')) eqn:E.
    + assert (starts_with dashes (c :: d :: e :: r' ++ rest) = true) as E'
          by (simpl in E |- *; exact E).
      now rewrite !first_segment_cons, E, E'.
    + assert (starts_with dashes (c :: d :: e :: r' ++ rest) = false) as E'
          by (simpl in E |- *; exact E).
      rewrite (first_segment_cons dashes c (d :: e :: r' ++ rest)), E'.
      rewrite (first_segment_cons dashes c (d :: e :: r')), E.
      f_equal. apply IH. simpl in H, E. rewrite E in H. exact H.
Qed.

(** X18.  Click-to-copy on the social screen copies the part of the output
    before the first [---]: for a generated post free of [---], the post
    followed by two line feeds and without the timing footer; for a post
    that contains [---], only its part before that, strictly shorter than
    the post; an error output free of [---] is copied whole. *)
Theorem copy_strips_footer_unless_post_has_dashes :
  forall (text time : jsstring),
    (occurs dashes text = false ->
     SocialSpeed.copied (text ++ SocialSpeed.footer time) = text ++ nl ++ nl)
    /\ (occurs dashes text = true ->
        SocialSpeed.copied (text ++ SocialSpeed.footer time)
          = SocialSpeed.copied text
        /\ length (SocialSpeed.copied text) < length text)
    /\ (forall m, occurs dashes (js "Error: " ++ m) = false ->
                  SocialSpeed.copied (js "Error: " ++ m) = js "Error: " ++ m).
Proof.
  intros text time. unfold SocialSpeed.copied. fold dashes. repeat split.
  - intros H. unfold SocialSpeed.footer.
    change (nl ++ nl ++ js "---" ++ nl ++ [9889%N] ++ js " Generated in " ++ time
              ++ js "s using Flash Lite")
      with (10%N :: (10%N :: 45%N :: 45%N :: 45%N
                       :: (nl ++ [9889%N] ++ js " Generated in " ++ time
                             ++ js "s using Flash Lite"))).
    rewrite (first_segment_before_footer text _ H). reflexivity.
  - now apply first_segment_truncates.
  - clear time. induction text as [|c r IH]; [discriminate|].
    destruct r as [|d [|e r']].
    + simpl in H. rewrite andb_false_r in H. discriminate.
    + simpl in H. rewrite !andb_false_r in H. discriminate.
    + destruct (starts_with dashes (c :: d :: e :: r')) eqn:E.
      * rewrite first_segment_cons, E. simpl. lia.
      * rewrite first_segment_cons, E.
        simpl in H, E. rewrite E in H. simpl in H.
        specialize (IH H). simpl in IH |- *. lia.
  - intros m H. now apply first_segment_without.
Qed.

Lemma copy_strips_footer_witness :
  SocialSpeed.copied (js "Grow up! #rooftop" ++ SocialSpeed.footer (js "0.42"))
    = js "Grow up! #rooftop" ++ nl ++ nl
  /\ SocialSpeed.copied (js "Before --- after" ++ SocialSpeed.footer (js "0.42"))
    = js "Before ".
Proof.
  split.
  - destruct (copy_strips_footer_unless_post_has_dashes
                (js "Grow up! #rooftop") (js "0.42")) as (H & _).
    exact (H eq_refl).
  - destruct (copy_strips_footer_unless_post_has_dashes
                (js "Before --- after") (js "0.42")) as (_ & H & _).
    destruct (H eq_refl) as [-> _]. reflexivity.
Defined.

Lemma social_handleGenerate_cases time t (s : Session SocialSpeed.State) :
  truthy t = true ->
  SocialSpeed.handleGenerate time t s =
  match generateFastSocialCopy t (SocialSpeed.platform (ui s)) (world s) with
  | (Returned text, w1) =>
      (Returned tt,
       {| ui := SocialSpeed.setLoading false
                  (SocialSpeed.setOutput (tpl text ++ SocialSpeed.footer time)
                     (SocialSpeed.setLoading true (ui s)));
          store := store s; world := w1 |})
  | (Thrown e, w1) =>
      (Returned tt,
       {| ui := SocialSpeed.setLoading false
                  (SocialSpeed.setOutput (js "Error: " ++ message e)
                     (SocialSpeed.setLoading true (ui s)));
          store := store s; world := w1 |})
  | (Pending, w1) =>
      (Pending,
       {| ui := SocialSpeed.setLoading true (ui s); store := store s; world := w1 |})
  end.
Proof.
  intros Ht. unfold SocialSpeed.handleGenerate. rewrite Ht.
  change (negb true) with false. cbv beta iota.
  unfold bind, setUI, modify, finally, try_catch, liftW, updUI.
  cbn [ui store world fst snd].
  destruct (generateFastSocialCopy t (SocialSpeed.platform (ui s)) (world s))
    as [[text|e|] w1]; reflexivity.
Qed.

(** X19.  Social screen, generation for a topic [t]: with an empty [t] the
    handler does nothing.  Otherwise it sends one request for [t] on the
    selected platform, leaves the typed topic alone, ends with the loading
    flag off, and shows the post with its footer, or [Error: ] and the
    gateway message. *)
Theorem social_post_is_generated_for_the_given_topic :
  forall (time t : jsstring) (s : Session SocialSpeed.State),
    let after := SocialSpeed.handleGenerate time t s in
    let st := ui (snd after) in
    fst after = Returned tt
    /\ (truthy t = false -> snd after = s)
    /\ (truthy t = true ->
        SocialSpeed.loading st = false
        /\ SocialSpeed.topic st = SocialSpeed.topic (ui s)
        /\ trace (world (snd after)) =
           trace (world s)
           ++ [EvGenerateContent (socialCopyRequest t (SocialSpeed.platform (ui s)))]
        /\ match content_replies (world s) (content_calls (world s)) with
           | ContentOk resp =>
               SocialSpeed.output st
                 = tpl (responseText resp) ++ SocialSpeed.footer time
           | ContentFail m => SocialSpeed.output st = js "Error: " ++ m
           end).
Proof.
  intros time t s after st. subst st after.
  destruct (truthy t) eqn:Ht.
  2:{ unfold SocialSpeed.handleGenerate. rewrite Ht. simpl.
      split; [reflexivity|]. split; [reflexivity|]. discriminate. }
  rewrite (social_handleGenerate_cases time t s Ht).
  unfold generateFastSocialCopy, bind, generateContent.
  destruct (content_replies (world s) (content_calls (world s))) as [resp|m];
    cbn [fst snd ui world trace log next_content];
    (split; [reflexivity|]); (split; [discriminate|]); intros _; repeat split.
Qed.

(** X20.  A click on a campaign hook makes the hook the topic, whatever
    topic was typed before.  For a non-empty hook it then sends the one
    request for that hook on the selected platform and ends with the
    loading flag off; for an empty hook it sends nothing and changes
    nothing else. *)
Theorem hook_click_generates_for_the_hook :
  forall (time hook : jsstring) (s : Session SocialSpeed.State),
    let click := SocialSpeed.clickHook time hook s in
    let after := snd click in
    fst click = Returned tt
    /\ SocialSpeed.topic (ui after) = hook
    /\ (truthy hook = true ->
        SocialSpeed.loading (ui after) = false
        /\ trace (world after) =
           trace (world s)
           ++ [EvGenerateContent
                 (socialCopyRequest hook (SocialSpeed.platform (ui s)))])
    /\ (truthy hook = false ->
        after = updUI (SocialSpeed.setTopic hook) s
        /\ trace (world after) = trace (world s)).
Proof.
  intros time hook s click after. subst after click.
  unfold SocialSpeed.clickHook, bind, setUI, modify. cbn [fst snd].
  destruct (truthy hook) eqn:Ht.
  - rewrite (social_handleGenerate_cases time hook _ Ht).
    unfold generateFastSocialCopy, bind, generateContent.
    cbn [fst snd ui world updUI].
    destruct (content_replies (world s) (content_calls (world s))) as [resp|m];
      (split; [reflexivity|]); (split; [reflexivity|]);
      (split; [intros _; split; reflexivity | discriminate]).
  - unfold SocialSpeed.handleGenerate. rewrite Ht. cbn.
    split; [reflexivity|]. split; [reflexivity|].
    split; [discriminate | intros _; split; reflexivity].
Qed.

(* ================================================================== *)
(** ** Sample runs *)
(* ================================================================== *)

Lemma strategy_run_idle_witness :
  let s := acmeSession [ContentFail (js "503")] in
  let after := StrategyAgent.handleRun setCampaign s in
  fst after = Returned tt
  /\ StrategyAgent.loading (ui (snd after)) = false
  /\ alerts (trace (world (snd after))) = [].
Proof.
  intros s after.
  destruct (strategy_run_always_returns_to_idle s) as (H1 & _ & H3 & _ & _ & H6).
  split; [exact H1 | split; [exact (H3 eq_refl) | exact H6]].
Defined.

Lemma strategy_call_failure_witness :
  let s := acmeSession [ContentFail (js "503")] in
  let after := snd (StrategyAgent.handleRun setCampaign s) in
  StrategyAgent.output (ui after) = js "Error: 503"
  /\ store after = Some earlierCampaign.
Proof.
  intros s after.
  destruct (strategy_call_failure_is_shown_inline s (js "503") eq_refl eq_refl)
    as (H1 & _ & _ & H4 & _).
  split; [exact H1 | exact H4].
Defined.

Lemma research_run_witness :
  let s := researchSession (ContentOk groundedResponse) in
  let after := snd (StrategyAgent.handleRun setCampaign s) in
  StrategyAgent.output (ui after) = js "Rooftop plots are trending."
  /\ StrategyAgent.researchUrls (ui after) = [gardenLink]
  /\ store after = Some earlierCampaign.
Proof.
  intros s after.
  destruct (research_run_lists_web_sources s groundedResponse eq_refl eq_refl eq_refl)
    as (H1 & _ & H3 & _ & _ & H6 & _).
  split; [exact H1 | split; [exact H3 | exact H6]].
Defined.

Lemma strategy_run_store_witness :
  let s := acmeSession [textReply (js "Week one: teasers."); textReply samplePayload] in
  store (snd (StrategyAgent.handleRun setCampaign (withStore None s)))
  = store (snd (StrategyAgent.handleRun setCampaign s)).
Proof.
  intros s.
  destruct (strategy_run_never_reads_the_store s None)
    as (_ & _ & _ & [(c & H1 & H2)|(H1 & _)]).
  - rewrite H1, H2. reflexivity.
  - vm_compute in H1. discriminate H1.
Defined.

Lemma video_screen_result_witness :
  let s := videoSession droneTab (script [pendingOp; doneOp (Some mockUri)]) in
  let after := VideoLab.handleGenerate 3 s in
  VideoLab.videoResult (ui (snd after)) = Some (mockUri ++ js "&key=SECRET")
  /\ VideoLab.loading (ui (snd after)) = false.
Proof.
  intros s after.
  destruct (video_screen_shows_result_or_alert s [pendingOp] (doneOp (Some mockUri)) 3
              eq_refl (scripted_script _) ltac:(repeat constructor) eq_refl
              ltac:(simpl; lia)) as (_ & Hl & _ & _ & Hr).
  simpl in Hr. destruct Hr as [Hr _].
  split; [exact Hr | exact Hl].
Defined.

Lemma video_screen_loading_witness :
  let s := videoSession droneTab (fun _ => VideoOp pendingOp) in
  let after := VideoLab.handleGenerate 9 s in
  fst after = Pending /\ VideoLab.loading (ui (snd after)) = true.
Proof.
  intros s after.
  destruct (video_screen_stays_loading_while_job_pending s (fun _ => pendingOp)
              eq_refl (fun _ => eq_refl) (fun _ => eq_refl) 9) as (H1 & H2 & _).
  split; [exact H1 | exact H2].
Defined.

Lemma video_screen_source_witness :
  let s := videoSession animateTab (script []) in
  let after := VideoLab.handleGenerate 9 s in
  trace (world (snd after)) = [EvAlert (js "Image required")].
Proof.
  intros s after.
  destruct (video_screen_requires_source_image s 9 ltac:(discriminate) eq_refl)
    as (_ & H & _).
  exact H.
Defined.

Lemma image_to_video_witness :
  let s := videoSession animateTab (script [doneOp (Some mockUri)]) in
  let picked := updUI (VideoLab.handleImageUpload (Some [pixel])) s in
  VideoLab.sourceImage (ui picked) = Some (js "data:image/png;base64,iVBORw0KGg==")
  /\ exists later,
       trace (world (snd (VideoLab.handleGenerate 0 picked))) =
       [EvHasSelectedApiKey]
       ++ EvGenerateVideos
            (imageToVideoRequest (Some (js "iVBORw0KGg==")) (Some []) Ratio9_16)
       :: later.
Proof.
  intros s picked.
  destruct (image_to_video_request_carries_file_payload pixel [] s 0) as (H1 & H2 & _).
  - unfold comma, cu. simpl. intuition discriminate.
  - reflexivity.
  - split; [exact H1 | exact H2].
Defined.


Lemma hook_click_witness :
  let s := socialSession (textReply (js "Grow up!")) in
  let after := snd (SocialSpeed.clickHook (js "0.42") (js "Roof to table") s) in
  let blank := snd (SocialSpeed.clickHook (js "0.42") [] s) in
  SocialSpeed.topic (ui after) = js "Roof to table"
  /\ trace (world after)
     = [EvGenerateContent (socialCopyRequest (js "Roof to table") (js "Twitter/X"))]
  /\ SocialSpeed.topic (ui blank) = []
  /\ trace (world blank) = [].
Proof.
  intros s after blank.
  destruct (hook_click_generates_for_the_hook (js "0.42") (js "Roof to table") s)
    as (_ & H1 & H2 & _).
  destruct (H2 eq_refl) as (_ & H3).
  destruct (hook_click_generates_for_the_hook (js "0.42") [] s)
    as (_ & H4 & _ & H5).
  destruct (H5 eq_refl) as (_ & H6).
  split; [exact H1 | split; [exact H3 | split; [exact H4 | exact H6]]].
Defined.

Lemma social_post_witness :
  let s := socialSession (ContentFail (js "429")) in
  let after := SocialSpeed.handleGenerate (js "0.42") (js "launch day") s in
  SocialSpeed.output (ui (snd after)) = js "Error: 429"
  /\ snd (SocialSpeed.handleGenerate (js "0.42") [] s) = s.
Proof.
  intros s after.
  destruct (social_post_is_generated_for_the_given_topic (js "0.42") (js "launch day") s)
    as (_ & _ & H).
  destruct (H eq_refl) as (_ & _ & _ & Ho).
  destruct (social_post_is_generated_for_the_given_topic (js "0.42") [] s)
    as (_ & Hn & _).
  split; [exact Ho | exact (Hn eq_refl)].
Defined.

Lemma remix_screen_witness :
  let st := ImageStudio.setRemixSource (readAsDataURL pixel) ImageStudio.initial in
  let s := imageSession st (partsReply [textPart (js "no")]) in
  let after := ImageStudio.handleRemix s in
  ImageStudio.remixedImg (ui (snd after)) = None
  /\ trace (world (snd after))
     = [ EvGenerateContent (editRequest (Some (js "iVBORw0KGg==")) []);
         EvAlert (js "No edited image returned") ]
  /\ snd (ImageStudio.handleRemix (imageSession ImageStudio.initial (partsReply [])))
     = imageSession ImageStudio.initial (partsReply []).
Proof.
  intros st s after.
  destruct (remix_screen_shows_image_or_alert s) as (_ & _ & H).
  destruct (H (readAsDataURL pixel) eq_refl eq_refl) as (_ & _ & Hr & Ht).
  destruct (remix_screen_shows_image_or_alert
              (imageSession ImageStudio.initial (partsReply []))) as (_ & Hn & _).
  split; [exact Hr | split; [exact Ht | exact (Hn eq_refl)]].
Defined.

Lemma autofill_first_campaign_witness :
  ImageStudio.autoFill (Some harbour)
    (ImageStudio.autoFill (Some rooftop) ImageStudio.initial)
  = ImageStudio.autoFill (Some rooftop) ImageStudio.initial
  /\ VideoLab.autoFill (Some harbour)
       (VideoLab.autoFill (Some rooftop) VideoLab.initial)
     = VideoLab.autoFill (Some rooftop) VideoLab.initial.
Proof.
  destruct (autofill_first_campaign_wins rooftop (Some harbour)
              ImageStudio.initial VideoLab.initial) as (H1 & _ & H3 & _).
  split; [exact H1 | exact (H3 eq_refl)].
Defined.


Lemma image_analysis_witness :
  let st := (ImageStudio.initial,
             {| ImageStudio.analyzeSource := Some (readAsDataURL pixel);
                ImageStudio.analyzePrompt := [];
                ImageStudio.analysisResult := js "earlier analysis" |}) in
  let after := ImageStudio.handleAnalyze (analysisSession st (ContentFail (js "413"))) in
  ImageStudio.analysisResult (snd (ui (snd after))) = []
  /\ alerts (trace (world (snd after))) = [js "413"].
Proof.
  intros st after.
  destruct (image_analysis_clears_then_fills_result
              (analysisSession st (ContentFail (js "413")))) as (_ & _ & H).
  destruct (H (readAsDataURL pixel) eq_refl eq_refl) as (_ & Hr & Ht).
  split; [exact Hr|]. subst after. rewrite Ht. reflexivity.
Defined.
